(** * marketplace-ml: two-tier crawl pipeline

    A shallow embedding of [app/services/custom_crawler.py],
    [app/services/queue_service.py], [app/workers/firecrawl_worker.py],
    [app/workers/custom_worker.py], [app/main.py] with [app/models.py] and
    [app/services/firecrawl_crawler.py], with the properties of the
    traversal engine, of the tier hand-off, of the endpoint and of the
    scraper stated and proved over it.

    Conventions.
    - Python [str] is [string] (byte strings; the character classes below
      are the ASCII part of Python's), Python [int] is [Z], a [dict] with
      string keys is a [gmap string _], a [set] is a [gset].
    - Code that talks to the outside (HTTP, the browser, the HTML parser,
      the file system, the queue transport) is a function of a [World]
      record: the theorems hold for every world.
    - Effects are threaded through a small state-and-exception monad; the
      event log [trace] records the outside calls in the order the code
      makes them. *)

From Equations Require Import Equations.
From stdpp Require Import gmap strings list fin_maps pretty.
From Stdlib Require Import ZArith Ascii String.

Open Scope string_scope.
Open Scope Z_scope.

(** ** The Python string operations the code uses *)

Module Py.

Definition is_upper (c : ascii) : bool :=
  let n := nat_of_ascii c in (65 <=? n)%nat && (n <=? 90)%nat.

Definition lower_char (c : ascii) : ascii :=
  if is_upper c then ascii_of_nat (nat_of_ascii c + 32) else c.

(** [s.lower()] *)
Fixpoint lower (s : string) : string :=
  match s with
  | EmptyString => EmptyString
  | String c s' => String (lower_char c) (lower s')
  end.

(** [s.startswith(p)] *)
Definition startswith (s p : string) : bool := String.prefix p s.

(** [s.endswith(t)] *)
Definition endswith (s t : string) : bool :=
  (String.length t <=? String.length s)%nat
  && String.eqb (substring (String.length s - String.length t) (String.length t) s) t.

(** [sub in s] *)
Fixpoint contains (sub s : string) : bool :=
  String.prefix sub s
  || match s with
     | EmptyString => false
     | String _ s' => contains sub s'
     end.

(** [str.isspace] on one character: tab, LF, VT, FF, CR, FS, GS, RS, US and
    the space. The same class is what [\s] matches. *)
Definition is_space (c : ascii) : bool :=
  let n := nat_of_ascii c in
  ((9 <=? n)%nat && (n <=? 13)%nat) || ((28 <=? n)%nat && (n <=? 32)%nat).

Fixpoint lstrip_by (p : ascii → bool) (s : string) : string :=
  match s with
  | EmptyString => EmptyString
  | String c s' => if p c then lstrip_by p s' else s
  end.

Definition strip_by (p : ascii → bool) (s : string) : string :=
  String.rev (lstrip_by p (String.rev (lstrip_by p s))).

(** [s.strip()] *)
Definition strip (s : string) : string := strip_by is_space s.

(** [s.strip('/')] *)
Definition strip_slashes (s : string) : string :=
  strip_by (λ c, Ascii.eqb c "/") s.

(** [s.split(sep)] for a one-character separator. *)
Fixpoint split_on (sep : ascii) (s : string) : list string :=
  match s with
  | EmptyString => [EmptyString]
  | String c s' =>
      if Ascii.eqb c sep then EmptyString :: split_on sep s'
      else match split_on sep s' with
           | [] => [String c EmptyString]
           | x :: xs => String c x :: xs
           end
  end.

(** [s.split(sep, 1)[1]]: what follows the first separator; [None] stands
    for the [IndexError] of a string without one. *)
Fixpoint after_first (sep : ascii) (s : string) : option string :=
  match s with
  | EmptyString => None
  | String c s' => if Ascii.eqb c sep then Some s' else after_first sep s'
  end.

(** Truth value of a string, and of a value that is a string or [None]. *)
Definition truthy (s : string) : bool := negb (String.eqb s "").

Definition truthy_opt (o : option string) : bool :=
  match o with
  | Some s => truthy s
  | None => false
  end.

(** [os.path.basename(p)]: what follows the last slash. *)
Definition basename (p : string) : string :=
  List.last (split_on "/" p) "".

(** [os.path.join(a, b)] (posixpath). *)
Definition path_join (a b : string) : string :=
  if startswith b "/" then b
  else if negb (truthy a) || endswith a "/" then a ++ b
  else a ++ "/" ++ b.

(** Components of a path as [pathlib] sees them: empty and [.] components
    are dropped. *)
Definition components (p : string) : list string :=
  List.filter (λ x, truthy x && negb (String.eqb x ".")) (split_on "/" p).

(** [Path(p).parent.name] *)
Definition parent_name (p : string) : string :=
  match List.rev (components p) with
  | _ :: d :: _ => d
  | _ => ""
  end.

(** Index of the last dot of a name, if any. *)
Fixpoint rfind_dot (s : string) (i : nat) (last : option nat) : option nat :=
  match s with
  | EmptyString => last
  | String c s' =>
      rfind_dot s' (S i) (if Ascii.eqb c "." then Some i else last)
  end.

(** [Path(p).stem]: the final component without its last suffix. *)
Definition stem (p : string) : string :=
  let name := List.last (components p) "" in
  match rfind_dot name 0 None with
  | Some i =>
      if (0 <? i)%nat && (i <? String.length name - 1)%nat
      then substring 0 i name else name
  | None => name
  end.

(** [\w] on one character (letters, digits, underscore). *)
Definition is_word (c : ascii) : bool :=
  let n := nat_of_ascii c in
  ((48 <=? n)%nat && (n <=? 57)%nat) || ((65 <=? n)%nat && (n <=? 90)%nat)
  || ((97 <=? n)%nat && (n <=? 122)%nat) || (n =? 95)%nat.

(** [re.sub(r'[^\w\-_.]', '_', s)] *)
Fixpoint sanitize (s : string) : string :=
  match s with
  | EmptyString => EmptyString
  | String c s' =>
      String (if is_word c || Ascii.eqb c "-" || Ascii.eqb c "." then c else "_"%char)
             (sanitize s')
  end.

(** What a text-mode [read] returns for what the file holds: [\r\n] and
    a lone [\r] are read as [\n] (universal newlines). *)
Fixpoint universal_newlines (s : string) : string :=
  match s with
  | EmptyString => EmptyString
  | String c s' =>
      if Ascii.eqb c "013" then
        String "010"
          match s' with
          | String d s'' =>
              if Ascii.eqb d "010" then universal_newlines s''
              else universal_newlines s'
          | EmptyString => universal_newlines s'
          end
      else String c (universal_newlines s')
  end.

End Py.

(** ** The two substitutions of [html_to_markdown]

    [re.sub] scans left to right; at each position it tries the pattern,
    takes the greedy match, writes the replacement and goes on after the
    match; where the pattern does not match, the character is copied. *)

Module Re.

Definition LF : ascii := "010"%char.
Definition SP : ascii := " "%char.

Definition is_nl (c : ascii) : bool := Ascii.eqb c LF.
Definition is_sp (c : ascii) : bool := Ascii.eqb c SP.

(** The greedy match of [\s*\n] at the start of [s]: the length up to and
    including the last newline of the leading whitespace run; [None] when
    that run holds no newline. [i] counts the characters read, [last] is
    the best match so far. *)
Fixpoint match_ws_nl (s : list ascii) (i : nat) (last : option nat) : option nat :=
  match s with
  | c :: s' =>
      if Py.is_space c
      then match_ws_nl s' (S i) (if is_nl c then Some (S i) else last)
      else last
  | [] => last
  end.

(** [re.sub(r'\n\s*\n', '\n\n', text)] *)
Equations? sub_blank_lines (s : list ascii) : list ascii by wf (List.length s) lt :=
sub_blank_lines [] := [];
sub_blank_lines (c :: s') with (if is_nl c then match_ws_nl s' 0 None else None) := {
  | Some k => LF :: LF :: sub_blank_lines (drop k s')
  | None => c :: sub_blank_lines s' }.
Proof.
  - rewrite length_drop. simpl. lia.
  - simpl. lia.
Qed.

Fixpoint drop_while (p : ascii → bool) (s : list ascii) : list ascii :=
  match s with
  | c :: s' => if p c then drop_while p s' else s
  | [] => []
  end.

(** [re.sub(r' +', ' ', text)] *)
Equations? sub_spaces (s : list ascii) : list ascii by wf (List.length s) lt :=
sub_spaces [] := [];
sub_spaces (c :: s') with is_sp c := {
  | true => SP :: sub_spaces (drop_while is_sp s')
  | false => c :: sub_spaces s' }.
Proof.
  - clear. induction s' as [|d s' IH]; simpl; [lia|].
    destruct (is_sp d); simpl in *; lia.
  - simpl. lia.
Qed.

(** The leading whitespace run of [s] holds a newline. *)
Fixpoint run_has_nl (s : list ascii) : bool :=
  match s with
  | c :: s' => Py.is_space c && (is_nl c || run_has_nl s')
  | [] => false
  end.

(** After a newline [c], the text [t] goes on with a run without newline,
    or with one more newline and then a run without newline. *)
Definition nl_ok (c : ascii) (t : list ascii) : bool :=
  if is_nl c then
    negb (run_has_nl t)
    || match t with
       | d :: t2 => is_nl d && negb (run_has_nl t2)
       | [] => false
       end
  else true.

(** A text in which no blank-line run is left to collapse. *)
Fixpoint stable (t : list ascii) : bool :=
  match t with
  | c :: t' => nl_ok c t' && stable t'
  | [] => true
  end.

(** The whitespace clean-up of [html_to_markdown], on strings. *)
Definition clean_whitespace (text : string) : string :=
  string_of_list_ascii
    (sub_spaces (sub_blank_lines (list_ascii_of_string text))).

End Re.

(** ** Outcomes, the environment, and the monad of effects *)

(** What a piece of Python code ends with: a value, or an exception (kept
    as its message [str(e)]). [OutOfFuel] is not a Python outcome: it marks
    a [while] loop of the model that was given too little fuel. *)
Inductive outcome (A : Type) : Type :=
| Ok (a : A)
| Raised (e : string)
| OutOfFuel.
Arguments Ok {A} a.
Arguments Raised {A} e.
Arguments OutOfFuel {A}.

(** What a call into the outside world ends with. *)
Inductive result (A : Type) : Type :=
| Returns (a : A)
| Raises (e : string).
Arguments Returns {A} a.
Arguments Raises {A} e.

Inductive Level : Type := DEBUG | INFO | WARNING | ERROR.

(** The calls the code makes to the outside, one event per call site. *)
Inductive Event : Type :=
| EvRobots (url : string)          (* [requests.get] of get_robots_txt_rules *)
| EvDownload (url : string)        (* [requests.get] of download_pdf *)
| EvNavigate (url : string)        (* [page.goto] / [driver.get] *)
| EvBrowserStart (type : string)   (* browser launch in setup_browser *)
| EvBrowserClose (type : string)   (* teardown in close_browser *)
| EvScrape (url : string)          (* [scraper.process_website] *)
| EvLog (lvl : Level) (msg : string).

(** A queue message body is the job dictionary ([json.dumps]/[json.loads]
    of a dictionary of strings is the identity on it). *)
Record Message : Type := { ReceiptHandle : string; Body : gmap string string }.

(** The mutable outside: the files of the content store, the queues of
    the transport by URL, the number of messages sent so far (message
    identifiers and receipt handles are drawn from it), and the log. *)
Record Env : Type := {
  files : gmap string string;
  queues : gmap string (list Message);
  sent : nat;
  trace : list Event;
}.

Definition M (A : Type) : Type := Env → outcome A * Env.

#[global] Instance M_ret : MRet M := λ A a env, (Ok a, env).

#[global] Instance M_bind : MBind M := λ A B f m env,
  match m env with
  | (Ok a, env') => f a env'
  | (Raised e, env') => (Raised e, env')
  | (OutOfFuel, env') => (OutOfFuel, env')
  end.

(** [raise Exception(e)] *)
Definition raise {A : Type} (e : string) : M A := λ env, (Raised e, env).

Definition out_of_fuel {A : Type} : M A := λ env, (OutOfFuel, env).

(** [try: body / except Exception as e: handler e] *)
Definition try_except {A : Type} (body : M A) (handler : string → M A) : M A :=
  λ env,
    match body env with
    | (Raised e, env') => handler e env'
    | r => r
    end.

(** [try: body / finally: final]: [final] runs whatever [body] ends with;
    an exception of [final] replaces the outcome of [body]. *)
Definition try_finally {A : Type} (body : M A) (final : M unit) : M A :=
  λ env,
    match body env with
    | (OutOfFuel, env') => (OutOfFuel, env')
    | (r, env') =>
        match final env' with
        | (Ok _, env'') => (r, env'')
        | (Raised e, env'') => (Raised e, env'')
        | (OutOfFuel, env'') => (OutOfFuel, env'')
        end
    end.

Definition emit (ev : Event) : M unit := λ env,
  (Ok (), {| files := files env; queues := queues env; sent := sent env;
             trace := trace env ++ [ev] |}).

(** [self.logger.<lvl>(msg)] *)
Definition log (lvl : Level) (msg : string) : M unit := emit (EvLog lvl msg).

(** Lift the result of an outside call. *)
Definition call {A : Type} (r : result A) : M A :=
  match r with
  | Returns a => mret a
  | Raises e => raise e
  end.

Definition set_file (path content : string) : M unit := λ env,
  (Ok (), {| files := <[path := content]> (files env); queues := queues env;
             sent := sent env; trace := trace env |}).

(** ** The outside world and the configuration *)

(** [urlparse(url)]: the three components the code reads. *)
Record ParseResult : Type := { scheme : string; netloc : string; path : string }.

(** A [requests] response: status, the [Content-Type] header if present,
    and the body (read as [text] or as [content]). *)
Record Response : Type := {
  status_code : Z;
  content_type : option string;
  content : string;
}.

(** Calls of the queue transport. *)
Inductive SqsCall : Type :=
| SendMessage (QueueUrl : string) (MessageBody : gmap string string)
| ReceiveMessage (QueueUrl : string)
| DeleteMessage (QueueUrl : string) (receipt : string).

(** A write that fails: the exception, and what the failure leaves at
    the path: [None] when the file was never opened (a failing [makedirs]
    or [open]), [Some s] when [open] had created or truncated the file and
    the write broke off with the file holding [s]. *)
Record WriteFault : Type := { wf_error : string; wf_left : option string }.

Record World : Type := {
  (* urllib *)
  urlparse : string → ParseResult;
  urljoin : string → string → result string;
  (* requests *)
  requests_get : string → result Response;
  (* the browser: navigate, wait, read the rendered page *)
  PLAYWRIGHT_AVAILABLE : bool;
  SELENIUM_AVAILABLE : bool;
  browser_launch : string → result unit;
  browser_page : string → result string;
  (* BeautifulSoup *)
  soup_hrefs : string → list string;       (* href of every <a href> *)
  soup_decompose : string → string;        (* drop script/style/meta/link, str(soup) *)
  soup_get_text : string → string;         (* get_text(separator='\n') *)
  (* the file system: a failing [makedirs]/[open]/[write], by path *)
  write_fault : string → option WriteFault;
  (* time.time() *)
  time_now : Z;
  (* the queue transport: a call that raises *)
  sqs_fault : SqsCall → option string;
}.

Record Config : Type := {
  browser_type : string;
  headless : bool;
  timeout : Z;
  max_pages : Z;
  respect_robots_txt : bool;
  pdf_folder : string;
  html_folder : string;
  markdown_folder : string;
  firecrawl_queue_url : string;
  custom_crawler_queue_url : string;
  threadpool_size : Z;
}.

(** ** app/services/custom_crawler.py *)

(** The browser context dictionary: only its ["type"] is read by the code;
    the page, browser and driver handles live in the world. *)
Record BrowserContext : Type := { bc_type : string }.

(** The result dictionary of crawl_website. *)
Record CrawlResult : Type := {
  r_company_name : string;
  r_job_id : string;
  r_website : string;
  r_pages_crawled : Z;
  r_pdf_files : list string;
  r_html_files : list string;
  r_markdown_files : list string;
}.

(** The pair [success, result] that crawl_website returns. *)
Inductive CrawlReturn : Type :=
| Crawled (results : CrawlResult)     (* [True, results] *)
| CrawlFailed (reason : string).      (* [False, str(e)] *)

(** The local variables of the traversal loop. [enqueued] is a history
    variable, not in the source: every URL ever put on [to_visit], in
    order, the root included. *)
Record Crawl : Type := {
  visited_urls : gset string;
  to_visit : list string;
  pdf_files : list string;
  html_files : list string;
  markdown_files : list string;
  page_count : Z;
  enqueued : list string;
}.

Module CustomCrawler.
Section Crawler.

Variable w : World.
Variable cfg : Config.

(** The body of the [for line in ...] loop of get_robots_txt_rules. *)
Definition robots_line (line : string) : list string :=
  if Py.startswith (Py.lower line) "disallow:" then
    match Py.after_first ":" line with
    | Some rest =>
        let path := Py.strip rest in
        if Py.truthy path then [path] else []
    | None => []
    end
  else [].

Definition get_robots_txt_rules (website : string) : M (list string) :=
  let parsed_url := urlparse w website in
  let robots_url := scheme parsed_url ++ "://" ++ netloc parsed_url ++ "/robots.txt" in
  try_except
    (emit (EvRobots robots_url);;
     response ← call (requests_get w robots_url);
     if status_code response =? 200
     then mret (flat_map robots_line (Py.split_on Re.LF (content response)))
     else mret [])
    (λ e, log WARNING ("Failed to fetch robots.txt: " ++ e);; mret []).

Definition is_allowed_url (url : string) (disallowed_paths : list string) : bool :=
  if negb (respect_robots_txt cfg) || bool_decide (disallowed_paths = []) then true
  else
    let path := path (urlparse w url) in
    negb (existsb (λ disallowed, Py.startswith path disallowed) disallowed_paths).

Definition setup_browser : M BrowserContext :=
  if String.eqb (browser_type cfg) "playwright" && PLAYWRIGHT_AVAILABLE w then
    call (browser_launch w "playwright");;
    emit (EvBrowserStart "playwright");;
    mret {| bc_type := "playwright" |}
  else if String.eqb (browser_type cfg) "selenium" && SELENIUM_AVAILABLE w then
    call (browser_launch w "selenium");;
    emit (EvBrowserStart "selenium");;
    mret {| bc_type := "selenium" |}
  else
    raise ("Browser type " ++ browser_type cfg ++ " not available or not supported").

Definition close_browser (browser_context : BrowserContext) : M unit :=
  if String.eqb (bc_type browser_context) "playwright" then
    emit (EvBrowserClose "playwright")
  else if String.eqb (bc_type browser_context) "selenium" then
    emit (EvBrowserClose "selenium")
  else mret ().

(** [None] is the Python [None]: of the [except] branch, and of a context
    whose type is neither backend (the function falls off its end). *)
Definition get_page_content (url : string) (browser_context : BrowserContext)
  : M (option string) :=
  try_except
    (if String.eqb (bc_type browser_context) "playwright"
        || String.eqb (bc_type browser_context) "selenium" then
       emit (EvNavigate url);;
       content ← call (browser_page w url);
       mret (Some content)
     else mret None)
    (λ e, log ERROR ("Error getting content for URL " ++ url ++ ": " ++ e);;
          mret None).

(** [urljoin] over a list of hrefs, stopping at the first that raises. *)
Fixpoint join_all (base_url : string) (hrefs : list string) : M (list string) :=
  match hrefs with
  | [] => mret []
  | href :: rest =>
      full_url ← call (urljoin w base_url href);
      urls ← join_all base_url rest;
      mret (full_url :: urls)
  end.

(** Two passes over the anchors: every href, then again those that end in
    [.pdf]. *)
Definition extract_links (content base_url : string) : M (list string) :=
  let hrefs := soup_hrefs w content in
  regular ← join_all base_url hrefs;
  pdfs ← join_all base_url
           (List.filter (λ href, Py.truthy href && Py.endswith (Py.lower href) ".pdf") hrefs);
  mret ((regular ++ pdfs)%list).

Definition is_same_domain (url base_domain : string) : bool :=
  String.eqb (netloc (urlparse w url)) base_domain.

(** [makedirs] and [with open(path, mode) as f: f.write(content)]: the
    file holds the content afterwards; or the write fails, and then the
    file is untouched when it was never opened, and holds what the broken
    write left when [open] had created or truncated it. *)
Definition write_file (path content : string) : M unit :=
  match write_fault w path with
  | Some fault =>
      match wf_left fault with
      | Some partial => set_file path partial
      | None => mret ()
      end;;
      raise (wf_error fault)
  | None => set_file path content
  end.

(** [open(path, 'r').read()]: the text of the file, newlines translated. *)
Definition read_file (path : string) : M string := λ env,
  match files env !! path with
  | Some content => (Ok (Py.universal_newlines content), env)
  | None => (Raised ("No such file or directory: " ++ path), env)
  end.

Definition pdf_filename (url : string) : string :=
  let name := Py.basename (path (urlparse w url)) in
  if Py.truthy name then name
  else "document_" ++ pretty (time_now w) ++ ".pdf".

Definition pdf_filepath (url company_name job_id : string) : string :=
  Py.path_join (Py.path_join (pdf_folder cfg) (company_name ++ "_" ++ job_id))
               (pdf_filename url).

Definition is_pdf_response (response : Response) : bool :=
  (status_code response =? 200)
  && Py.contains "application/pdf" (default "" (content_type response)).

Definition download_pdf (url company_name job_id : string) : M (option string) :=
  try_except
    (emit (EvDownload url);;
     response ← call (requests_get w url);
     if is_pdf_response response then
       let filepath := pdf_filepath url company_name job_id in
       write_file filepath (content response);;
       log INFO ("Downloaded PDF: " ++ filepath);;
       mret (Some filepath)
     else
       log WARNING ("Failed to download PDF from " ++ url ++ ": Status code "
                    ++ pretty (status_code response));;
       mret None)
    (λ e, log ERROR ("Error downloading PDF from " ++ url ++ ": " ++ e);;
          mret None).

Definition html_filepath (url company_name job_id : string) : string :=
  let path := Py.strip_slashes (path (urlparse w url)) in
  let path := if Py.truthy path then path else "index" in
  Py.path_join (Py.path_join (html_folder cfg) (company_name ++ "_" ++ job_id))
               (Py.sanitize path ++ ".html").

Definition save_html (content url company_name job_id : string) : M (option string) :=
  try_except
    (let filepath := html_filepath url company_name job_id in
     write_file filepath content;;
     log INFO ("Saved HTML: " ++ filepath);;
     mret (Some filepath))
    (λ e, log ERROR ("Error saving HTML for " ++ url ++ ": " ++ e);; mret None).

Definition html_to_markdown (html_content : string) : string :=
  Re.clean_whitespace (soup_get_text w html_content).

Definition convert_html_to_markdown (html_path : string) : M (option string) :=
  try_except
    (html_content ← read_file html_path;
     let html_clean := soup_decompose w html_content in
     let md_content := html_to_markdown html_clean in
     let md_folder := Py.path_join (markdown_folder cfg) (Py.parent_name html_path) in
     let md_path := Py.path_join md_folder (Py.stem html_path ++ ".md") in
     write_file md_path md_content;;
     log INFO ("Converted HTML to Markdown: " ++ md_path);;
     mret (Some md_path))
    (λ e, log ERROR ("Error converting HTML to Markdown for " ++ html_path ++ ": " ++ e);;
          mret None).

(** *** The traversal loop of crawl_website *)

Definition init_crawl (website : string) : Crawl :=
  {| visited_urls := ∅; to_visit := [website]; pdf_files := [];
     html_files := []; markdown_files := []; page_count := 0;
     enqueued := [website] |}.

(** [while to_visit and page_count < self.max_pages] *)
Definition loop_cond (c : Crawl) : bool :=
  negb (bool_decide (to_visit c = [])) && (page_count c <? max_pages cfg).

(** [visited_urls.add(current_url); page_count += 1], after the pop. *)
Definition mark_visited (current_url : string) (rest : list string) (c : Crawl) : Crawl :=
  {| visited_urls := {[current_url]} ∪ visited_urls c; to_visit := rest;
     pdf_files := pdf_files c; html_files := html_files c;
     markdown_files := markdown_files c; page_count := page_count c + 1;
     enqueued := enqueued c |}.

Definition set_to_visit (rest : list string) (c : Crawl) : Crawl :=
  {| visited_urls := visited_urls c; to_visit := rest;
     pdf_files := pdf_files c; html_files := html_files c;
     markdown_files := markdown_files c; page_count := page_count c;
     enqueued := enqueued c |}.

Definition add_pdf_file (pdf_path : string) (c : Crawl) : Crawl :=
  {| visited_urls := visited_urls c; to_visit := to_visit c;
     pdf_files := pdf_files c ++ [pdf_path]; html_files := html_files c;
     markdown_files := markdown_files c; page_count := page_count c;
     enqueued := enqueued c |}.

Definition add_html_file (html_path : string) (c : Crawl) : Crawl :=
  {| visited_urls := visited_urls c; to_visit := to_visit c;
     pdf_files := pdf_files c; html_files := html_files c ++ [html_path];
     markdown_files := markdown_files c; page_count := page_count c;
     enqueued := enqueued c |}.

Definition add_markdown_file (md_path : string) (c : Crawl) : Crawl :=
  {| visited_urls := visited_urls c; to_visit := to_visit c;
     pdf_files := pdf_files c; html_files := html_files c;
     markdown_files := markdown_files c ++ [md_path]; page_count := page_count c;
     enqueued := enqueued c |}.

(** [to_visit.append(link)] *)
Definition append_to_visit (link : string) (c : Crawl) : Crawl :=
  {| visited_urls := visited_urls c; to_visit := to_visit c ++ [link];
     pdf_files := pdf_files c; html_files := html_files c;
     markdown_files := markdown_files c; page_count := page_count c;
     enqueued := enqueued c ++ [link] |}.

Section Session.

Variables website company_name job_id : string.
Variable disallowed_paths : list string.
Variable browser_context : BrowserContext.

Definition base_domain : string := netloc (urlparse w website).

(** The test that guards [to_visit.append(link)]. *)
Definition wanted (c : Crawl) (link : string) : bool :=
  negb (bool_decide (link ∈ visited_urls c))
  && negb (bool_decide (link ∈ to_visit c))
  && is_same_domain link base_domain
  && is_allowed_url link disallowed_paths.

(** One turn of [for link in links]. *)
Definition consider_link (c : Crawl) (link : string) : Crawl :=
  if wanted c link then append_to_visit link c else c.

(** The page branch of the loop body, after [visited_urls.add]. *)
Definition crawl_page (current_url : string) (c : Crawl) : M Crawl :=
  content ← get_page_content current_url browser_context;
  if negb (Py.truthy_opt content) then mret c
  else
    let content := default "" content in
    html_path ← save_html content current_url company_name job_id;
    c ← (if Py.truthy_opt html_path then
           let html_path := default "" html_path in
           let c := add_html_file html_path c in
           md_path ← convert_html_to_markdown html_path;
           if Py.truthy_opt md_path
           then mret (add_markdown_file (default "" md_path) c)
           else mret c
         else mret c);
    links ← extract_links content current_url;
    mret (fold_left consider_link links c).

(** The body of the [while] loop; each [continue] is a return of the
    locals as they stand. *)
Definition loop_body (c : Crawl) : M Crawl :=
  match to_visit c with
  | [] => raise "pop from empty list"
  | current_url :: rest =>
      if bool_decide (current_url ∈ visited_urls c)
         || negb (is_allowed_url current_url disallowed_paths)
      then mret (set_to_visit rest c)
      else
        let c := mark_visited current_url rest c in
        log INFO ("Crawling page " ++ pretty (page_count c) ++ "/"
                  ++ pretty (max_pages cfg) ++ ": " ++ current_url);;
        if Py.endswith (Py.lower current_url) ".pdf" then
          pdf_path ← download_pdf current_url company_name job_id;
          if Py.truthy_opt pdf_path
          then mret (add_pdf_file (default "" pdf_path) c)
          else mret c
        else crawl_page current_url c
  end.

Fixpoint crawl_loop (fuel : nat) (c : Crawl) : M Crawl :=
  if loop_cond c then
    match fuel with
    | O => out_of_fuel
    | S fuel' => c' ← loop_body c; crawl_loop fuel' c'
    end
  else mret c.

Definition results_of (c : Crawl) : CrawlResult :=
  {| r_company_name := company_name; r_job_id := job_id; r_website := website;
     r_pages_crawled := Z.of_nat (size (visited_urls c));
     r_pdf_files := pdf_files c; r_html_files := html_files c;
     r_markdown_files := markdown_files c |}.

(** The [try] block of crawl_website with its [except] clause. *)
Definition crawl_session (fuel : nat) : M CrawlReturn :=
  try_except
    (c ← crawl_loop fuel (init_crawl website);
     log INFO ("Crawl completed for " ++ website ++ ". Visited "
               ++ pretty (size (visited_urls c)) ++ " pages.");;
     mret (Crawled (results_of c)))
    (λ e, log ERROR ("Error during crawl of " ++ website ++ ": " ++ e);;
          mret (CrawlFailed e)).

End Session.

Definition crawl_website (fuel : nat) (website company_name job_id : string)
  : M CrawlReturn :=
  log INFO ("Starting crawl for " ++ website);;
  disallowed_paths ←
    (if respect_robots_txt cfg then get_robots_txt_rules website else mret []);
  browser_context ← setup_browser;
  try_finally
    (crawl_session website company_name job_id disallowed_paths browser_context fuel)
    (close_browser browser_context).

End Crawler.
End CustomCrawler.

(** ** The queue transport (the [boto3] SQS client)

    A queue is the list of its messages, oldest first. [receive_message]
    hands out the first messages and leaves them in the queue (the
    visibility window is not modelled); [delete_message] removes by
    receipt handle. Every call may raise, as the world decides. *)

Module Sqs.
Section Transport.

Variable w : World.

Definition queue (QueueUrl : string) (env : Env) : list Message :=
  default [] (queues env !! QueueUrl).

Definition set_queue (QueueUrl : string) (q : list Message) (n : nat) (env : Env) : Env :=
  {| files := files env; queues := <[QueueUrl := q]> (queues env);
     sent := n; trace := trace env |}.

(** Returns the [MessageId] of the response. *)
Definition send_message (QueueUrl : string) (MessageBody : gmap string string) : M string :=
  λ env,
    match sqs_fault w (SendMessage QueueUrl MessageBody) with
    | Some e => (Raised e, env)
    | None =>
        let id := pretty (sent env) in
        (Ok id,
         set_queue QueueUrl
           (queue QueueUrl env ++ [{| ReceiptHandle := id; Body := MessageBody |}])
           (S (sent env)) env)
    end.

(** Returns [response.get('Messages', [])]. *)
Definition receive_message (QueueUrl : string) (MaxNumberOfMessages : Z)
  : M (list Message) :=
  λ env,
    match sqs_fault w (ReceiveMessage QueueUrl) with
    | Some e => (Raised e, env)
    | None => (Ok (take (Z.to_nat MaxNumberOfMessages) (queue QueueUrl env)), env)
    end.

Definition delete_message (QueueUrl : string) (receipt : string) : M unit :=
  λ env,
    match sqs_fault w (DeleteMessage QueueUrl receipt) with
    | Some e => (Raised e, env)
    | None =>
        (Ok (),
         set_queue QueueUrl
           (List.filter (λ m, negb (String.eqb (ReceiptHandle m) receipt))
                        (queue QueueUrl env))
           (sent env) env)
    end.

End Transport.
End Sqs.

(** [d[key]]: a missing key raises [KeyError]. *)
Definition getitem (d : gmap string string) (key : string) : M string :=
  match d !! key with
  | Some v => mret v
  | None => raise ("'" ++ key ++ "'")
  end.

(** [executor.submit(f, x)] and [future.result()]: the submitted call
    runs to its end, its outcome is kept in the future, and [result]
    returns the value or raises the exception again. Jobs of one batch
    share no state; the model runs them in submission order. *)
Definition submit {A : Type} (job : M A) : M (outcome A) :=
  λ env, let '(r, env') := job env in (Ok r, env').

Definition future_result {A : Type} (future : outcome A) : M A :=
  λ env, (future, env).

(** [for x in xs: body x] *)
Fixpoint for_each {A : Type} (xs : list A) (body : A → M unit) : M unit :=
  match xs with
  | [] => mret ()
  | x :: rest => body x;; for_each rest body
  end.

(** ** app/services/queue_service.py *)

Module QueueService.
Section Service.

Variable w : World.
Variable cfg : Config.

Definition send_to_firecrawl_queue (job : gmap string string) : M bool :=
  try_except
    (MessageId ← Sqs.send_message w (firecrawl_queue_url cfg) job;
     job_id ← getitem job "job_id";
     log INFO ("Job " ++ job_id ++ " sent to Firecrawl queue with message ID: "
               ++ MessageId);;
     mret true)
    (λ e, log ERROR ("Failed to send job to Firecrawl queue: " ++ e);; mret false).

(** [job['firecrawl_failure_reason'] = failure_reason;
     job['status'] = 'firecrawl_failed'] *)
Definition annotate (job : gmap string string) (failure_reason : string)
  : gmap string string :=
  <["status" := "firecrawl_failed"]>
    (<["firecrawl_failure_reason" := failure_reason]> job).

Definition send_to_custom_crawler_queue (job : gmap string string)
    (failure_reason : option string) : M bool :=
  let job :=
    if Py.truthy_opt failure_reason
    then annotate job (default "" failure_reason) else job in
  try_except
    (MessageId ← Sqs.send_message w (custom_crawler_queue_url cfg) job;
     job_id ← getitem job "job_id";
     log INFO ("Job " ++ job_id ++ " sent to Custom Crawler queue with message ID: "
               ++ MessageId);;
     mret true)
    (λ e, log ERROR ("Failed to send job to Custom Crawler queue: " ++ e);;
          mret false).

End Service.
End QueueService.

(** ** app/services/firecrawl_crawler.py *)

Module PyStr.

(** [s.replace(old, new)] for a non-empty [old]: the scan goes left to
    right and goes on after each occurrence. [fuel] bounds the scan; one
    more than the length of [s] is enough. *)
Fixpoint replace_from (fuel : nat) (old new s : string) : string :=
  match fuel with
  | O => s
  | S fuel' =>
      if String.prefix old s
      then new ++ replace_from fuel' old new
                    (substring (String.length old) (String.length s) s)
      else match s with
           | EmptyString => EmptyString
           | String c s' => String c (replace_from fuel' old new s')
           end
  end.

Definition replace (old new s : string) : string :=
  replace_from (S (String.length s)) old new s.

(** [s[:n]] *)
Definition take (n : nat) (s : string) : string := substring 0 n s.

End PyStr.

Module FirecrawlScraper.

(** An entry of [crawl_result['data']]; a key that is missing is [None]. *)
Record Entry : Type := {
  metadata : option (gmap string string);
  markdown : option string;
}.

(** What [app.crawl_url] returns, as far as the code reads it. *)
Record CrawlStatus : Type := { data : option (list Entry) }.

(** A row of the CSV file: [source_url], [markdown_text], [source_type]. *)
Definition Row : Type := (string * string * string)%type.

(** The result dictionary of process_website. *)
Record Results : Type := {
  url : string;
  pages_crawled : Z;
  csv_path : string;
  timestamp : string;
}.

(** [d[key]] on a field that may be missing. *)
Definition getfield {A : Type} (field : option A) (key : string) : M A :=
  match field with
  | Some v => mret v
  | None => raise ("'" ++ key ++ "'")
  end.

Section Scraper.

Variable w : World.
Variable output_dir : string.
Variable limit : Z.
Variable crawl_url : string → result CrawlStatus. (* [self.app.crawl_url(url, params)] *)
Variable path_div : string → string → string.     (* [str(self.output_dir / filename)] *)
Variable csv_text : list Row → string.            (* header and rows of [csv.DictWriter] *)
Variable now_isoformat : string.                  (* [datetime.now().isoformat()] *)

Definition _generate_filename (url suffix : string) : string :=
  let safe_url :=
    PyStr.take 30
      (PyStr.replace "/" "_"
         (PyStr.replace "http://" "" (PyStr.replace "https://" "" url))) in
  safe_url ++ "_" ++ suffix.

Definition crawl_website (url : string) : M CrawlStatus :=
  try_except
    (log INFO ("Starting crawl for " ++ url ++ " with limit " ++ pretty limit);;
     crawl_status ← call (crawl_url url);
     log INFO ("Successfully crawled " ++ url);;
     mret crawl_status)
    (λ e, log ERROR ("Error crawling website " ++ url ++ ": " ++ e);; raise e).

(** The dictionary built for one entry. *)
Definition row_of (entry : Entry) : M Row :=
  metadata ← getfield (metadata entry) "metadata";
  source_url ← getitem metadata "sourceURL";
  markdown_text ← getfield (markdown entry) "markdown";
  mret (source_url, markdown_text, "company_website").

(** [for entry in crawl_result['data']], with its inner [try]. *)
Fixpoint collect (entries : list Entry) (data_to_write : list Row) : M (list Row) :=
  match entries with
  | [] => mret data_to_write
  | entry :: rest =>
      data_to_write ←
        try_except
          (row ← row_of entry; mret (data_to_write ++ [row])%list)
          (λ e, log WARNING ("Skipping entry due to missing key: " ++ e);;
                mret data_to_write);
      collect rest data_to_write
  end.

Definition save_to_csv (crawl_result : CrawlStatus) (url : string) : M string :=
  try_except
    (let filename := _generate_filename url ".csv" in
     let output_file := path_div output_dir filename in
     entries ← getfield (data crawl_result) "data";
     data_to_write ← collect entries [];
     CustomCrawler.write_file w output_file (csv_text data_to_write);;
     log INFO ("Saved " ++ pretty (List.length data_to_write) ++ " entries to "
               ++ output_file);;
     mret output_file)
    (λ e, log ERROR ("Error saving CSV file: " ++ e);; raise e).

Definition process_website (url : string) : M Results :=
  try_except
    (log INFO ("Starting complete website processing for " ++ url);;
     crawl_results ← crawl_website url;
     csv_path ← save_to_csv crawl_results url;
     entries ← getfield (data crawl_results) "data";
     let results :=
       {| url := url; pages_crawled := Z.of_nat (List.length entries);
          csv_path := csv_path; timestamp := now_isoformat |} in
     log INFO ("Completed processing for " ++ url);;
     mret results)
    (λ e, log ERROR ("Error in complete processing of " ++ url ++ ": " ++ e);;
          raise e).

End Scraper.
(** A scraper object as the first-tier worker builds it,
    [FirecrawlScraper(limit, api_key, output_dir)], with the services its
    methods call. *)
Record Scraper : Type := {
  s_output_dir : string;
  s_limit : Z;
  s_crawl_url : string → result CrawlStatus;
  s_path_div : string → string → string;
  s_csv_text : list Row → string;
  s_now_isoformat : string;
}.

(** The result of process_website as the dictionary it is. *)
Definition as_dict (results : Results) : gmap string string :=
  {[ "url" := url results; "pages_crawled" := pretty (pages_crawled results);
     "csv_path" := csv_path results; "timestamp" := timestamp results ]}.

(** [scraper.process_website(website)] *)
Definition call_process_website (w : World) (scraper : Scraper) (website : string)
  : M (gmap string string) :=
  results ← process_website w (s_output_dir scraper) (s_limit scraper)
              (s_crawl_url scraper) (s_path_div scraper) (s_csv_text scraper)
              (s_now_isoformat scraper) website;
  mret (as_dict results).

End FirecrawlScraper.

(** ** app/workers/firecrawl_worker.py *)

(** The pair [success, result] of a tier-1 job. *)
Inductive ScrapeReturn : Type :=
| Scraped (results : gmap string string)   (* [True, results] *)
| ScrapeFailed (reason : string).          (* [False, reason] *)

Module FirecrawlWorker.
Section Worker.

Variable w : World.
Variable cfg : Config.
(** [self.scraper]: the class [FirecrawlScraper] of
    app/services/firecrawl_crawler.py, which the worker imports under the
    module name [CompanyCrawler_FC]. *)
Variable scraper : FirecrawlScraper.Scraper.

Definition process_job (job : gmap string string) : M ScrapeReturn :=
  job_id ← getitem job "job_id";
  company_name ← getitem job "company_name";
  website ← getitem job "website";
  log INFO ("Processing job " ++ job_id ++ " for company " ++ company_name);;
  try_except
    (emit (EvScrape website);;
     results ← FirecrawlScraper.call_process_website w scraper website;
     if negb (bool_decide (results = ∅)) then
       log INFO ("Job " ++ job_id ++ " completed successfully with Firecrawl");;
       mret (Scraped (<["company_name" := company_name]> results))
     else
       log WARNING ("Job " ++ job_id ++ " failed with Firecrawl, sending to custom crawler");;
       mret (ScrapeFailed "Failed to process with Firecrawl"))
    (λ e, log ERROR ("Error processing job " ++ job_id ++ " with Firecrawl: " ++ e);;
          mret (ScrapeFailed e)).

(** The body of [for future, receipt_handle, job in futures]. *)
Definition handle_future (item : outcome ScrapeReturn * string * gmap string string)
  : M unit :=
  let '(future, receipt_handle, job) := item in
  try_except
    (r ← future_result future;
     match r with
     | ScrapeFailed result =>
         QueueService.send_to_custom_crawler_queue w cfg job (Some result);;
         mret ()
     | Scraped _ => mret ()
     end;;
     Sqs.delete_message w (firecrawl_queue_url cfg) receipt_handle)
    (λ e, log ERROR ("Error processing job: " ++ e)).

(** The body of [for message in messages]. *)
Definition submit_message (message : Message)
  : M (outcome ScrapeReturn * string * gmap string string) :=
  future ← submit (process_job (Body message));
  mret (future, ReceiptHandle message, Body message).

Fixpoint submit_all (messages : list Message)
  : M (list (outcome ScrapeReturn * string * gmap string string)) :=
  match messages with
  | [] => mret []
  | message :: rest =>
      item ← submit_message message;
      items ← submit_all rest;
      mret (item :: items)
  end.

(** One turn of the [while True] loop of run. *)
Definition run_once : M unit :=
  try_except
    (messages ← Sqs.receive_message w (firecrawl_queue_url cfg) (threadpool_size cfg);
     if bool_decide (messages = []) then
       log INFO "No messages in queue, waiting..."
     else
       log INFO ("Received " ++ pretty (List.length messages) ++ " messages from queue");;
       futures ← submit_all messages;
       for_each futures handle_future)
    (λ e, log ERROR ("Error in worker loop: " ++ e)).

End Worker.
End FirecrawlWorker.

(** ** app/workers/custom_worker.py *)

Module CustomCrawlerWorker.
Section Worker.

Variable w : World.
Variable cfg : Config.

Definition process_job (fuel : nat) (job : gmap string string) : M CrawlReturn :=
  job_id ← getitem job "job_id";
  company_name ← getitem job "company_name";
  website ← getitem job "website";
  log INFO ("Processing job " ++ job_id ++ " for company " ++ company_name
            ++ " with custom crawler");;
  try_except
    (r ← CustomCrawler.crawl_website w cfg fuel website company_name job_id;
     match r with
     | Crawled result =>
         log INFO ("Job " ++ job_id ++ " completed successfully with custom crawler");;
         mret (Crawled result)
     | CrawlFailed result =>
         log ERROR ("Job " ++ job_id ++ " failed with custom crawler: " ++ result);;
         mret (CrawlFailed result)
     end)
    (λ e, log ERROR ("Error processing job " ++ job_id ++ " with custom crawler: " ++ e);;
          mret (CrawlFailed e)).

(** The body of [for message in messages] of run. The first log line
    prints the body; the model keeps the line and leaves the body out. *)
Definition handle_message (fuel : nat) (message : Message) : M unit :=
  log INFO "Processing message";;
  process_job fuel (Body message);;
  Sqs.delete_message w (custom_crawler_queue_url cfg) (ReceiptHandle message);;
  log INFO "Processed and deleted message from custom crawler queue".

(** One turn of the [while True] loop of run. [Raised] is left only by
    what the inner [except Exception] does not catch; nothing here is. *)
Definition run_once (fuel : nat) : M unit :=
  try_except
    (messages ← Sqs.receive_message w (custom_crawler_queue_url cfg) 1;
     if bool_decide (messages = []) then
       log INFO "No messages in custom crawler queue, waiting..."
     else
       log INFO ("Received " ++ pretty (List.length messages) ++ " messages");;
       for_each messages (handle_message fuel))
    (λ e, log ERROR ("Error in message processing loop: " ++ e)).

End Worker.
End CustomCrawlerWorker.

(** ** A concrete world for the examples

    A small site, [https://a.example/], with the library functions
    restricted to what its URLs and pages need: absolute and rooted
    hrefs, anchors written [<a href='...'>], and the character references
    [&lt;], [&gt;] and [&amp;]. *)

Module Toy.

Definition NL : string := String Re.LF EmptyString.

(** Split at the first character that satisfies [p]. *)
Fixpoint break_at (p : ascii → bool) (s : string) : string * string :=
  match s with
  | EmptyString => (EmptyString, EmptyString)
  | String c s' =>
      if p c then (EmptyString, s)
      else let '(a, b) := break_at p s' in (String c a, b)
  end.

(** Split at the first occurrence of [sep]: what precedes it and what
    follows it. *)
Fixpoint split_at (sep : string) (s : string) : option (string * string) :=
  if String.prefix sep s
  then Some (EmptyString, substring (String.length sep) (String.length s) s)
  else match s with
       | EmptyString => None
       | String c s' =>
           match split_at sep s' with
           | Some (a, b) => Some (String c a, b)
           | None => None
           end
       end.

Definition is_delim (c : ascii) : bool :=
  Ascii.eqb c "/" || Ascii.eqb c "?" || Ascii.eqb c "#".

Definition is_query (c : ascii) : bool := Ascii.eqb c "?" || Ascii.eqb c "#".

Definition urlparse (url : string) : ParseResult :=
  match split_at "://" url with
  | Some (sch, rest) =>
      let '(host, tail) := break_at is_delim rest in
      {| scheme := sch; netloc := host; path := fst (break_at is_query tail) |}
  | None => {| scheme := ""; netloc := ""; path := fst (break_at is_query url) |}
  end.

Definition urljoin (base href : string) : result string :=
  match split_at "://" href with
  | Some (_, rest) =>
      let host := fst (break_at is_delim rest) in
      if Py.contains "[" host && negb (Py.contains "]" host)
      then Raises "Invalid IPv6 URL"
      else Returns href
  | None =>
      let b := urlparse base in
      if Py.startswith href "/"
      then Returns (scheme b ++ "://" ++ netloc b ++ href)
      else Returns (scheme b ++ "://" ++ netloc b
                    ++ String.rev (snd (break_at (λ c, Ascii.eqb c "/")
                                                 (String.rev (path b))))
                    ++ href)
  end.

(** The values of [href='...'] in a page, in order. *)
Fixpoint hrefs_fuel (fuel : nat) (html : string) : list string :=
  match fuel with
  | O => []
  | S fuel' =>
      match split_at "href='" html with
      | Some (_, rest) =>
          let '(value, tail) := break_at (λ c, Ascii.eqb c "'") rest in
          value :: hrefs_fuel fuel' tail
      | None => []
      end
  end.

Definition soup_hrefs (html : string) : list string :=
  hrefs_fuel (String.length html) html.

(** Text nodes of a page: tags cut the text, references are decoded.
    [node] is the text node being read. *)
Fixpoint text_nodes (fuel : nat) (html node : string) : list string :=
  match fuel with
  | O => []
  | S fuel' =>
      match html with
      | EmptyString => if Py.truthy node then [node] else []
      | String c rest =>
          if Ascii.eqb c "<" then
            let '(_, tail) := break_at (λ c, Ascii.eqb c ">") rest in
            (if Py.truthy node then [node] else [])
              ++ text_nodes fuel' (substring 1 (String.length tail) tail) ""
          else if String.prefix "&lt;" html then
            text_nodes fuel' (substring 4 (String.length html) html) (node ++ "<")
          else if String.prefix "&gt;" html then
            text_nodes fuel' (substring 4 (String.length html) html) (node ++ ">")
          else if String.prefix "&amp;" html then
            text_nodes fuel' (substring 5 (String.length html) html) (node ++ "&")
          else text_nodes fuel' rest (node ++ String c EmptyString)
      end
  end.

(** [get_text(separator='\n')] *)
Definition soup_get_text (html : string) : string :=
  String.concat NL (text_nodes (S (String.length html)) html "").

Definition page_root : string :=
  "<a href='/x'>x</a> <a href='/y'>y</a> <a href='https://other.example/z'>z</a> "
  ++ "<a href='https://other.example/z.pdf'>zp</a> <a href='/spec.pdf'>spec</a> "
  ++ "<a href='/bad.pdf'>bad</a> <a href='/private/report'>p</a> <a href='/x'>x</a>".

Definition page_x : string :=
  "<a href='/'>home</a> <a href='/y'>y</a> <a href='/private/report'>p</a>".

Definition page_y : string := "<p>leaf</p>".

Definition browser_page (url : string) : result string :=
  if String.eqb url "https://a.example/" then Returns page_root
  else if String.eqb url "https://a.example/x" then Returns page_x
  else if String.eqb url "https://a.example/y" then Returns page_y
  else Raises "net::ERR_NAME_NOT_RESOLVED".

Definition requests_get (url : string) : result Response :=
  if String.eqb url "https://a.example/robots.txt" then
    Returns {| status_code := 200; content_type := Some "text/plain";
               content := "User-agent: *" ++ NL ++ "Disallow: /private/" ++ NL |}
  else if String.eqb url "https://a.example/spec.pdf" then
    Returns {| status_code := 200; content_type := Some "application/pdf";
               content := "%PDF-1.4 spec" |}
  else if String.eqb url "https://a.example/bad.pdf" then
    Returns {| status_code := 200; content_type := Some "text/html";
               content := "<html>not a pdf</html>" |}
  else if String.eqb url "https://other.example/z.pdf" then
    Returns {| status_code := 200; content_type := Some "application/pdf";
               content := "%PDF-1.4 z" |}
  else Returns {| status_code := 404; content_type := None; content := "" |}.

(** The scrape service fails on [https://down.example/] and returns one
    page for every other site. *)
Definition crawl_url (url : string) : result FirecrawlScraper.CrawlStatus :=
  if String.eqb url "https://down.example/" then Raises "Payment Required"
  else Returns {| FirecrawlScraper.data :=
                    Some [{| FirecrawlScraper.metadata := Some {[ "sourceURL" := url ]};
                             FirecrawlScraper.markdown := Some "# Home" |}] |}.

(** The scraper of the example: rows are written one URL a line. *)
Definition scraper : FirecrawlScraper.Scraper :=
  {| FirecrawlScraper.s_output_dir := "scraped_data";
     FirecrawlScraper.s_limit := 2;
     FirecrawlScraper.s_crawl_url := crawl_url;
     FirecrawlScraper.s_path_div := λ dir filename, dir ++ "/" ++ filename;
     FirecrawlScraper.s_csv_text :=
       λ rows, String.concat NL (map (λ row : FirecrawlScraper.Row, row.1.1) rows);
     FirecrawlScraper.s_now_isoformat := "2025-01-01T00:00:00" |}.

Definition world : World :=
  Build_World
    urlparse urljoin requests_get
    true false                       (* playwright installed, selenium not *)
    (λ _, Returns ()) browser_page
    soup_hrefs (λ html, html) soup_get_text
    (λ _, None) 1700000000
    (λ _, None).

Definition config : Config :=
  {| browser_type := "playwright"; headless := true; timeout := 30;
     max_pages := 10; respect_robots_txt := true;
     pdf_folder := "data/pdfs"; html_folder := "data/html";
     markdown_folder := "data/markdown";
     firecrawl_queue_url := "https://sqs.example/firecrawl";
     custom_crawler_queue_url := "https://sqs.example/custom";
     threadpool_size := 4 |}.

Definition env0 : Env := {| files := ∅; queues := ∅; sent := 0; trace := [] |}.

Definition root : string := "https://a.example/".

(** What get_robots_txt_rules reads in the robots file of the site. *)
Definition rules : list string := ["/private/"].

Definition browser : BrowserContext := {| bc_type := "playwright" |}.

(** The same configuration with a budget of three pages. *)
Definition config3 : Config :=
  {| browser_type := "playwright"; headless := true; timeout := 30;
     max_pages := 3; respect_robots_txt := true;
     pdf_folder := "data/pdfs"; html_folder := "data/html";
     markdown_folder := "data/markdown";
     firecrawl_queue_url := "https://sqs.example/firecrawl";
     custom_crawler_queue_url := "https://sqs.example/custom";
     threadpool_size := 4 |}.

(** The traversal loop run to its end on the site. *)
Definition loop_end : outcome Crawl * Env :=
  CustomCrawler.crawl_loop world config root "acme" "j1" rules browser 20
    (CustomCrawler.init_crawl root) env0.

Definition end_crawl : Crawl :=
  match fst loop_end with
  | Ok c => c
  | _ => CustomCrawler.init_crawl root
  end.

Definition end_env : Env := snd loop_end.

(** The loop state of the example crawl once the three pages are done:
    the two document links are left on the frontier. *)
Definition at_documents : Crawl :=
  {| visited_urls := {[ "https://a.example/"; "https://a.example/x";
                        "https://a.example/y" ]};
     to_visit := ["https://a.example/spec.pdf"; "https://a.example/bad.pdf"];
     pdf_files := [];
     html_files := ["data/html/acme_j1/index.html"; "data/html/acme_j1/x.html";
                    "data/html/acme_j1/y.html"];
     markdown_files := ["data/markdown/acme_j1/index.md";
                        "data/markdown/acme_j1/x.md"; "data/markdown/acme_j1/y.md"];
     page_count := 3;
     enqueued := ["https://a.example/"; "https://a.example/x"; "https://a.example/y";
                  "https://a.example/spec.pdf"; "https://a.example/bad.pdf"] |}.

(** A world without any browser backend installed. *)
Definition world_no_browser : World :=
  Build_World
    urlparse urljoin requests_get
    false false
    (λ _, Returns ()) browser_page
    soup_hrefs (λ html, html) soup_get_text
    (λ _, None) 1700000000
    (λ _, None).

(** The site with a root page that holds a malformed link. *)
Definition world_bad_link : World :=
  Build_World
    urlparse urljoin requests_get
    true false
    (λ _, Returns ())
    (λ url, if String.eqb url "https://a.example/"
            then Returns "<a href='/x'>x</a> <a href='http://[bad'>broken</a>"
            else browser_page url)
    soup_hrefs (λ html, html) soup_get_text
    (λ _, None) 1700000000
    (λ _, None).

(** A world whose fallback queue refuses every send. *)
Definition world_send_fails : World :=
  Build_World
    urlparse urljoin requests_get
    true false
    (λ _, Returns ()) browser_page
    soup_hrefs (λ html, html) soup_get_text
    (λ _, None) 1700000000
    (λ call, match call with
             | SendMessage url _ =>
                 if String.eqb url "https://sqs.example/custom"
                 then Some "ServiceUnavailable" else None
             | _ => None
             end).

Definition job (job_id website : string) : gmap string string :=
  {[ "job_id" := job_id; "company_name" := "acme"; "website" := website;
     "status" := "pending"; "created_at" := "2025-01-01 00:00:00" ]}.

(** An environment with one message waiting on a queue. *)
Definition env_with (QueueUrl : string) (message : Message) : Env :=
  {| files := ∅; queues := {[ QueueUrl := [message] ]}; sent := 0; trace := [] |}.

End Toy.

(** ** Vocabulary of the specification *)

Definition empty_env : Env := {| files := ∅; queues := ∅; sent := 0; trace := [] |}.

(** The URL an event fetches: a page through the browser or a document
    through [requests]. The robots file is not a crawl fetch. *)
Definition fetch_url (ev : Event) : option string :=
  match ev with
  | EvDownload u | EvNavigate u => Some u
  | _ => None
  end.

(** The URLs fetched by a run of events, in order. *)
Definition fetched (tr : list Event) : list string := omap fetch_url tr.

(** Events that the traversal loop can leave: log lines and fetches. *)
Definition loop_event (ev : Event) : bool :=
  match ev with
  | EvLog _ _ | EvNavigate _ | EvDownload _ => true
  | _ => false
  end.

(** The two events of the browser's life. *)
Definition browser_event (ev : Event) : bool :=
  match ev with
  | EvBrowserStart _ | EvBrowserClose _ => true
  | _ => false
  end.

(** [env'] is [env] after the loop events [evs]: the log grew by them,
    the queues were left alone (files may have been written). *)
Definition after (env : Env) (evs : list Event) (env' : Env) : Prop :=
  trace env' = (trace env ++ evs)%list ∧ queues env' = queues env
  ∧ sent env' = sent env ∧ forallb loop_event evs = true.

(** Shapes of computations: [benign] returns normally, [harmless] may
    raise; both leave only log lines and file writes. [pure] neither
    reads nor changes the environment. *)
Definition benign {A : Type} (m : M A) : Prop :=
  ∀ env, ∃ a evs env',
    m env = (Ok a, env') ∧ after env evs env' ∧ fetched evs = [].

Definition harmless {A : Type} (m : M A) : Prop :=
  ∀ env, ∃ r evs env',
    m env = (r, env') ∧ r ≠ OutOfFuel ∧ after env evs env' ∧ fetched evs = [].

Definition pure {A : Type} (m : M A) : Prop :=
  ∀ env, m env = (fst (m empty_env), env).

Module Spec.
Section Session.

Variable w : World.
Variable cfg : Config.
Variables website company_name job_id : string.
Variable disallowed_paths : list string.
Variable browser_context : BrowserContext.

Definition loop_cond := CustomCrawler.loop_cond cfg.
Definition loop_body :=
  CustomCrawler.loop_body w cfg website company_name job_id disallowed_paths
    browser_context.
Definition crawl_loop :=
  CustomCrawler.crawl_loop w cfg website company_name job_id disallowed_paths
    browser_context.
Definition crawl_session :=
  CustomCrawler.crawl_session w cfg website company_name job_id disallowed_paths
    browser_context.
Definition consider_link := CustomCrawler.consider_link w cfg website disallowed_paths.

(** Robots-allowed, and on the root's host. *)
Definition allowed (u : string) : bool :=
  CustomCrawler.is_allowed_url w cfg u disallowed_paths.

Definition in_scope (u : string) : bool :=
  CustomCrawler.is_same_domain w u (CustomCrawler.base_domain w website).

Definition is_document (u : string) : bool := Py.endswith (Py.lower u) ".pdf".

(** The test of the first [if] of the loop body. *)
Definition skipped (c : Crawl) (u : string) : bool :=
  bool_decide (u ∈ visited_urls c) || negb (allowed u).

(** What get_page_content returns for a URL and what extract_links finds
    in a page: both are the same in every environment. *)
Definition page_of (url : string) : option string :=
  match fst (CustomCrawler.get_page_content w url browser_context empty_env) with
  | Ok content => content
  | _ => None
  end.

Definition links_found (content base_url : string) : outcome (list string) :=
  fst (CustomCrawler.extract_links w content base_url empty_env).

(** What visiting [u] yields for the frontier: the links of its page; no
    link for a document or a page that did not load; an exception when
    link extraction raises. *)
Definition expansion (u : string) : outcome (list string) :=
  if is_document u then Ok []
  else
    let content := page_of u in
    if negb (Py.truthy_opt content) then Ok []
    else links_found (default "" content) u.

(** The link graph the traversal can see, from the root. *)
Inductive reachable : string → Prop :=
| reachable_root : allowed website = true → reachable website
| reachable_link u links v :
    reachable u → expansion u = Ok links → v ∈ links →
    in_scope v = true → allowed v = true → reachable v.

(** The loop states a session goes through. *)
Inductive reaches : Crawl → Env → Crawl → Env → Prop :=
| reaches_refl c env : reaches c env c env
| reaches_step c env c1 env1 c2 env2 :
    loop_cond c = true → loop_body c env = (Ok c1, env1) →
    reaches c1 env1 c2 env2 → reaches c env c2 env2.

(** Two states with the same traversal variables. *)
Definition same_core (c1 c2 : Crawl) : Prop :=
  visited_urls c1 = visited_urls c2 ∧ to_visit c1 = to_visit c2
  ∧ page_count c1 = page_count c2 ∧ enqueued c1 = enqueued c2.

(** The loop invariant, for a session whose loop started in [env0]. *)
Record Inv (env0 : Env) (c : Crawl) (env : Env) : Prop := {
  inv_count : page_count c = Z.of_nat (size (visited_urls c));
  inv_bound : page_count c ≤ Z.max 0 (max_pages cfg);
  inv_nodup_tv : NoDup (to_visit c);
  inv_tv_fresh : ∀ u, u ∈ to_visit c → u ∉ visited_urls c;
  inv_nodup_enq : NoDup (enqueued c);
  inv_enq : ∀ u, u ∈ enqueued c →
      u ∈ to_visit c ∨ u ∈ visited_urls c ∨ allowed u = false;
  inv_tv_enq : ∀ u, u ∈ to_visit c → u ∈ enqueued c;
  inv_vis_enq : ∀ u, u ∈ visited_urls c → u ∈ enqueued c;
  inv_domain : ∀ u, u ∈ enqueued c → in_scope u = true;
  inv_enq_allowed : ∀ u, u ∈ enqueued c → u = website ∨ allowed u = true;
  inv_vis_allowed : ∀ u, u ∈ visited_urls c → allowed u = true;
  inv_root : website ∈ enqueued c;
  inv_closed : ∀ u links v,
      u ∈ visited_urls c → expansion u = Ok links → v ∈ links →
      in_scope v = true → allowed v = true →
      v ∈ visited_urls c ∨ v ∈ to_visit c;
  inv_trace : ∃ evs, after env0 evs env ∧ NoDup (fetched evs)
      ∧ ∀ u, u ∈ fetched evs → u ∈ visited_urls c;
}.

(** What holds of the log at every point of a session, aborted or not. *)
Definition TraceOk (env0 env : Env) : Prop :=
  ∃ evs, after env0 evs env ∧ NoDup (fetched evs)
    ∧ ∀ u, u ∈ fetched evs → in_scope u = true ∧ allowed u = true.

End Session.
End Spec.

(** ** app/services/custom_crawler.py, the worker of the class *)

Module CustomCrawlerJobs.
Section Jobs.

Variable w : World.
Variable cfg : Config.

(** process_job of [CustomCrawler]: the crawl is not inside a [try]. *)
Definition process_job (fuel : nat) (job : gmap string string) : M bool :=
  job_id ← getitem job "job_id";
  company_name ← getitem job "company_name";
  website ← getitem job "website";
  log INFO ("Processing job " ++ job_id ++ " for company " ++ company_name
            ++ " with custom crawler");;
  r ← CustomCrawler.crawl_website w cfg fuel website company_name job_id;
  match r with
  | Crawled result =>
      log INFO ("Job " ++ job_id ++ " completed successfully with custom crawler");;
      mret true
  | CrawlFailed result =>
      log ERROR ("Job " ++ job_id ++ " failed with custom crawler: " ++ result);;
      mret false
  end.

(** The body of [for message in messages] of start_worker. *)
Definition handle_message (fuel : nat) (message : Message) : M unit :=
  process_job fuel (Body message);;
  Sqs.delete_message w (custom_crawler_queue_url cfg) (ReceiptHandle message);;
  log INFO "Processed and deleted message from custom crawler queue".

(** One turn of the [while True] loop of start_worker. *)
Definition start_worker_once (fuel : nat) : M unit :=
  try_except
    (messages ← Sqs.receive_message w (custom_crawler_queue_url cfg) 1;
     if bool_decide (messages = []) then
       log INFO "No messages in custom crawler queue, waiting..."
     else
       for_each messages (handle_message fuel))
    (λ e, log ERROR ("Error in custom crawler worker loop: " ++ e)).

End Jobs.
End CustomCrawlerJobs.

(** ** app/models.py and app/main.py *)

Module Api.

Record CompanyRequest : Type := { company_name : string; website : string }.

Record JobResponse : Type := {
  job_id : string;
  status : string;
  message : option string;
}.

(** What the endpoint answers: the response model, or the
    [HTTPException] it raises last. *)
Inductive Reply : Type :=
| Returned (response : JobResponse)
| HTTPException (status_code : Z) (detail : string).

Section Endpoint.

Variable w : World.
Variable cfg : Config.
Variable uuid4 : string.                          (* [str(uuid.uuid4())] *)
Variable utcnow : string.                         (* [str(datetime.utcnow())] *)
Variable str_HTTPException : Z → string → string. (* [str(e)] of an [HTTPException] *)

(** The job dictionary of scrape_company. *)
Definition new_job (request : CompanyRequest) : gmap string string :=
  {[ "job_id" := uuid4; "company_name" := company_name request;
     "website" := website request; "status" := "pending";
     "created_at" := utcnow ]}.

(** Inside the [try], an [HTTPException] is raised like any exception:
    the handler reads only its [str]. *)
Definition scrape_company (request : CompanyRequest) : M Reply :=
  try_except
    ((if negb (Py.truthy (company_name request)) || negb (Py.truthy (website request))
      then raise (str_HTTPException 400 "Company name and website are required")
      else mret ());;
     let job_id := uuid4 in
     let job := new_job request in
     success ← QueueService.send_to_firecrawl_queue w cfg job;
     (if negb success
      then raise (str_HTTPException 500 "Failed to submit job to queue")
      else mret ());;
     log INFO ("Job " ++ job_id ++ " submitted for company " ++ company_name request);;
     mret (Returned {| job_id := job_id; status := "pending";
                       message := Some "Job submitted for processing" |}))
    (λ e, log ERROR ("Error submitting job: " ++ e);;
          mret (HTTPException 500 e)).

(** get_job_status: a placeholder that answers [pending] for every id. *)
Definition get_job_status (job_id : string) : gmap string string :=
  {[ "job_id" := job_id; "status" := "pending" ]}.

End Endpoint.
End Api.

(** ** Vocabulary for file names *)

(** The characters that [re.sub(r'[^\w\-_.]', '_', s)] leaves in place. *)
Definition safe_char (c : ascii) : bool :=
  Py.is_word c || Ascii.eqb c "-" || Ascii.eqb c ".".

Fixpoint all_chars (p : ascii → bool) (s : string) : bool :=
  match s with
  | EmptyString => true
  | String c s' => p c && all_chars p s'
  end.

(** ** Further examples *)

Module Cases.

(** The configuration of the example with the robots switch off. *)
Definition config_no_robots : Config :=
  {| browser_type := "playwright"; headless := true; timeout := 30;
     max_pages := 10; respect_robots_txt := false;
     pdf_folder := "data/pdfs"; html_folder := "data/html";
     markdown_folder := "data/markdown";
     firecrawl_queue_url := "https://sqs.example/firecrawl";
     custom_crawler_queue_url := "https://sqs.example/custom";
     threadpool_size := 4 |}.

(** The loop state of the example with one URL left that does not load. *)
Definition at_gone : Crawl :=
  CustomCrawler.set_to_visit ["https://a.example/gone"] Toy.at_documents.

End Cases.

(** ** Vocabulary for the queues *)

(** From [env] to [env'] the queue [src] gained no message and the
    queue [dst] lost none. *)
Definition handed_on (src dst : string) (env env' : Env) : Prop :=
  (∀ m, m ∈ Sqs.queue src env' → m ∈ Sqs.queue src env)
  ∧ (∀ m, m ∈ Sqs.queue dst env → m ∈ Sqs.queue dst env').

(** ** Vocabulary for the scraper *)

(** The CSV row of an entry that has every key the scraper reads. *)
Definition complete_row (entry : FirecrawlScraper.Entry) : option FirecrawlScraper.Row :=
  match FirecrawlScraper.metadata entry, FirecrawlScraper.markdown entry with
  | Some metadata, Some markdown_text =>
      match metadata !! "sourceURL" with
      | Some source_url => Some (source_url, markdown_text, "company_website")
      | None => None
      end
  | _, _ => None
  end.

(** * Properties *)

#[local] Set Warnings "-clear-no-such-hyp".

(** ** Running the monad *)

Lemma bind_run {A B : Type} (m : M A) (f : A → M B) env :
  (m ≫= f) env =
  match m env with
  | (Ok a, env') => f a env'
  | (Raised e, env') => (Raised e, env')
  | (OutOfFuel, env') => (OutOfFuel, env')
  end.
Proof. reflexivity. Qed.

Lemma fetched_app t1 t2 : fetched (t1 ++ t2) = (fetched t1 ++ fetched t2)%list.
Proof. apply omap_app. Qed.

Lemma after_refl env : after env [] env.
Proof. unfold after. rewrite app_nil_r. done. Qed.

Lemma after_trans env evs1 env1 evs2 env2 :
  after env evs1 env1 → after env1 evs2 env2 → after env (evs1 ++ evs2) env2.
Proof.
  intros (H1 & H2 & H3 & H4) (H5 & H6 & H7 & H8). unfold after.
  rewrite H5, H1, H6, H7, app_assoc, forallb_app, H4, H8. done.
Qed.

Ltac after_tac :=
  unfold after; simpl; rewrite <- ?app_assoc, ?app_nil_r; simpl; auto.

Lemma benign_ret {A : Type} (a : A) : benign (mret a).
Proof.
  intros env. exists a, [], env. split; [done|]. split; [apply after_refl|done].
Qed.

Lemma benign_log lvl msg : benign (log lvl msg).
Proof.
  intros env. eexists (), [_], _. split; [reflexivity|]. split; [after_tac|done].
Qed.

Lemma benign_bind {A B : Type} (m : M A) (f : A → M B) :
  benign m → (∀ a, benign (f a)) → benign (m ≫= f).
Proof.
  intros Hm Hf env. destruct (Hm env) as (a & evs & env1 & E1 & A1 & F1).
  destruct (Hf a env1) as (b & evs2 & env2 & E2 & A2 & F2).
  exists b, (evs ++ evs2)%list, env2. rewrite bind_run, E1. split; [done|].
  split; [eapply after_trans; eauto|]. rewrite fetched_app, F1, F2. done.
Qed.

Lemma benign_harmless {A : Type} (m : M A) : benign m → harmless m.
Proof.
  intros H env. destruct (H env) as (a & evs & env' & ? & ? & ?).
  exists (Ok a), evs, env'. done.
Qed.

Lemma harmless_raise {A : Type} e : harmless (raise e : M A).
Proof.
  intros env. exists (Raised e), [], env.
  split; [done|]. split; [done|]. split; [apply after_refl|done].
Qed.

Lemma harmless_bind {A B : Type} (m : M A) (f : A → M B) :
  harmless m → (∀ a, harmless (f a)) → harmless (m ≫= f).
Proof.
  intros Hm Hf env. destruct (Hm env) as (r & evs & env1 & E1 & N1 & A1 & F1).
  rewrite bind_run, E1. destruct r as [a|e|]; [|by exists (Raised e), evs, env1|done].
  destruct (Hf a env1) as (b & evs2 & env2 & E2 & N2 & A2 & F2).
  exists b, (evs ++ evs2)%list, env2. split; [done|]. split; [done|].
  split; [eapply after_trans; eauto|]. rewrite fetched_app, F1, F2. done.
Qed.

Lemma harmless_call {A : Type} (r : result A) : harmless (call r).
Proof. destruct r; [apply benign_harmless, benign_ret|apply harmless_raise]. Qed.

(** A [try] whose handler is benign is benign. *)
Lemma benign_try_except {A : Type} (m : M A) h :
  harmless m → (∀ e, benign (h e)) → benign (try_except m h).
Proof.
  intros Hm Hh env. destruct (Hm env) as (r & evs & env1 & E1 & N1 & A1 & F1).
  unfold try_except. rewrite E1. destruct r as [a|e|]; [by exists a, evs, env1| |done].
  destruct (Hh e env1) as (b & evs2 & env2 & E2 & A2 & F2).
  exists b, (evs ++ evs2)%list, env2. split; [done|].
  split; [eapply after_trans; eauto|]. rewrite fetched_app, F1, F2. done.
Qed.

Lemma pure_ret {A : Type} (a : A) : pure (mret a).
Proof. done. Qed.

Lemma pure_call {A : Type} (r : result A) : pure (call r).
Proof. by destruct r. Qed.

Lemma pure_bind {A B : Type} (m : M A) (f : A → M B) :
  pure m → (∀ a, pure (f a)) → pure (m ≫= f).
Proof.
  intros Hm Hf env. rewrite !bind_run, (Hm env).
  destruct (m empty_env) as [[a|e|] env1] eqn:E; simpl; [|done|done].
  rewrite (Hm empty_env) in E. simpl in E. injection E as E1 <-. apply Hf.
Qed.

(** ** The operations of the crawler *)

Section CrawlerOps.

Variable w : World.
Variable cfg : Config.

Lemma harmless_write_file p c : harmless (CustomCrawler.write_file w p c).
Proof.
  unfold CustomCrawler.write_file. destruct (write_fault w p) as [fault|].
  - intros env. rewrite bind_run.
    destruct (wf_left fault); simpl; eexists (Raised _), [], _;
      (split; [reflexivity|]); (split; [done|]); (split; [after_tac|done]).
  - intros env. eexists (Ok ()), [], _. split; [reflexivity|].
    split; [done|]. split; [after_tac|done].
Qed.

Lemma harmless_read_file p : harmless (CustomCrawler.read_file p).
Proof.
  intros env. unfold CustomCrawler.read_file. destruct (files env !! p);
    eexists _, [], _; (split; [reflexivity|]); (split; [done|]);
    (split; [apply after_refl|done]).
Qed.

Lemma benign_save_html content url cn j :
  benign (CustomCrawler.save_html w cfg content url cn j).
Proof.
  apply benign_try_except.
  - apply harmless_bind; [apply harmless_write_file|]. intros _.
    apply benign_harmless, benign_bind; [apply benign_log|]. intros _. apply benign_ret.
  - intros e. apply benign_bind; [apply benign_log|]. intros _. apply benign_ret.
Qed.

Lemma benign_convert_html_to_markdown p :
  benign (CustomCrawler.convert_html_to_markdown w cfg p).
Proof.
  apply benign_try_except.
  - apply harmless_bind; [apply harmless_read_file|]. intros c.
    apply harmless_bind; [apply harmless_write_file|]. intros _.
    apply benign_harmless, benign_bind; [apply benign_log|]. intros _. apply benign_ret.
  - intros e. apply benign_bind; [apply benign_log|]. intros _. apply benign_ret.
Qed.

Lemma pure_join_all base hrefs : pure (CustomCrawler.join_all w base hrefs).
Proof.
  induction hrefs as [|h r IH]; simpl; [apply pure_ret|].
  apply pure_bind; [apply pure_call|]. intros u.
  apply pure_bind; [apply IH|]. intros us. apply pure_ret.
Qed.

Lemma pure_extract_links content base :
  pure (CustomCrawler.extract_links w content base).
Proof.
  unfold CustomCrawler.extract_links.
  apply pure_bind; [apply pure_join_all|]. intros ?.
  apply pure_bind; [apply pure_join_all|]. intros ?. apply pure_ret.
Qed.

Lemma harmless_join_all base hrefs : harmless (CustomCrawler.join_all w base hrefs).
Proof.
  induction hrefs as [|h l IH]; simpl; [apply benign_harmless, benign_ret|].
  apply harmless_bind; [apply harmless_call|]. intros ?.
  apply harmless_bind; [apply IH|]. intros ?. apply benign_harmless, benign_ret.
Qed.

Lemma harmless_extract_links content base :
  harmless (CustomCrawler.extract_links w content base).
Proof.
  unfold CustomCrawler.extract_links.
  apply harmless_bind; [apply harmless_join_all|]. intros ?.
  apply harmless_bind; [apply harmless_join_all|]. intros ?.
  apply benign_harmless, benign_ret.
Qed.

(** get_page_content never raises: it returns the page or [None], after
    at most one navigation, to [url]. *)
Lemma get_page_content_run url bc env :
  ∃ evs env',
    CustomCrawler.get_page_content w url bc env = (Ok (Spec.page_of w bc url), env')
    ∧ after env evs env' ∧ files env' = files env
    ∧ (fetched evs = [] ∨ fetched evs = [url]).
Proof.
  unfold Spec.page_of, CustomCrawler.get_page_content, try_except.
  destruct (_ || _).
  - rewrite !bind_run. simpl. unfold call.
    destruct (browser_page w url) as [c|e]; simpl.
    + eexists [_], _. split; [reflexivity|]. split; [after_tac|]. split; [done|]. by right.
    + eexists [_; _], _. split; [reflexivity|]. split; [after_tac|]. split; [done|]. by right.
  - eexists [], _. split; [reflexivity|]. split; [apply after_refl|]. auto.
Qed.

(** download_pdf never raises, and makes exactly one fetch, of [url]. *)
Lemma download_pdf_run url cn j env :
  ∃ r evs env',
    CustomCrawler.download_pdf w cfg url cn j env = (Ok r, env')
    ∧ after env evs env' ∧ fetched evs = [url].
Proof.
  unfold CustomCrawler.download_pdf, try_except.
  rewrite bind_run. simpl. rewrite bind_run.
  set (env1 := {| files := files env; queues := queues env; sent := sent env;
                  trace := (trace env ++ [EvDownload url])%list |}).
  assert (A1 : after env [EvDownload url] env1) by after_tac.
  destruct (requests_get w url) as [resp|e]; simpl.
  - destruct (CustomCrawler.is_pdf_response resp).
    + rewrite bind_run.
      destruct (harmless_write_file (CustomCrawler.pdf_filepath w cfg url cn j)
                  (content resp) env1) as (r & evs & env2 & E & N & A2 & F).
      rewrite E. destruct r as [[]|e|]; [| |done].
      * eexists _, _, _. split; [reflexivity|]. split.
        { eapply after_trans; [exact A1|]. eapply after_trans; [exact A2|].
          instantiate (1:=[_]). after_tac. }
        rewrite !fetched_app, F. done.
      * eexists _, _, _. split; [reflexivity|]. split.
        { eapply after_trans; [exact A1|]. eapply after_trans; [exact A2|].
          instantiate (1:=[_]). after_tac. }
        rewrite !fetched_app, F. done.
    + eexists _, [_; _], _. split; [reflexivity|]. split; [after_tac|done].
  - eexists _, [_; _], _. split; [reflexivity|]. split; [after_tac|done].
Qed.

(** Whatever the server and the store do, download_pdf leaves two
    events: the request for [url] and one log line. *)
Lemma download_pdf_events url cn j env :
  ∃ r lvl msg env',
    CustomCrawler.download_pdf w cfg url cn j env = (Ok r, env')
    ∧ trace env' = (trace env ++ [EvDownload url; EvLog lvl msg])%list.
Proof.
  unfold CustomCrawler.download_pdf, try_except.
  rewrite bind_run. simpl. rewrite bind_run. unfold call.
  destruct (requests_get w url) as [resp|e]; simpl.
  - destruct (CustomCrawler.is_pdf_response resp).
    + rewrite bind_run. unfold CustomCrawler.write_file.
      destruct (write_fault w _) as [fault|].
      * rewrite bind_run. destruct (wf_left fault); simpl;
          eexists _, _, _, _; (split; [reflexivity|]); simpl; by rewrite <- app_assoc.
      * simpl. eexists _, _, _, _. split; [reflexivity|]. simpl. by rewrite <- app_assoc.
    + simpl. eexists _, _, _, _. split; [reflexivity|]. simpl. by rewrite <- app_assoc.
  - eexists _, _, _, _. split; [reflexivity|]. simpl. by rewrite <- app_assoc.
Qed.

End CrawlerOps.

(** ** One turn of the traversal loop *)

Section LoopFacts.

Variable w : World.
Variable cfg : Config.
Variables website company_name job_id : string.
Variable disallowed_paths : list string.
Variable bc : BrowserContext.

Local Abbreviation loop_body :=
  (Spec.loop_body w cfg website company_name job_id disallowed_paths bc).
Local Abbreviation crawl_loop :=
  (Spec.crawl_loop w cfg website company_name job_id disallowed_paths bc).
Local Abbreviation consider_link := (Spec.consider_link w cfg website disallowed_paths).
Local Abbreviation allowed := (Spec.allowed w cfg disallowed_paths).
Local Abbreviation in_scope := (Spec.in_scope w website).
Local Abbreviation skipped := (Spec.skipped w cfg disallowed_paths).
Local Abbreviation expansion := (Spec.expansion w bc).
Local Abbreviation reaches :=
  (Spec.reaches w cfg website company_name job_id disallowed_paths bc).
Local Abbreviation Inv := (Spec.Inv w cfg website disallowed_paths bc).
Local Abbreviation TraceOk := (Spec.TraceOk w cfg website disallowed_paths).

Lemma consider_link_core c1 c2 link :
  Spec.same_core c1 c2 →
  Spec.same_core (consider_link c1 link) (consider_link c2 link).
Proof.
  intros (H1 & H2 & H3 & H4).
  unfold Spec.consider_link, CustomCrawler.consider_link, CustomCrawler.wanted.
  rewrite H1, H2. destruct (_ && _); unfold Spec.same_core; simpl; [|done].
  rewrite H1, H2, H3, H4. done.
Qed.

Lemma fold_consider_core links : ∀ c1 c2,
  Spec.same_core c1 c2 →
  Spec.same_core (fold_left consider_link links c1) (fold_left consider_link links c2).
Proof.
  induction links as [|l links IH]; intros c1 c2 H; simpl; [done|].
  apply IH, consider_link_core, H.
Qed.

Lemma fold_consider_pdf_files links : ∀ c,
  pdf_files (fold_left consider_link links c) = pdf_files c.
Proof.
  induction links as [|l links IH]; intros c; simpl; [done|].
  rewrite IH. unfold Spec.consider_link, CustomCrawler.consider_link.
  by destruct (CustomCrawler.wanted _ _ _ _ _ _).
Qed.

(** The [for link in links] loop: what it appends, and that every link
    in scope and allowed ends up visited or queued. *)
Lemma fold_consider_spec links : ∀ c, ∃ new,
  let c' := fold_left consider_link links c in
  visited_urls c' = visited_urls c ∧ page_count c' = page_count c
  ∧ to_visit c' = (to_visit c ++ new)%list
  ∧ enqueued c' = (enqueued c ++ new)%list
  ∧ NoDup new
  ∧ (∀ v, v ∈ new → v ∈ links ∧ (v ∉ visited_urls c) ∧ (v ∉ to_visit c)
                     ∧ (in_scope v = true) ∧ (allowed v = true))
  ∧ (∀ v, v ∈ links → in_scope v = true → allowed v = true →
          v ∈ visited_urls c ∨ v ∈ to_visit c ∨ v ∈ new).
Proof.
  induction links as [|l links IH]; intros c; simpl.
  { exists []. rewrite !app_nil_r. split_and!; try done.
    - constructor.
    - intros v Hv. inversion Hv.
    - intros v Hv. inversion Hv. }
  destruct (IH (consider_link c l)) as (new1 & Hv & Hp & Ht & He & Hn & Hin & Hcov).
  unfold Spec.consider_link, CustomCrawler.consider_link in *.
  destruct (CustomCrawler.wanted w cfg website disallowed_paths c l) eqn:W.
  - simpl in *. exists (l :: new1).
    unfold CustomCrawler.wanted in W.
    apply andb_prop in W as [W Wa]. apply andb_prop in W as [W Wd].
    apply andb_prop in W as [Wv Wt].
    apply negb_true_iff, bool_decide_eq_false in Wv, Wt.
    rewrite Hv, Hp, Ht, He, <- !app_assoc. simpl.
    split_and!; try done.
    + constructor; [|done]. intros Hl. apply Hin in Hl as (_ & _ & Hl & _).
      apply Hl. apply elem_of_app. right. by apply list_elem_of_singleton.
    + intros v Hvn. apply elem_of_cons in Hvn as [->|Hvn].
      { split_and!; try done. left. }
      destruct (Hin v Hvn) as (H1 & H2 & H3 & H4 & H5). split_and!; try done.
      * by right.
      * intros H'. apply H3, elem_of_app. by left.
    + intros v Hvl Hd Ha. apply elem_of_cons in Hvl as [->|Hvl].
      { right. right. left. }
      destruct (Hcov v Hvl Hd Ha) as [?|[H|?]]; [by left| |right; right; by right].
      apply elem_of_app in H as [?|H]; [right; by left|].
      apply list_elem_of_singleton in H as ->. right. right. left.
  - exists new1. rewrite Hv, Hp, Ht, He. split_and!; try done.
    + intros v Hvn. destruct (Hin v Hvn) as (H1 & H2 & H3 & H4 & H5).
      split_and!; try done. by right.
    + intros v Hvl Hd Ha. apply elem_of_cons in Hvl as [->|Hvl]; [|by apply Hcov].
      unfold CustomCrawler.wanted in W.
      unfold Spec.in_scope in Hd. unfold Spec.allowed in Ha.
      rewrite Hd, Ha, !andb_true_r in W.
      apply andb_false_iff in W as [W|W];
        apply negb_false_iff, bool_decide_eq_true in W; auto.
Qed.

(** What one turn of the loop does, whatever the world answers. *)
Lemma loop_body_summary c env r env' :
  loop_body c env = (r, env') →
  match to_visit c with
  | [] => r = Raised "pop from empty list" ∧ env' = env
  | u :: rest =>
      if skipped c u then r = Ok (CustomCrawler.set_to_visit rest c) ∧ env' = env
      else ∃ evs, after env evs env' ∧ (fetched evs = [] ∨ fetched evs = [u]) ∧
           match expansion u with
           | Ok links =>
               ∃ c', r = Ok c'
                 ∧ Spec.same_core c'
                     (fold_left consider_link links (CustomCrawler.mark_visited u rest c))
                 ∧ pdf_files c `prefix_of` pdf_files c'
           | Raised e => r = Raised e
           | OutOfFuel => False
           end
  end.
Proof.
  unfold Spec.loop_body, CustomCrawler.loop_body.
  destruct (to_visit c) as [|u rest] eqn:Etv.
  { intros [= <- <-]. done. }
  unfold Spec.skipped, Spec.allowed. destruct (_ || _) eqn:Eskip.
  { intros [= <- <-]. done. }
  rewrite bind_run. simpl.
  set (c0 := CustomCrawler.mark_visited u rest c).
  set (env0 := {| files := files env; queues := _; sent := _; trace := _ |}).
  assert (A0 : ∃ msg, after env [EvLog INFO msg] env0)
    by (eexists; subst env0; after_tac).
  destruct A0 as [msg0 A0]. set (ev0 := EvLog INFO msg0) in *.
  unfold Spec.expansion, Spec.is_document. destruct (Py.endswith _ _).
  - (* a document *)
    rewrite bind_run.
    destruct (download_pdf_run w cfg u company_name job_id env0)
      as (p & evs & env1 & E & A1 & F).
    rewrite E. intros H.
    assert (env' = env1 ∧ ∃ c', r = Ok c' ∧ Spec.same_core c' c0
                                 ∧ pdf_files c `prefix_of` pdf_files c') as [-> Hc].
    { destruct (Py.truthy_opt p); injection H as <- <-; (split; [done|]);
        eexists; (split; [reflexivity|]); (split; [done|]); simpl.
      - by apply prefix_app_r.
      - done. }
    exists (ev0 :: evs).
    split; [apply (after_trans _ [ev0] _ evs _ A0 A1)|].
    split; [right; simpl; by rewrite <- F|]. exact Hc.
  - (* a page *)
    unfold CustomCrawler.crawl_page. rewrite bind_run.
    destruct (get_page_content_run w u bc env0) as (evs1 & env1 & E1 & A1 & _ & F1).
    rewrite E1. destruct (negb (Py.truthy_opt (Spec.page_of w bc u))).
    { intros [= <- <-]. exists (ev0 :: evs1).
      split; [apply (after_trans _ [ev0] _ _ _ A0 A1)|]. split; [exact F1|].
      eexists; split; [reflexivity|]; done. }
    rewrite bind_run.
    destruct (benign_save_html w cfg (default "" (Spec.page_of w bc u)) u
                company_name job_id env1) as (hp & evs2 & env2 & E2 & A2 & F2).
    rewrite E2. rewrite bind_run.
    assert (∃ c1 evs3 env3,
      (if Py.truthy_opt hp
       then CustomCrawler.convert_html_to_markdown w cfg (default "" hp)
            ≫= (λ md_path, if Py.truthy_opt md_path
                 then mret (CustomCrawler.add_markdown_file (default "" md_path)
                              (CustomCrawler.add_html_file (default "" hp) c0))
                 else mret (CustomCrawler.add_html_file (default "" hp) c0))
       else mret c0) env2 = (Ok c1, env3) ∧ after env2 evs3 env3 ∧ fetched evs3 = []
      ∧ Spec.same_core c1 c0 ∧ pdf_files c1 = pdf_files c)
      as (c1 & evs3 & env3 & E3 & A3 & F3 & C3 & P3).
    { destruct (Py.truthy_opt hp).
      - rewrite bind_run.
        destruct (benign_convert_html_to_markdown w cfg (default "" hp) env2)
          as (mp & evs3 & env3 & E3 & A3 & F3).
        rewrite E3. destruct (Py.truthy_opt mp); eexists _, evs3, env3;
          (split; [reflexivity|]); done.
      - exists c0, [], env2. split; [done|]. split; [apply after_refl|]. done. }
    rewrite E3. rewrite bind_run, (pure_extract_links w _ _ env3).
    fold (Spec.links_found w (default "" (Spec.page_of w bc u)) u).
    intros H.
    assert (env' = env3) as ->.
    { destruct (Spec.links_found _ _ _); by injection H. }
    exists (ev0 :: evs1 ++ evs2 ++ evs3)%list. split.
    { apply (after_trans _ [ev0] _ _ _ A0). eapply after_trans; [exact A1|].
      eapply after_trans; [exact A2|exact A3]. }
    split. { simpl. rewrite !fetched_app, F2, F3, !app_nil_r. exact F1. }
    destruct (Spec.links_found _ _ _) as [links|e|] eqn:EL.
    + injection H as <-. eexists. split; [reflexivity|].
      split; [by apply fold_consider_core|].
      fold consider_link. rewrite fold_consider_pdf_files, P3. done.
    + by injection H as <-.
    + unfold Spec.links_found in EL.
      destruct (harmless_extract_links w (default "" (Spec.page_of w bc u)) u empty_env)
        as (r' & ? & ? & E & N & _).
      rewrite E in EL. simpl in EL. done.
Qed.


Variable env0 : Env.

Lemma Inv_TraceOk c env : Inv env0 c env → TraceOk env0 env.
Proof.
  intros I. destruct (Spec.inv_trace _ _ _ _ _ _ _ _ I) as (evs & A & N & V).
  exists evs. split_and!; try done. intros u Hu. apply V in Hu. split.
  - by apply (Spec.inv_domain _ _ _ _ _ _ _ _ I), (Spec.inv_vis_enq _ _ _ _ _ _ _ _ I).
  - by apply (Spec.inv_vis_allowed _ _ _ _ _ _ _ _ I).
Qed.

Lemma Inv_init : Inv env0 (CustomCrawler.init_crawl website) env0.
Proof.
  constructor; simpl.
  - done.
  - lia.
  - apply NoDup_singleton.
  - intros u _. set_solver.
  - apply NoDup_singleton.
  - intros u Hu. by left.
  - done.
  - intros u Hu. set_solver.
  - intros u Hu. apply list_elem_of_singleton in Hu as ->.
    unfold Spec.in_scope, CustomCrawler.is_same_domain, CustomCrawler.base_domain.
    apply String.eqb_refl.
  - intros u Hu. apply list_elem_of_singleton in Hu as ->. by left.
  - intros u Hu. set_solver.
  - apply list_elem_of_singleton. done.
  - intros u links v Hu. set_solver.
  - exists []. split; [apply after_refl|]. split; [constructor|].
    intros u Hu. inversion Hu.
Qed.

(** One turn keeps the invariant; when it raises, the log is still as
    the invariant wants it. *)
Lemma Inv_step c env r env' :
  Inv env0 c env → Spec.loop_cond cfg c = true → loop_body c env = (r, env') →
  r ≠ OutOfFuel ∧ TraceOk env0 env' ∧ ∀ c', r = Ok c' → Inv env0 c' env'.
Proof.
  intros I Hcond Hbody. apply loop_body_summary in Hbody.
  unfold Spec.loop_cond, CustomCrawler.loop_cond in Hcond.
  apply andb_prop in Hcond as [Hne Hlt]. apply Z.ltb_lt in Hlt.
  destruct (to_visit c) as [|u rest] eqn:Etv; [done|]. clear Hne.
  pose proof (Spec.inv_nodup_tv _ _ _ _ _ _ _ _ I) as Hnd.
  rewrite Etv in Hnd. apply NoDup_cons in Hnd as [Hur Hnr].
  destruct (skipped c u) eqn:Esk.
  - (* the popped URL is skipped *)
    destruct Hbody as [-> ->]. split; [done|]. split; [by eapply Inv_TraceOk|].
    intros c' [= <-]. destruct I. rewrite Etv in *.
    constructor; simpl; try done.
    + intros v Hv. apply inv_tv_fresh. by right.
    + intros v Hv. destruct (inv_enq v Hv) as [H|H]; [|by right].
      apply elem_of_cons in H as [->|H]; [|by left].
      right. unfold Spec.skipped in Esk. apply orb_prop in Esk as [E|E].
      * left. by apply bool_decide_eq_true in E.
      * right. by apply negb_true_iff in E.
    + intros v Hv. apply inv_tv_enq. by right.
    + intros u' links v Hu' Hx Hv Hd Ha.
      destruct (inv_closed u' links v Hu' Hx Hv Hd Ha) as [H|H]; [by left|].
      apply elem_of_cons in H as [->|H]; [|by right].
      left. unfold Spec.skipped in Esk. apply orb_prop in Esk as [E|E].
      * by apply bool_decide_eq_true in E.
      * apply negb_true_iff in E. congruence.
  - (* the popped URL is visited *)
    unfold Spec.skipped in Esk. apply orb_false_elim in Esk as [Ev Ea].
    apply bool_decide_eq_false in Ev. apply negb_false_iff in Ea.
    destruct Hbody as (evs1 & A1 & F1 & Hexp).
    destruct (Spec.inv_trace _ _ _ _ _ _ _ _ I) as (evs & A & N & V).
    assert (Hu_enq : u ∈ enqueued c).
    { apply (Spec.inv_tv_enq _ _ _ _ _ _ _ _ I). rewrite Etv. left. }
    assert (HT : ∃ evs', after env0 evs' env' ∧ NoDup (fetched evs')
                  ∧ ∀ v, v ∈ fetched evs' → v ∈ ({[u]} ∪ visited_urls c : gset string)).
    { exists (evs ++ evs1)%list. split; [by eapply after_trans|].
      rewrite fetched_app. destruct F1 as [-> | ->].
      - rewrite app_nil_r. split; [done|]. intros v Hv. apply V in Hv. set_solver.
      - split.
        + apply NoDup_app. split_and!; [done| |apply NoDup_singleton].
          intros v Hv Hv'. apply list_elem_of_singleton in Hv' as ->. by apply V in Hv.
        + intros v Hv. apply elem_of_app in Hv as [Hv|Hv]; [apply V in Hv; set_solver|].
          apply list_elem_of_singleton in Hv as ->. set_solver. }
    assert (HTO : TraceOk env0 env').
    { destruct HT as (evs' & A' & N' & V'). exists evs'. split_and!; try done.
      intros v Hv. apply V' in Hv. apply elem_of_union in Hv as [Hv|Hv].
      - apply elem_of_singleton in Hv as ->.
        split; [by apply (Spec.inv_domain _ _ _ _ _ _ _ _ I)|done].
      - split; [by apply (Spec.inv_domain _ _ _ _ _ _ _ _ I),
                          (Spec.inv_vis_enq _ _ _ _ _ _ _ _ I)
               |by apply (Spec.inv_vis_allowed _ _ _ _ _ _ _ _ I)]. }
    destruct (expansion u) as [links|e|] eqn:Ex; [| |done].
    2: { subst r. split; [done|]. split; [done|]. intros ? [=]. }
    destruct Hexp as (c1 & -> & (Hv1 & Ht1 & Hp1 & He1) & _).
    split; [done|]. split; [done|]. intros c' [= <-].
    destruct (fold_consider_spec links (CustomCrawler.mark_visited u rest c))
      as (new & Hv & Hp & Ht & He & Hn & Hin & Hcov).
    simpl in Hv, Hp, Ht, He, Hin, Hcov.
    rewrite Hv in Hv1. rewrite Ht in Ht1. rewrite Hp in Hp1. rewrite He in He1.
    clear Hv Hp Ht He. destruct I. rewrite Etv in *.
    constructor; rewrite ?Hv1, ?Ht1, ?Hp1, ?He1.
    + rewrite size_union by set_solver. rewrite size_singleton. lia.
    + lia.
    + apply NoDup_app. split_and!; [done| |done].
      intros v Hv Hv'. by apply Hin in Hv' as (_ & _ & ? & _).
    + intros v Hv. apply elem_of_app in Hv as [Hv|Hv].
      * intros H. apply elem_of_union in H as [H|H].
        { apply elem_of_singleton in H as ->. done. }
        { eapply inv_tv_fresh; [|exact H]. by right. }
      * by apply Hin in Hv as (_ & ? & _).
    + apply NoDup_app. split_and!; [done| |done].
      intros v Hv Hv'. apply Hin in Hv' as (_ & Hnv & Hnt & _ & Hal).
      destruct (inv_enq v Hv) as [H|[H|H]].
      * apply elem_of_cons in H as [->|H]; [set_solver|done].
      * set_solver.
      * congruence.
    + intros v Hv. apply elem_of_app in Hv as [Hv|Hv].
      * destruct (inv_enq v Hv) as [H|[H|H]].
        { apply elem_of_cons in H as [->|H]; [right; left; set_solver|].
          left. apply elem_of_app. by left. }
        { right. left. set_solver. }
        { by right; right. }
      * left. apply elem_of_app. by right.
    + intros v Hv. apply elem_of_app. apply elem_of_app in Hv as [Hv|Hv]; [left|by right].
      apply inv_tv_enq. by right.
    + intros v Hv. apply elem_of_app. left. apply elem_of_union in Hv as [Hv|Hv].
      * by apply elem_of_singleton in Hv as ->.
      * by apply inv_vis_enq.
    + intros v Hv. apply elem_of_app in Hv as [Hv|Hv]; [by apply inv_domain|].
      by apply Hin in Hv as (_ & _ & _ & ? & _).
    + intros v Hv. apply elem_of_app in Hv as [Hv|Hv]; [by apply inv_enq_allowed|].
      right. by apply Hin in Hv as (_ & _ & _ & _ & ?).
    + intros v Hv. apply elem_of_union in Hv as [Hv|Hv].
      * by apply elem_of_singleton in Hv as ->.
      * by apply inv_vis_allowed.
    + apply elem_of_app. by left.
    + intros u' links' v Hu' Hx Hv Hd Ha. apply elem_of_union in Hu' as [Hu'|Hu'].
      * apply elem_of_singleton in Hu' as ->. rewrite Ex in Hx. injection Hx as <-.
        destruct (Hcov v Hv Hd Ha) as [H|[H|H]]; [by left| |].
        { right. apply elem_of_app. by left. }
        { right. apply elem_of_app. by right. }
      * destruct (inv_closed u' links' v Hu' Hx Hv Hd Ha) as [H|H]; [left; set_solver|].
        apply elem_of_cons in H as [->|H]; [left; set_solver|].
        right. apply elem_of_app. by left.
    + destruct HT as (evs' & A' & N' & V'). exists evs'. done.
Qed.

Lemma Inv_reaches c env c' env' :
  reaches c env c' env' → Inv env0 c env → Inv env0 c' env'.
Proof.
  induction 1 as [|c env c1 env1 c2 env2 Hc Hb _ IH]; [done|].
  intros I. apply IH. by eapply (Inv_step c env (Ok c1) env1).
Qed.

Lemma reaches_trans c env c1 env1 c2 env2 :
  reaches c env c1 env1 → reaches c1 env1 c2 env2 → reaches c env c2 env2.
Proof.
  induction 1; [done|]. intros. eapply Spec.reaches_step; eauto.
Qed.

(** The loop as run with fuel, against the states it goes through. *)
Lemma crawl_loop_reaches fuel : ∀ c env c' env',
  crawl_loop fuel c env = (Ok c', env') →
  reaches c env c' env' ∧ Spec.loop_cond cfg c' = false.
Proof.
  induction fuel as [|fuel IH]; intros c env c' env';
    unfold Spec.crawl_loop; simpl;
    fold (Spec.loop_cond cfg c); destruct (Spec.loop_cond cfg c) eqn:Hc.
  - done.
  - intros [= <- <-]. split; [constructor|done].
  - rewrite bind_run.
    fold (Spec.loop_body w cfg website company_name job_id disallowed_paths bc c).
    destruct (loop_body c env) as [[c1|e|] env1] eqn:Hb; [|done|done].
    intros H. apply IH in H as [H1 H2]. split; [|done].
    eapply Spec.reaches_step; eauto.
  - intros [= <- <-]. split; [constructor|done].
Qed.

Lemma crawl_loop_trace fuel : ∀ c env r env',
  Inv env0 c env → crawl_loop fuel c env = (r, env') → TraceOk env0 env'.
Proof.
  induction fuel as [|fuel IH]; intros c env r env' I;
    unfold Spec.crawl_loop; simpl;
    fold (Spec.loop_cond cfg c); destruct (Spec.loop_cond cfg c) eqn:Hc.
  - intros [= <- <-]. by eapply Inv_TraceOk.
  - intros [= <- <-]. by eapply Inv_TraceOk.
  - rewrite bind_run.
    fold (Spec.loop_body w cfg website company_name job_id disallowed_paths bc c).
    destruct (loop_body c env) as [r1 env1] eqn:Hb.
    destruct (Inv_step c env r1 env1 I Hc Hb) as (N & T & I1).
    destruct r1 as [c1|e|]; [|by intros [= <- <-]|done].
    apply IH. by apply I1.
  - intros [= <- <-]. by eapply Inv_TraceOk.
Qed.

(** The loop ends: each turn either shortens the frontier or uses one
    unit of the page budget. *)
Lemma crawl_loop_terminates : ∀ n m c env,
  Z.to_nat (max_pages cfg - page_count c) = n → List.length (to_visit c) = m →
  ∃ fuel0, ∀ fuel, (fuel0 ≤ fuel)%nat → fst (crawl_loop fuel c env) ≠ OutOfFuel.
Proof.
  induction n as [n IHn] using lt_wf_ind.
  induction m as [m IHm] using lt_wf_ind. intros c env Hn Hm.
  destruct (Spec.loop_cond cfg c) eqn:Hc.
  2: { exists O. intros fuel _. unfold Spec.crawl_loop.
       destruct fuel; simpl; fold (Spec.loop_cond cfg c); rewrite Hc; done. }
  destruct (loop_body c env) as [r env1] eqn:Hb.
  pose proof (loop_body_summary c env r env1 Hb) as Hs.
  pose proof Hc as Hc'.
  unfold Spec.loop_cond, CustomCrawler.loop_cond in Hc'.
  apply andb_prop in Hc' as [Hne Hlt]. apply Z.ltb_lt in Hlt.
  assert (Hrun : ∀ fuel, Spec.crawl_loop w cfg website company_name job_id
                   disallowed_paths bc (S fuel) c env =
                 match r with
                 | Ok c1 => crawl_loop fuel c1 env1
                 | Raised e => (Raised e, env1)
                 | OutOfFuel => (OutOfFuel, env1)
                 end).
  { intros fuel. unfold Spec.crawl_loop. simpl.
    fold (Spec.loop_cond cfg c). rewrite Hc, bind_run.
    fold (Spec.loop_body w cfg website company_name job_id disallowed_paths bc c).
    rewrite Hb. by destruct r. }
  destruct (to_visit c) as [|u rest] eqn:Etv; [done|].
  assert (Hnext : ∀ c1, r = Ok c1 →
            (Z.to_nat (max_pages cfg - page_count c1) < n)%nat
            ∨ (Z.to_nat (max_pages cfg - page_count c1) = n
               ∧ (List.length (to_visit c1) < m)%nat)).
  { intros c1 ->. destruct (skipped c u).
    - destruct Hs as [[= ->] _]. right. simpl. split; [done|]. subst m. simpl. lia.
    - destruct Hs as (evs & _ & _ & Hx). destruct (expansion u) as [links|e|]; [|done|done].
      destruct Hx as (c' & [= ->] & (_ & _ & Hp & _) & _).
      destruct (fold_consider_spec links (CustomCrawler.mark_visited u rest c))
        as (new & _ & Hp' & _). simpl in Hp'. rewrite Hp' in Hp. left. lia. }
  destruct r as [c1|e|].
  - destruct (Hnext c1 eq_refl) as [Hlt'|[Heq Hlt']].
    + destruct (IHn _ Hlt' _ c1 env1 eq_refl eq_refl) as [fuel1 Hf].
      exists (S fuel1). intros fuel Hle. destruct fuel as [|fuel]; [lia|].
      rewrite Hrun. apply Hf. lia.
    + destruct (IHm _ Hlt' c1 env1 Heq eq_refl) as [fuel1 Hf].
      exists (S fuel1). intros fuel Hle. destruct fuel as [|fuel]; [lia|].
      rewrite Hrun. apply Hf. lia.
  - exists 1%nat. intros fuel Hle. destruct fuel as [|fuel]; [lia|]. by rewrite Hrun.
  - exfalso. destruct (skipped c u); [by destruct Hs|].
    destruct Hs as (evs & _ & _ & Hx).
    destruct (expansion u); [by destruct Hx as (? & ? & _)|done|done].
Qed.

End LoopFacts.

(** ** A whole session *)

Section SessionFacts.

Variable w : World.
Variable cfg : Config.
Variables website company_name job_id : string.
Variable disallowed_paths : list string.
Variable bc : BrowserContext.

Local Abbreviation crawl_loop :=
  (Spec.crawl_loop w cfg website company_name job_id disallowed_paths bc).
Local Abbreviation crawl_session :=
  (Spec.crawl_session w cfg website company_name job_id disallowed_paths bc).
Local Abbreviation reaches :=
  (Spec.reaches w cfg website company_name job_id disallowed_paths bc).
Local Abbreviation Inv := (Spec.Inv w cfg website disallowed_paths bc).
Local Abbreviation TraceOk := (Spec.TraceOk w cfg website disallowed_paths).
Local Abbreviation init := (CustomCrawler.init_crawl website).

Lemma TraceOk_log env0 env lvl msg :
  TraceOk env0 env → TraceOk env0 (snd (log lvl msg env)).
Proof.
  intros (evs & A & N & V). exists (evs ++ [EvLog lvl msg])%list. split.
  - eapply after_trans; [exact A|]. unfold after. simpl. done.
  - rewrite fetched_app. simpl. rewrite app_nil_r. done.
Qed.

(** The [try] block with its [except] clause: it never raises. *)
Lemma crawl_session_run fuel env0 :
  match crawl_loop fuel init env0 with
  | (Ok c, env1) =>
      ∃ msg, crawl_session fuel env0
             = (Ok (Crawled (CustomCrawler.results_of website company_name job_id c)),
                snd (log INFO msg env1))
  | (Raised e, env1) =>
      ∃ msg, crawl_session fuel env0 = (Ok (CrawlFailed e), snd (log ERROR msg env1))
  | (OutOfFuel, env1) => crawl_session fuel env0 = (OutOfFuel, env1)
  end.
Proof.
  unfold Spec.crawl_session, CustomCrawler.crawl_session, try_except.
  rewrite bind_run. unfold Spec.crawl_loop.
  destruct (CustomCrawler.crawl_loop _ _ _ _ _ _ _ _ _ _) as [[c|e|] env1];
    [|by eexists|done].
  rewrite bind_run. simpl. by eexists.
Qed.

Lemma crawl_session_trace fuel env0 r env' :
  crawl_session fuel env0 = (r, env') → TraceOk env0 env'.
Proof.
  pose proof (crawl_session_run fuel env0) as H.
  destruct (crawl_loop fuel init env0) as [[c|e|] env1] eqn:E;
    pose proof (crawl_loop_trace w cfg website company_name job_id disallowed_paths
                  bc env0 fuel init env0 _ env1 (Inv_init _ _ _ _ _ _) E) as T.
  - destruct H as [msg H]. rewrite H. intros [= <- <-]. by apply TraceOk_log.
  - destruct H as [msg H]. rewrite H. intros [= <- <-]. by apply TraceOk_log.
  - rewrite H. by intros [= <- <-].
Qed.

Lemma crawl_session_terminates env0 :
  ∃ fuel0, ∀ fuel, (fuel0 ≤ fuel)%nat →
    ∃ ret env', crawl_session fuel env0 = (Ok ret, env').
Proof.
  destruct (crawl_loop_terminates w cfg website company_name job_id disallowed_paths bc
              _ _ init env0 eq_refl eq_refl) as [fuel0 H].
  exists fuel0. intros fuel Hle. specialize (H fuel Hle).
  pose proof (crawl_session_run fuel env0) as R.
  destruct (crawl_loop fuel init env0) as [[c|e|] env1]; [| |done].
  - destruct R as [msg R]. eauto.
  - destruct R as [msg R]. eauto.
Qed.

Lemma crawl_session_crawled fuel env0 r env' :
  crawl_session fuel env0 = (Ok (Crawled r), env') →
  ∃ c env1, reaches init env0 c env1 ∧ Spec.loop_cond cfg c = false
    ∧ r = CustomCrawler.results_of website company_name job_id c.
Proof.
  pose proof (crawl_session_run fuel env0) as H.
  destruct (crawl_loop fuel init env0) as [[c|e|] env1] eqn:E.
  - destruct H as [msg H]. rewrite H. intros [= <- <-].
    apply crawl_loop_reaches in E as [E1 E2]. eauto.
  - destruct H as [msg H]. rewrite H. done.
  - rewrite H. done.
Qed.

Lemma reachable_visited env0 c env u :
  Inv env0 c env → to_visit c = [] →
  Spec.reachable w cfg website disallowed_paths bc u → u ∈ visited_urls c.
Proof.
  intros I Hempty. induction 1 as [Ha|u links v _ IH Hx Hv Hd Ha].
  - destruct (Spec.inv_enq _ _ _ _ _ _ _ _ I website (Spec.inv_root _ _ _ _ _ _ _ _ I))
      as [H|[H|H]].
    + rewrite Hempty in H. inversion H.
    + done.
    + congruence.
  - destruct (Spec.inv_closed _ _ _ _ _ _ _ _ I u links v IH Hx Hv Hd Ha) as [H|H]; [done|].
    rewrite Hempty in H. inversion H.
Qed.

Lemma NoDup_subset_size (l : list string) (X : gset string) :
  NoDup l → (∀ u, u ∈ l → u ∈ X) → (List.length l ≤ size X)%nat.
Proof.
  intros Hnd Hsub. rewrite <- (size_list_to_set (C:=gset string) l Hnd).
  apply subseteq_size. intros u Hu. apply elem_of_list_to_set in Hu. by apply Hsub.
Qed.

End SessionFacts.

(** ** The whitespace clean-up *)

Section ReFacts.

Import Re.

Lemma is_nl_eq c : is_nl c = true → c = LF.
Proof. unfold is_nl. apply Ascii.eqb_eq. Qed.

Lemma is_sp_eq c : is_sp c = true → c = SP.
Proof. unfold is_sp. apply Ascii.eqb_eq. Qed.

Lemma is_nl_space c : is_nl c = true → Py.is_space c = true.
Proof. intros ->%is_nl_eq. reflexivity. Qed.

Lemma sub_blank_lines_cons c s' :
  sub_blank_lines (c :: s') =
  match (if is_nl c then match_ws_nl s' 0 None else None) with
  | Some k => LF :: LF :: sub_blank_lines (drop k s')
  | None => c :: sub_blank_lines s'
  end.
Proof. simp sub_blank_lines. by destruct (if is_nl c then _ else _). Qed.

Lemma sub_spaces_cons c s' :
  sub_spaces (c :: s') =
  if is_sp c then SP :: sub_spaces (drop_while is_sp s') else c :: sub_spaces s'.
Proof. simp sub_spaces. by destruct (is_sp c). Qed.

Lemma match_no_nl s : ∀ i last, run_has_nl s = false → match_ws_nl s i last = last.
Proof.
  induction s as [|c s IH]; intros i last H; simpl in *; [done|].
  destruct (Py.is_space c); [|done]. simpl in H.
  apply orb_false_elim in H as [H1 H2]. rewrite H1. by apply IH.
Qed.

Lemma match_nl s : ∀ i last, run_has_nl s = true →
  ∃ k, match_ws_nl s i last = Some (i + k)%nat ∧ (0 < k ≤ List.length s)%nat
       ∧ run_has_nl (drop k s) = false.
Proof.
  induction s as [|c s IH]; intros i last H; simpl in *; [done|].
  apply andb_prop in H as [Hs H]. rewrite Hs.
  destruct (run_has_nl s) eqn:Hr.
  - destruct (IH (S i) (if is_nl c then Some (S i) else last) eq_refl) as (k & E & Hk & Hd).
    exists (S k). rewrite E. split; [f_equal; lia|]. split; [lia|done].
  - rewrite orb_false_r in H. rewrite H, match_no_nl by done.
    exists 1%nat. split; [f_equal; lia|]. split; [lia|done].
Qed.


Lemma blank_keeps_no_nl s : run_has_nl s = false → run_has_nl (sub_blank_lines s) = false.
Proof.
  induction s as [|c s IH]; [done|]. intros H. rewrite sub_blank_lines_cons.
  simpl in H. destruct (is_nl c) eqn:Hn.
  - rewrite (is_nl_space c Hn) in H. done.
  - simpl. destruct (Py.is_space c); [|done]. simpl in *. rewrite Hn. simpl. by apply IH.
Qed.

(** The two cases of a step of [sub_blank_lines]. *)
Lemma blank_step c s :
  (sub_blank_lines (c :: s) = c :: sub_blank_lines s
   ∧ (is_nl c = true → run_has_nl s = false))
  ∨ (∃ k, is_nl c = true ∧ (0 < k ≤ List.length s)%nat
          ∧ run_has_nl (drop k s) = false
          ∧ sub_blank_lines (c :: s) = LF :: LF :: sub_blank_lines (drop k s)).
Proof.
  rewrite sub_blank_lines_cons. destruct (is_nl c) eqn:Hn; [|by left].
  destruct (run_has_nl s) eqn:Hr.
  - destruct (match_nl s 0 None Hr) as (k & E & Hk & Hd). rewrite E. right.
    exists k. done.
  - rewrite match_no_nl by done. by left.
Qed.

Lemma blank_stable s : stable (sub_blank_lines s) = true.
Proof.
  remember (List.length s) as n eqn:Hn. revert s Hn.
  induction n as [n IH] using lt_wf_ind. intros [|c s] Hn; [done|].
  simpl in Hn. destruct (blank_step c s) as [[E Hc]|(k & Hc & Hk & Hd & E)]; rewrite E.
  - simpl. rewrite (IH (List.length s)) by (done || lia). rewrite andb_true_r.
    unfold nl_ok. destruct (is_nl c); [|done]. rewrite blank_keeps_no_nl by auto. done.
  - assert (Hx : run_has_nl (sub_blank_lines (drop k s)) = false)
      by by apply blank_keeps_no_nl.
    simpl. unfold nl_ok. simpl. rewrite Hx. simpl.
    apply (IH (List.length (drop k s))); [rewrite length_drop; lia|done].
Qed.


Lemma drop_while_no_nl s : run_has_nl (drop_while is_sp s) = run_has_nl s.
Proof.
  induction s as [|c s IH]; [done|]. simpl. destruct (is_sp c) eqn:Hs; [|done].
  apply is_sp_eq in Hs as ->. simpl. done.
Qed.

Lemma drop_while_length s : (List.length (drop_while is_sp s) ≤ List.length s)%nat.
Proof.
  induction s as [|c s IH]; simpl; [lia|]. destruct (is_sp c); simpl; lia.
Qed.

Lemma spaces_run_has_nl s : run_has_nl (sub_spaces s) = run_has_nl s.
Proof.
  remember (List.length s) as n eqn:Hn. revert s Hn.
  induction n as [n IH] using lt_wf_ind. intros [|c s] Hn; [done|].
  simpl in Hn. rewrite sub_spaces_cons. destruct (is_sp c) eqn:Hs.
  - apply is_sp_eq in Hs as ->. simpl.
    rewrite (IH (List.length (drop_while is_sp s))).
    + apply drop_while_no_nl.
    + pose proof (drop_while_length s). lia.
    + done.
  - simpl. rewrite (IH (List.length s)); (done || lia).
Qed.

Lemma stable_drop_while s : stable s = true → stable (drop_while is_sp s) = true.
Proof.
  induction s as [|c s IH]; [done|]. intros H. simpl.
  destruct (is_sp c); [|done]. apply IH. simpl in H. by apply andb_prop in H as [_ H].
Qed.

Lemma drop_while_head s d r : drop_while is_sp s = d :: r → is_sp d = false.
Proof.
  induction s as [|c s IH]; [done|]. simpl. destruct (is_sp c) eqn:Hc; [done|].
  by intros [= <- _].
Qed.

Lemma spaces_stable t : stable t = true → stable (sub_spaces t) = true.
Proof.
  remember (List.length t) as n eqn:Hn. revert t Hn.
  induction n as [n IH] using lt_wf_ind. intros [|c t] Hn H; [done|].
  simpl in Hn. rewrite sub_spaces_cons. destruct (is_sp c) eqn:Hs.
  - simpl. apply (IH (List.length (drop_while is_sp t))).
    + pose proof (drop_while_length t). lia.
    + done.
    + apply stable_drop_while. simpl in H. by apply andb_prop in H as [_ H].
  - simpl in *. apply andb_prop in H as [Hc Ht].
    rewrite (IH (List.length t)) by (done || lia). rewrite andb_true_r.
    unfold nl_ok in *. destruct (is_nl c); [|done].
    rewrite spaces_run_has_nl. apply orb_prop in Hc as [Hc|Hc]; [by rewrite Hc|].
    destruct t as [|d t2]; [done|]. apply andb_prop in Hc as [Hd Hr].
    rewrite sub_spaces_cons. apply is_nl_eq in Hd as ->. simpl.
    rewrite spaces_run_has_nl, Hr. by destruct (run_has_nl t2).
Qed.



End ReFacts.

(** ** The claims about the traversal engine *)

(** C5. Within one crawl session no URL is fetched twice and no URL is put
    on the frontier twice. The popped URL is skipped when it is in the
    visited set; a link is appended only when it is neither visited nor
    queued; so at every point of the loop the history of frontier
    insertions and the frontier itself are duplicate-free, no queued URL
    is visited, and the fetches made so far are pairwise distinct, each of
    a visited URL. The fetches are pairwise distinct also in the log a
    session leaves when it ends, by exhaustion, by budget or by an
    exception. *)
Theorem C5_fetched_and_enqueued_once
    (w : World) (cfg : Config) (website company_name job_id : string)
    (disallowed_paths : list string) (bc : BrowserContext) (env0 : Env) :
  (∀ c u, u ∈ visited_urls c → Spec.skipped w cfg disallowed_paths c u = true)
  ∧ (∀ c link, CustomCrawler.wanted w cfg website disallowed_paths c link = true →
       (link ∉ visited_urls c) ∧ (link ∉ to_visit c))
  ∧ (∀ c env,
       Spec.reaches w cfg website company_name job_id disallowed_paths bc
         (CustomCrawler.init_crawl website) env0 c env →
       NoDup (enqueued c) ∧ NoDup (to_visit c)
       ∧ (∀ u, u ∈ to_visit c → u ∉ visited_urls c)
       ∧ ∃ evs, trace env = (trace env0 ++ evs)%list ∧ NoDup (fetched evs)
                ∧ ∀ u, u ∈ fetched evs → u ∈ visited_urls c)
  ∧ (∀ fuel, ∃ evs,
       trace (snd (Spec.crawl_session w cfg website company_name job_id
                     disallowed_paths bc fuel env0)) = (trace env0 ++ evs)%list
       ∧ NoDup (fetched evs)).
Proof.
  split_and!.
  - intros c u Hu. unfold Spec.skipped. by rewrite bool_decide_eq_true_2.
  - intros c link H. unfold CustomCrawler.wanted in H.
    apply andb_prop in H as [H _]. apply andb_prop in H as [H _].
    apply andb_prop in H as [H1 H2].
    apply negb_true_iff, bool_decide_eq_false in H1, H2. done.
  - intros c env R.
    pose proof (Inv_reaches w cfg website company_name job_id disallowed_paths bc env0
                  _ _ _ _ R (Inv_init _ _ _ _ _ _)) as I.
    destruct I. split_and!; try done.
    destruct inv_trace as (evs & (A & _) & N & V). by exists evs.
  - intros fuel.
    destruct (Spec.crawl_session w cfg website company_name job_id disallowed_paths
                bc fuel env0) as [r env'] eqn:E.
    apply crawl_session_trace in E as (evs & (A & _) & N & _). by exists evs.
Qed.

(** In the example site the loop ends with five URLs enqueued, each once,
    although [/x] is linked three times and the document links are listed
    twice by the link extractor. *)
Lemma C5_witness :
  NoDup (enqueued Toy.end_crawl) ∧ NoDup (to_visit Toy.end_crawl)
  ∧ (∀ u, u ∈ to_visit Toy.end_crawl → u ∉ visited_urls Toy.end_crawl)
  ∧ ∃ evs, trace Toy.end_env = (trace Toy.env0 ++ evs)%list ∧ NoDup (fetched evs)
           ∧ ∀ u, u ∈ fetched evs → u ∈ visited_urls Toy.end_crawl.
Proof.
  apply (C5_fetched_and_enqueued_once Toy.world Toy.config Toy.root "acme" "j1"
           Toy.rules Toy.browser Toy.env0).
  apply (crawl_loop_reaches Toy.world Toy.config Toy.root "acme" "j1" Toy.rules
           Toy.browser 20).
  vm_compute. reflexivity.
Defined.

(** A URL that is not allowed is held back at both gates of the loop. *)
Lemma not_allowed_gates (w : World) (cfg : Config) (website : string)
    (disallowed_paths : list string) (u : string) :
  Spec.allowed w cfg disallowed_paths u = false →
  (∀ c, CustomCrawler.wanted w cfg website disallowed_paths c u = false)
  ∧ (∀ c, Spec.skipped w cfg disallowed_paths c u = true).
Proof.
  intros H. split; intros c.
  - unfold CustomCrawler.wanted. unfold Spec.allowed in H. rewrite H. apply andb_false_r.
  - unfold Spec.skipped. rewrite H. apply orb_true_r.
Qed.

(** C6. With robots compliance enabled and a policy that disallows the
    prefix [P], a URL whose path starts with [P] is not allowed; it is
    refused at frontier insertion and skipped when popped, whatever the
    loop state; in no state of a session is it in the visited set, and no
    log a session leaves, at any point and however the session ends,
    holds a fetch of it. *)
Theorem C6_disallowed_never_fetched
    (w : World) (cfg : Config) (website company_name job_id : string)
    (disallowed_paths : list string) (bc : BrowserContext) (env0 : Env)
    (P u : string) :
  respect_robots_txt cfg = true →
  P ∈ disallowed_paths →
  Py.startswith (path (urlparse w u)) P = true →
  CustomCrawler.is_allowed_url w cfg u disallowed_paths = false
  ∧ (∀ c, CustomCrawler.wanted w cfg website disallowed_paths c u = false)
  ∧ (∀ c, Spec.skipped w cfg disallowed_paths c u = true)
  ∧ (∀ c env,
       Spec.reaches w cfg website company_name job_id disallowed_paths bc
         (CustomCrawler.init_crawl website) env0 c env →
       (u ∉ visited_urls c)
       ∧ ∃ evs, trace env = (trace env0 ++ evs)%list ∧ u ∉ fetched evs)
  ∧ (∀ fuel, ∃ evs,
       trace (snd (Spec.crawl_session w cfg website company_name job_id
                     disallowed_paths bc fuel env0)) = (trace env0 ++ evs)%list
       ∧ u ∉ fetched evs).
Proof.
  intros Hr HP Hu.
  assert (Ha : Spec.allowed w cfg disallowed_paths u = false).
  { unfold Spec.allowed, CustomCrawler.is_allowed_url. rewrite Hr. simpl.
    rewrite bool_decide_eq_false_2 by (intros ->; inversion HP).
    apply negb_false_iff, existsb_exists. exists P. split; [|done].
    by apply list_elem_of_In. }
  destruct (not_allowed_gates w cfg website disallowed_paths u Ha) as [Hw Hs].
  split_and!; try done.
  - intros c env R.
    pose proof (Inv_reaches w cfg website company_name job_id disallowed_paths bc env0
                  _ _ _ _ R (Inv_init _ _ _ _ _ _)) as I.
    assert (u ∉ visited_urls c) as Hv.
    { intros Hv. apply (Spec.inv_vis_allowed _ _ _ _ _ _ _ _ I) in Hv. congruence. }
    split; [done|]. destruct (Spec.inv_trace _ _ _ _ _ _ _ _ I) as (evs & (A & _) & N & V).
    exists evs. split; [done|]. intros H. by apply V in H.
  - intros fuel.
    destruct (Spec.crawl_session w cfg website company_name job_id disallowed_paths
                bc fuel env0) as [r env'] eqn:E.
    apply crawl_session_trace in E as (evs & (A & _) & N & V). exists evs.
    split; [done|]. intros H. apply V in H as [_ H]. congruence.
Qed.

(** On the example site [/private/report] is linked from the root and
    from [/x]; it is never visited and never fetched. *)
Lemma C6_witness :
  ("https://a.example/private/report" ∉ visited_urls Toy.end_crawl)
  ∧ ∃ evs, trace Toy.end_env = (trace Toy.env0 ++ evs)%list
           ∧ "https://a.example/private/report" ∉ fetched evs.
Proof.
  refine (proj1 (proj2 (proj2 (proj2
            (C6_disallowed_never_fetched Toy.world Toy.config Toy.root "acme" "j1"
               Toy.rules Toy.browser Toy.env0 "/private/"
               "https://a.example/private/report" _ _ _)))) Toy.end_crawl Toy.end_env _).
  - reflexivity.
  - left.
  - vm_compute. reflexivity.
  - apply (crawl_loop_reaches Toy.world Toy.config Toy.root "acme" "j1" Toy.rules
             Toy.browser 20).
    vm_compute. reflexivity.
Defined.

(** C1, in the form the code satisfies.
    Every URL ever put on the frontier, every visited
    URL and every URL fetched in a session, page or document, has the
    host of the root URL: the same-domain test guards every frontier
    insertion and makes no exception for document links. A URL on another
    host, document link or not, is refused at insertion whatever the loop
    state. A document URL that the loop pops and does not skip is
    fetched by one plain request and is never loaded in the browser: the
    turn leaves the request between two log lines, marks the URL visited
    and adds nothing to the frontier. No URL is fetched twice. *)
Theorem C1_frontier_same_domain
    (w : World) (cfg : Config) (website company_name job_id : string)
    (disallowed_paths : list string) (bc : BrowserContext) (env0 : Env) :
  (∀ c u, netloc (urlparse w u) ≠ CustomCrawler.base_domain w website →
          CustomCrawler.wanted w cfg website disallowed_paths c u = false)
  ∧ (∀ c env u rest,
       to_visit c = u :: rest →
       Spec.skipped w cfg disallowed_paths c u = false →
       Spec.is_document u = true →
       let run := Spec.loop_body w cfg website company_name job_id disallowed_paths bc
                    c env in
       ∃ c' lvl1 msg1 lvl2 msg2,
         fst run = Ok c'
         ∧ trace (snd run)
           = (trace env ++ [EvLog lvl1 msg1; EvDownload u; EvLog lvl2 msg2])%list
         ∧ visited_urls c' = {[u]} ∪ visited_urls c
         ∧ to_visit c' = rest
         ∧ enqueued c' = enqueued c)
  ∧ (∀ c env,
       Spec.reaches w cfg website company_name job_id disallowed_paths bc
         (CustomCrawler.init_crawl website) env0 c env →
       (∀ u, u ∈ enqueued c →
             netloc (urlparse w u) = CustomCrawler.base_domain w website)
       ∧ (∀ u, u ∈ visited_urls c →
               netloc (urlparse w u) = CustomCrawler.base_domain w website)
       ∧ ∃ evs, trace env = (trace env0 ++ evs)%list
                ∧ NoDup (fetched evs)
                ∧ ∀ u, u ∈ fetched evs →
                       netloc (urlparse w u) = CustomCrawler.base_domain w website)
  ∧ (∀ fuel, ∃ evs,
       trace (snd (Spec.crawl_session w cfg website company_name job_id
                     disallowed_paths bc fuel env0)) = (trace env0 ++ evs)%list
       ∧ NoDup (fetched evs)
       ∧ ∀ u, u ∈ fetched evs →
              netloc (urlparse w u) = CustomCrawler.base_domain w website).
Proof.
  assert (Hscope : ∀ u, Spec.in_scope w website u = true →
            netloc (urlparse w u) = CustomCrawler.base_domain w website).
  { intros u H. unfold Spec.in_scope, CustomCrawler.is_same_domain in H.
    by apply String.eqb_eq in H. }
  split_and!.
  - intros c u Hne. unfold CustomCrawler.wanted, CustomCrawler.is_same_domain.
    apply String.eqb_neq in Hne. rewrite Hne.
    by rewrite andb_false_r.
  - intros c env u rest Htv Hskip Hdoc run. subst run.
    unfold Spec.loop_body, CustomCrawler.loop_body. rewrite Htv.
    unfold Spec.skipped, Spec.allowed in Hskip. rewrite Hskip.
    rewrite bind_run. simpl. unfold Spec.is_document in Hdoc. rewrite Hdoc.
    rewrite bind_run.
    match goal with
    | |- context [CustomCrawler.download_pdf w cfg u company_name job_id ?e] =>
        destruct (download_pdf_events w cfg u company_name job_id e)
          as (p & lvl & msg & env1 & E & T)
    end.
    rewrite E. simpl in T.
    destruct (Py.truthy_opt p); simpl; eexists _, _, _, lvl, msg;
      (split; [reflexivity|]); rewrite T, <- app_assoc; done.
  - intros c env R.
    pose proof (Inv_reaches w cfg website company_name job_id disallowed_paths bc env0
                  _ _ _ _ R (Inv_init _ _ _ _ _ _)) as I.
    split_and!.
    + intros u Hu. by apply Hscope, (Spec.inv_domain _ _ _ _ _ _ _ _ I).
    + intros u Hu.
      by apply Hscope, (Spec.inv_domain _ _ _ _ _ _ _ _ I), (Spec.inv_vis_enq _ _ _ _ _ _ _ _ I).
    + destruct (Spec.inv_trace _ _ _ _ _ _ _ _ I) as (evs & (A & _) & N & V).
      exists evs. split; [done|]. split; [done|]. intros u Hu.
      by apply Hscope, (Spec.inv_domain _ _ _ _ _ _ _ _ I),
                       (Spec.inv_vis_enq _ _ _ _ _ _ _ _ I), V.
  - intros fuel.
    destruct (Spec.crawl_session w cfg website company_name job_id disallowed_paths
                bc fuel env0) as [r env'] eqn:E.
    apply crawl_session_trace in E as (evs & (A & _) & N & V). exists evs.
    split; [done|]. split; [done|]. intros u Hu. by apply Hscope, V.
Qed.

(** On the example site every enqueued URL is on [a.example], and the
    turn for [spec.pdf] makes one request and leaves [bad.pdf] on the
    frontier. *)
Lemma C1_witness :
  ((∀ u, u ∈ enqueued Toy.end_crawl → netloc (Toy.urlparse u) = "a.example")
   ∧ (∀ u, u ∈ visited_urls Toy.end_crawl → netloc (Toy.urlparse u) = "a.example")
   ∧ ∃ evs, trace Toy.end_env = (trace Toy.env0 ++ evs)%list
            ∧ NoDup (fetched evs)
            ∧ ∀ u, u ∈ fetched evs → netloc (Toy.urlparse u) = "a.example")
  ∧ ∃ c' lvl1 msg1 lvl2 msg2,
      fst (Spec.loop_body Toy.world Toy.config Toy.root "acme" "j1" Toy.rules
             Toy.browser Toy.at_documents Toy.env0) = Ok c'
      ∧ trace (snd (Spec.loop_body Toy.world Toy.config Toy.root "acme" "j1" Toy.rules
                      Toy.browser Toy.at_documents Toy.env0))
        = [EvLog lvl1 msg1; EvDownload "https://a.example/spec.pdf"; EvLog lvl2 msg2]
      ∧ to_visit c' = ["https://a.example/bad.pdf"].
Proof.
  destruct (C1_frontier_same_domain Toy.world Toy.config Toy.root "acme" "j1"
              Toy.rules Toy.browser Toy.env0) as (_ & Hdoc & Hreach & _).
  split.
  - apply Hreach.
    apply (crawl_loop_reaches Toy.world Toy.config Toy.root "acme" "j1" Toy.rules
             Toy.browser 20).
    vm_compute. reflexivity.
  - destruct (Hdoc Toy.at_documents Toy.env0 "https://a.example/spec.pdf"
                ["https://a.example/bad.pdf"])
      as (c' & lvl1 & msg1 & lvl2 & msg2 & H1 & H2 & _ & H3 & _).
    + reflexivity.
    + vm_compute. reflexivity.
    + reflexivity.
    + exists c', lvl1, msg1, lvl2, msg2. split; [exact H1|]. split; [exact H2|exact H3].
Defined.

(** C1 as stated fails: the root page of the example site, which is
    crawled, links to [https://other.example/z.pdf]; the link ends in
    [.pdf], is on another host, and the server would answer it with a
    PDF; the crawl ends normally without ever requesting it, and the one
    document it stores is the same-host [spec.pdf]. *)
Lemma C1_counterexample :
  let link := "https://other.example/z.pdf" in
  let run := CustomCrawler.crawl_website Toy.world Toy.config 20 Toy.root
               "acme" "j1" Toy.env0 in
  EvNavigate Toy.root ∈ trace (snd run)
  ∧ (∃ links, Spec.links_found Toy.world Toy.page_root Toy.root = Ok links
              ∧ link ∈ links)
  ∧ Py.endswith (Py.lower link) ".pdf" = true
  ∧ netloc (Toy.urlparse link) ≠ netloc (Toy.urlparse Toy.root)
  ∧ (∃ response, Toy.requests_get link = Returns response
                 ∧ CustomCrawler.is_pdf_response response = true)
  ∧ (link ∉ fetched (trace (snd run)))
  ∧ ∃ r, fst run = Ok (Crawled r) ∧ r_pdf_files r = ["data/pdfs/acme_j1/spec.pdf"].
Proof.
  split_and!.
  - vm_compute. do 4 right. left.
  - eexists. split; [vm_compute; reflexivity|]. do 3 right. left.
  - reflexivity.
  - vm_compute. discriminate.
  - eexists. split; reflexivity.
  - vm_compute. intros H. repeat (apply elem_of_cons in H as [H|H]; [discriminate|]).
    inversion H.
  - eexists. split; vm_compute; reflexivity.
Qed.

(** C4. For a page budget [K = max_pages >= 0]: in every state of the
    loop [page_count] is the size of the visited set and is at most [K];
    with enough fuel the session returns; and when it returns a result,
    [pages_crawled] (the size of the visited set) is at most [K], and is
    [K] when the link graph the traversal sees from the root (same host,
    robots-allowed) holds at least [K] distinct URLs. *)
Theorem C4_page_budget
    (w : World) (cfg : Config) (website company_name job_id : string)
    (disallowed_paths : list string) (bc : BrowserContext) (env0 : Env) :
  0 ≤ max_pages cfg →
  (∀ c env,
     Spec.reaches w cfg website company_name job_id disallowed_paths bc
       (CustomCrawler.init_crawl website) env0 c env →
     page_count c = Z.of_nat (size (visited_urls c)) ∧ page_count c ≤ max_pages cfg)
  ∧ (∃ fuel0, ∀ fuel, (fuel0 ≤ fuel)%nat →
       ∃ ret env', Spec.crawl_session w cfg website company_name job_id
                     disallowed_paths bc fuel env0 = (Ok ret, env'))
  ∧ (∀ fuel r env',
       Spec.crawl_session w cfg website company_name job_id disallowed_paths bc
         fuel env0 = (Ok (Crawled r), env') →
       r_pages_crawled r ≤ max_pages cfg
       ∧ ((∃ l : list string,
             NoDup l
             ∧ (∀ u, u ∈ l → Spec.reachable w cfg website disallowed_paths bc u)
             ∧ max_pages cfg ≤ Z.of_nat (List.length l)) →
          r_pages_crawled r = max_pages cfg)).
Proof.
  intros HK.
  assert (Hinv : ∀ c env,
     Spec.reaches w cfg website company_name job_id disallowed_paths bc
       (CustomCrawler.init_crawl website) env0 c env →
     Spec.Inv w cfg website disallowed_paths bc env0 c env).
  { intros c env R. eapply Inv_reaches; [exact R|apply Inv_init]. }
  split_and!.
  - intros c env R. destruct (Hinv c env R). split; [done|lia].
  - apply crawl_session_terminates.
  - intros fuel r env' E.
    apply crawl_session_crawled in E as (c & env1 & R & Hc & ->). simpl.
    pose proof (Hinv c env1 R) as I.
    pose proof (Spec.inv_count _ _ _ _ _ _ _ _ I) as Hcount.
    pose proof (Spec.inv_bound _ _ _ _ _ _ _ _ I) as Hbound.
    split; [lia|]. intros (l & Hnd & Hreach & Hlen).
    unfold Spec.loop_cond, CustomCrawler.loop_cond in Hc.
    apply andb_false_iff in Hc as [Hc|Hc].
    + apply negb_false_iff, bool_decide_eq_true in Hc.
      assert ((List.length l ≤ size (visited_urls c))%nat).
      { apply NoDup_subset_size; [done|]. intros u Hu.
        eapply reachable_visited; eauto. }
      lia.
    + apply Z.ltb_ge in Hc. lia.
Qed.

(** Scenario A: with a budget of three pages the example site, whose
    graph holds the root, [/x] and [/y] among others, yields three pages. *)
Lemma C4_witness :
  match Spec.crawl_session Toy.world Toy.config3 Toy.root "acme" "j1" Toy.rules
          Toy.browser 20 Toy.env0 with
  | (Ok (Crawled r), _) => r_pages_crawled r ≤ 3 ∧ r_pages_crawled r = 3
  | _ => False
  end.
Proof.
  destruct (Spec.crawl_session Toy.world Toy.config3 Toy.root "acme" "j1" Toy.rules
              Toy.browser 20 Toy.env0) as [[[r|e]|e|] env'] eqn:E;
    [|vm_compute in E; discriminate..].
  destruct (C4_page_budget Toy.world Toy.config3 Toy.root "acme" "j1" Toy.rules
              Toy.browser Toy.env0) as (_ & _ & H).
  { simpl. lia. }
  destruct (H 20%nat r env' E) as [H1 H2]. split; [exact H1|]. apply H2.
  assert (R0 : Spec.reachable Toy.world Toy.config3 Toy.root Toy.rules Toy.browser
                 Toy.root) by (apply Spec.reachable_root; reflexivity).
  assert (Rx : ∀ v, v ∈ ["https://a.example/x"; "https://a.example/y"] →
                    Spec.reachable Toy.world Toy.config3 Toy.root Toy.rules Toy.browser v).
  { intros v Hv. eapply (Spec.reachable_link _ _ _ _ _ Toy.root); [exact R0| | | |].
    - vm_compute. reflexivity.
    - apply elem_of_cons in Hv as [->|Hv]; [left|].
      apply elem_of_cons in Hv as [->|Hv]; [right; left|inversion Hv].
    - apply elem_of_cons in Hv as [->|Hv]; [reflexivity|].
      apply elem_of_cons in Hv as [->|Hv]; [reflexivity|inversion Hv].
    - apply elem_of_cons in Hv as [->|Hv]; [reflexivity|].
      apply elem_of_cons in Hv as [->|Hv]; [reflexivity|inversion Hv]. }
  exists [Toy.root; "https://a.example/x"; "https://a.example/y"]. split_and!.
  - repeat (apply NoDup_cons_2;
            [intros Hd; repeat (apply elem_of_cons in Hd as [Hd|Hd]; [discriminate|]);
             inversion Hd|]).
    apply NoDup_nil_2.
  - intros u Hu. apply elem_of_cons in Hu as [->|Hu]; [exact R0|by apply Rx].
  - simpl. lia.
Defined.

(** ** crawl_website: set-up, session, teardown *)

Section Website.

Variable w : World.
Variable cfg : Config.



(** What setup_browser does: a context of one of the two backends after
    one start event, or an exception and no event. *)
Lemma setup_browser_run env :
  (∃ ty, (ty = "playwright" ∨ ty = "selenium")
      ∧ CustomCrawler.setup_browser w cfg env
        = (Ok {| bc_type := ty |},
           {| files := files env; queues := queues env; sent := sent env;
              trace := (trace env ++ [EvBrowserStart ty])%list |}))
  ∨ (∃ e, CustomCrawler.setup_browser w cfg env = (Raised e, env)).
Proof.
  unfold CustomCrawler.setup_browser.
  destruct (_ && _).
  - rewrite bind_run. unfold call.
    destruct (browser_launch w "playwright") as [[]|e]; simpl; [left|right; by eexists].
    exists "playwright". split; [by left|done].
  - destruct (_ && _).
    + rewrite bind_run. unfold call.
      destruct (browser_launch w "selenium") as [[]|e]; simpl; [left|right; by eexists].
      exists "selenium". split; [by right|done].
    + right. by eexists.
Qed.

Lemma close_browser_run ty env :
  ty = "playwright" ∨ ty = "selenium" →
  CustomCrawler.close_browser {| bc_type := ty |} env
  = (Ok (), {| files := files env; queues := queues env; sent := sent env;
               trace := (trace env ++ [EvBrowserClose ty])%list |}).
Proof. by intros [-> | ->]. Qed.


Lemma crawl_session_never_raises website company_name job_id disallowed_paths bc
    fuel env e env' :
  Spec.crawl_session w cfg website company_name job_id disallowed_paths bc fuel env
  ≠ (Raised e, env').
Proof.
  pose proof (crawl_session_run w cfg website company_name job_id disallowed_paths bc
                fuel env) as H.
  destruct (Spec.crawl_loop _ _ _ _ _ _ _ _ _ _) as [[c|e'|] env1].
  - destruct H as [msg ->]. done.
  - destruct H as [msg ->]. done.
  - rewrite H. done.
Qed.

End Website.



(** ** Documents *)

Lemma truthy_app_r a b : Py.truthy b = true → Py.truthy (a ++ b) = true.
Proof.
  unfold Py.truthy. destruct a; [done|]. done.
Qed.

Lemma truthy_path_join a b : Py.truthy b = true → Py.truthy (Py.path_join a b) = true.
Proof.
  intros H. unfold Py.path_join. destruct (Py.startswith b "/"); [done|].
  destruct (_ || _); [by apply truthy_app_r|]. apply truthy_app_r. by apply truthy_app_r.
Qed.

Lemma truthy_pdf_filepath w cfg url cn j :
  Py.truthy (CustomCrawler.pdf_filepath w cfg url cn j) = true.
Proof.
  apply truthy_path_join. unfold CustomCrawler.pdf_filename.
  destruct (Py.truthy (Py.basename _)) eqn:E; [done|]. done.
Qed.

Section Documents.

Variable w : World.
Variable cfg : Config.
Variables website company_name job_id : string.
Variable disallowed_paths : list string.
Variable bc : BrowserContext.

Lemma pdf_files_reaches c env c' env' :
  Spec.reaches w cfg website company_name job_id disallowed_paths bc c env c' env' →
  pdf_files c `prefix_of` pdf_files c'.
Proof.
  induction 1 as [|c env c1 env1 c2 env2 Hc Hb _ IH]; [done|].
  etrans; [|exact IH]. apply loop_body_summary in Hb.
  destruct (to_visit c) as [|u rest]; [by destruct Hb|].
  destruct (Spec.skipped _ _ _ _ _).
  - destruct Hb as [[= ->] _]. done.
  - destruct Hb as (evs & _ & _ & Hx).
    destruct (Spec.expansion w bc u); [|done|done].
    by destruct Hx as (c' & [= ->] & _ & P).
Qed.

(** What download_pdf does on a response that is a PDF and on one that
    is not. *)
Lemma download_pdf_response url response env :
  requests_get w url = Returns response →
  let filepath := CustomCrawler.pdf_filepath w cfg url company_name job_id in
  let env1 := snd (emit (EvDownload url) env) in
  CustomCrawler.download_pdf w cfg url company_name job_id env =
  if CustomCrawler.is_pdf_response response then
    match write_fault w filepath with
    | None =>
        (Ok (Some filepath),
         snd (log INFO ("Downloaded PDF: " ++ filepath)
                (snd (set_file filepath (content response) env1))))
    | Some fault =>
        (Ok None,
         snd (log ERROR ("Error downloading PDF from " ++ url ++ ": " ++ wf_error fault)
                match wf_left fault with
                | Some partial => snd (set_file filepath partial env1)
                | None => env1
                end))
    end
  else
    (Ok None,
     snd (log WARNING ("Failed to download PDF from " ++ url ++ ": Status code "
                       ++ pretty (status_code response)) env1)).
Proof.
  intros Hget. simpl.
  unfold CustomCrawler.download_pdf, try_except. rewrite bind_run. simpl.
  rewrite bind_run, Hget. simpl.
  destruct (CustomCrawler.is_pdf_response response); [|done].
  rewrite bind_run. unfold CustomCrawler.write_file.
  destruct (write_fault w _) as [fault|]; [|done].
  rewrite bind_run. by destruct (wf_left fault).
Qed.

End Documents.

(** C8. For a document URL at the head of the frontier that is not
    skipped, and a response of the server to its plain fetch: when the
    status is 200 and the Content-Type contains [application/pdf] (and
    the store takes the file), the body is in the store under the
    document path, the path is appended to the document list and stays
    in it to the end of the session; when the status or the content type
    does not match, the store and the document list are as before and
    the last log line is the warning. In both cases the turn ends without
    exception, the URL is marked visited, and the frontier is left with
    the URLs that followed. *)
Theorem C8_document_persisted_or_skipped
    (w : World) (cfg : Config) (website company_name job_id : string)
    (disallowed_paths : list string) (bc : BrowserContext)
    (c : Crawl) (env : Env) (u : string) (rest : list string) (response : Response) :
  to_visit c = u :: rest →
  Spec.skipped w cfg disallowed_paths c u = false →
  Spec.is_document u = true →
  requests_get w u = Returns response →
  let filepath := CustomCrawler.pdf_filepath w cfg u company_name job_id in
  let run := Spec.loop_body w cfg website company_name job_id disallowed_paths bc c env in
  (∃ c', fst run = Ok c' ∧ to_visit c' = rest
         ∧ visited_urls c' = {[u]} ∪ visited_urls c)
  ∧ (status_code response = 200 →
     Py.contains "application/pdf" (default "" (content_type response)) = true →
     write_fault w filepath = None →
     ∃ c', fst run = Ok c'
       ∧ files (snd run) !! filepath = Some (content response)
       ∧ pdf_files c' = (pdf_files c ++ [filepath])%list
       ∧ ∀ c2 env2,
           Spec.reaches w cfg website company_name job_id disallowed_paths bc
             c' (snd run) c2 env2 →
           filepath ∈ pdf_files c2
             ∧ filepath ∈ r_pdf_files
                 (CustomCrawler.results_of website company_name job_id c2))
  ∧ (status_code response ≠ 200
     ∨ Py.contains "application/pdf" (default "" (content_type response)) = false →
     ∃ c' msg, fst run = Ok c'
       ∧ files (snd run) = files env
       ∧ pdf_files c' = pdf_files c
       ∧ last (trace (snd run)) = Some (EvLog WARNING msg)).
Proof.
  intros Htv Hskip Hdoc Hget filepath run.
  assert (Hrun : run =
    let env0 := snd (log INFO ("Crawling page " ++ pretty (page_count c + 1) ++ "/"
                                ++ pretty (max_pages cfg) ++ ": " ++ u) env) in
    let r := CustomCrawler.download_pdf w cfg u company_name job_id env0 in
    match fst r with
    | Ok pdf_path =>
        (Ok (if Py.truthy_opt pdf_path
             then CustomCrawler.add_pdf_file (default "" pdf_path)
                    (CustomCrawler.mark_visited u rest c)
             else CustomCrawler.mark_visited u rest c), snd r)
    | Raised e => (Raised e, snd r)
    | OutOfFuel => (OutOfFuel, snd r)
    end).
  { subst run. unfold Spec.loop_body, CustomCrawler.loop_body. rewrite Htv.
    unfold Spec.skipped, Spec.allowed in Hskip. rewrite Hskip.
    rewrite bind_run. simpl. unfold Spec.is_document in Hdoc. rewrite Hdoc.
    rewrite bind_run.
    destruct (CustomCrawler.download_pdf _ _ _ _ _ _) as [[p|e|] env1]; simpl; try done.
    by destruct (Py.truthy_opt p). }
  rewrite Hrun. clear Hrun. simpl.
  rewrite (download_pdf_response w cfg company_name job_id u response _ Hget).
  fold filepath. unfold CustomCrawler.is_pdf_response.
  split_and!.
  - destruct (_ && _); [destruct (write_fault w filepath)|]; simpl;
      try (eexists; split; [reflexivity|done]).
    unfold filepath. rewrite truthy_pdf_filepath. eexists; split; [reflexivity|done].
  - intros Hs Hc Hw. rewrite Hs, Hc, Hw. simpl.
    unfold filepath. rewrite truthy_pdf_filepath. fold filepath.
    eexists. split; [reflexivity|]. split; [apply lookup_insert_eq|]. split; [done|].
    intros c2 env2 R. apply pdf_files_reaches in R. simpl in R.
    assert (filepath ∈ pdf_files c2); [|done].
    destruct R as [k ->]. apply elem_of_app. left. apply elem_of_app. right. left.
  - intros H.
    assert ((status_code response =? 200)
            && Py.contains "application/pdf" (default "" (content_type response)) = false)
      as ->.
    { destruct H as [H|H]; [|by rewrite H, andb_false_r].
      apply Z.eqb_neq in H. by rewrite H. }
    simpl. eexists _, _. split; [reflexivity|]. split; [done|]. split; [done|].
    apply last_snoc.
Qed.

(** State of the example crawl when [spec.pdf] is at the head of the
    frontier: the server answers with a PDF, the file is stored. *)
Lemma C8_witness :
  ∃ c', fst (Spec.loop_body Toy.world Toy.config Toy.root "acme" "j1" Toy.rules
               Toy.browser Toy.at_documents Toy.env0) = Ok c'
    ∧ files (snd (Spec.loop_body Toy.world Toy.config Toy.root "acme" "j1" Toy.rules
                    Toy.browser Toy.at_documents Toy.env0))
        !! "data/pdfs/acme_j1/spec.pdf" = Some "%PDF-1.4 spec"
    ∧ pdf_files c' = ["data/pdfs/acme_j1/spec.pdf"].
Proof.
  destruct (C8_document_persisted_or_skipped Toy.world Toy.config Toy.root "acme" "j1"
              Toy.rules Toy.browser Toy.at_documents Toy.env0
              "https://a.example/spec.pdf" ["https://a.example/bad.pdf"]
              {| status_code := 200; content_type := Some "application/pdf";
                 content := "%PDF-1.4 spec" |})
    as (_ & H & _); [reflexivity|vm_compute; reflexivity|reflexivity|reflexivity|].
  destruct H as (c' & H1 & H2 & H3 & _); [reflexivity|reflexivity|reflexivity|].
  exists c'. split; [exact H1|]. split; [exact H2|exact H3].
Defined.

(** ** The scraper, run *)

Lemma row_of_run entry env0 :
  FirecrawlScraper.row_of entry env0
  = (match complete_row entry with
     | Some row => Ok row
     | None => Raised (match FirecrawlScraper.metadata entry with
                       | None => "'metadata'"
                       | Some metadata =>
                           match metadata !! "sourceURL" with
                           | None => "'sourceURL'"
                           | Some _ => "'markdown'"
                           end
                       end)
     end, env0).
Proof.
  unfold FirecrawlScraper.row_of, complete_row, FirecrawlScraper.getfield, getitem.
  destruct (FirecrawlScraper.metadata entry) as [metadata|]; [|done].
  rewrite bind_run. simpl.
  destruct (metadata !! "sourceURL") as [source_url|]; simpl.
  - rewrite bind_run. simpl. by destruct (FirecrawlScraper.markdown entry).
  - rewrite bind_run. simpl. by destruct (FirecrawlScraper.markdown entry).
Qed.

(** The loop over the entries never raises: it keeps the complete rows,
    in order, and touches neither store nor queue. *)
Lemma collect_run entries : ∀ data_to_write env, ∃ env',
  FirecrawlScraper.collect entries data_to_write env
  = (Ok (data_to_write ++ omap complete_row entries)%list, env')
  ∧ files env' = files env ∧ queues env' = queues env ∧ sent env' = sent env.
Proof.
  induction entries as [|entry entries IH]; intros data_to_write env; simpl.
  - exists env. by rewrite app_nil_r.
  - rewrite bind_run. unfold try_except. rewrite bind_run, row_of_run.
    destruct (complete_row entry) as [row|]; simpl.
    + destruct (IH (data_to_write ++ [row])%list env) as (env' & E & F & Q & S).
      exists env'. rewrite E, <- app_assoc. done.
    + match goal with |- context [FirecrawlScraper.collect entries data_to_write ?e] =>
        destruct (IH data_to_write e) as (env' & E & F & Q & S) end.
      exists env'. rewrite E. done.
Qed.

(** process_website returns or raises, and leaves the queues alone; an
    exception of the crawl is raised again as it is. *)
Lemma scraper_process_website_run (w : World) (output_dir : string) (limit : Z)
    (crawl_url : string → result FirecrawlScraper.CrawlStatus)
    (path_div : string → string → string)
    (csv_text : list FirecrawlScraper.Row → string) (now_isoformat url : string)
    (env : Env) :
  ∃ r env',
    FirecrawlScraper.process_website w output_dir limit crawl_url path_div csv_text
      now_isoformat url env = (r, env')
    ∧ r ≠ OutOfFuel ∧ queues env' = queues env ∧ sent env' = sent env
    ∧ ∀ e, crawl_url url = Raises e → r = Raised e.
Proof.
  unfold FirecrawlScraper.process_website, try_except. rewrite bind_run. simpl.
  rewrite bind_run. unfold FirecrawlScraper.crawl_website, try_except.
  rewrite bind_run. simpl. rewrite bind_run.
  destruct (crawl_url url) as [status|e]; simpl.
  2: { eexists _, _. split; [reflexivity|]. split_and!; try done. by intros ? [= ->]. }
  rewrite bind_run. unfold FirecrawlScraper.save_to_csv, try_except.
  rewrite bind_run. destruct (FirecrawlScraper.data status) as [entries|]; simpl.
  2: { eexists _, _. split; [reflexivity|]. by split_and!. }
  rewrite bind_run.
  match goal with |- context [FirecrawlScraper.collect entries [] ?e] =>
    destruct (collect_run entries [] e) as (env1 & E & F & Q & S) end.
  rewrite E. simpl. rewrite bind_run. unfold CustomCrawler.write_file.
  destruct (write_fault w _) as [fault|]; simpl.
  - rewrite bind_run. destruct (wf_left fault); simpl;
      eexists _, _; (split; [reflexivity|]); rewrite ?Q, ?S; by split_and!.
  - eexists _, _. split; [reflexivity|]. rewrite ?Q, ?S. by split_and!.
Qed.

(** ** The tier hand-off *)

Section Handoff.

Variable w : World.
Variable cfg : Config.

(** A send that the transport refuses: nothing is queued, the service
    logs and returns [False]. *)
Lemma send_to_custom_crawler_queue_refused job failure_reason env :
  (∀ body, sqs_fault w (SendMessage (custom_crawler_queue_url cfg) body) ≠ None) →
  ∃ msg,
    QueueService.send_to_custom_crawler_queue w cfg job failure_reason env
    = (Ok false, snd (log ERROR msg env)).
Proof.
  intros Hf. unfold QueueService.send_to_custom_crawler_queue, try_except.
  rewrite bind_run. unfold Sqs.send_message.
  destruct (sqs_fault w _) as [e|] eqn:E; [|by apply Hf in E].
  by eexists.
Qed.

(** A send that the transport accepts: the message is at the end of the
    fallback queue; the service returns [True], or [False] when the job
    has no [job_id] to log. *)
Lemma send_to_custom_crawler_queue_accepted job reason env :
  let body := if Py.truthy reason then QueueService.annotate job reason else job in
  sqs_fault w (SendMessage (custom_crawler_queue_url cfg) body) = None →
  ∃ (b : bool) (msg : string),
    QueueService.send_to_custom_crawler_queue w cfg job (Some reason) env
    = (Ok b,
       snd (log (if b then INFO else ERROR) msg
              (Sqs.set_queue (custom_crawler_queue_url cfg)
                 (Sqs.queue (custom_crawler_queue_url cfg) env
                  ++ [{| ReceiptHandle := pretty (sent env); Body := body |}])
                 (S (sent env)) env))).
Proof.
  intros body Hf. unfold QueueService.send_to_custom_crawler_queue, try_except.
  simpl. fold body. rewrite bind_run. unfold Sqs.send_message. rewrite Hf.
  rewrite bind_run. unfold getitem. destruct (body !! "job_id"); simpl.
  - by exists true; eexists.
  - by exists false; eexists.
Qed.

Lemma delete_message_accepted url receipt env :
  sqs_fault w (DeleteMessage url receipt) = None →
  Sqs.delete_message w url receipt env
  = (Ok (), Sqs.set_queue url
              (List.filter (λ m, negb (String.eqb (ReceiptHandle m) receipt))
                           (Sqs.queue url env)) (sent env) env).
Proof. intros H. unfold Sqs.delete_message. by rewrite H. Qed.

Lemma queue_set_queue_eq url q n env : Sqs.queue url (Sqs.set_queue url q n env) = q.
Proof. unfold Sqs.queue, Sqs.set_queue. simpl. by rewrite lookup_insert_eq. Qed.

Lemma queue_set_queue_ne url url' q n env :
  url ≠ url' → Sqs.queue url' (Sqs.set_queue url q n env) = Sqs.queue url' env.
Proof. intros H. unfold Sqs.queue, Sqs.set_queue. simpl. by rewrite lookup_insert_ne. Qed.

Lemma queue_log url lvl msg env : Sqs.queue url (snd (log lvl msg env)) = Sqs.queue url env.
Proof. done. Qed.

Lemma deleted_gone receipt (q : list Message) m :
  m ∈ List.filter (λ m, negb (String.eqb (ReceiptHandle m) receipt)) q →
  ReceiptHandle m ≠ receipt.
Proof.
  intros H. apply list_elem_of_In, filter_In in H as [_ H].
  apply negb_true_iff in H. by apply String.eqb_neq.
Qed.

Lemma deleted_sub receipt (q : list Message) m :
  m ∈ List.filter (λ m, negb (String.eqb (ReceiptHandle m) receipt)) q → m ∈ q.
Proof. intros H. by apply list_elem_of_In, filter_In in H as [H%list_elem_of_In _]. Qed.

(** What process_job does for a job that has the keys it reads: it
    returns, whatever the scraper does, and leaves the queues alone; a
    crawl that raised is reported as a failure with its message. *)
Lemma process_job_outcome scraper job job_id company_name website env :
  job !! "job_id" = Some job_id →
  job !! "company_name" = Some company_name →
  job !! "website" = Some website →
  ∃ ret env',
    FirecrawlWorker.process_job w scraper job env = (Ok ret, env')
    ∧ queues env' = queues env ∧ sent env' = sent env
    ∧ ∀ e, FirecrawlScraper.s_crawl_url scraper website = Raises e →
           ret = ScrapeFailed e.
Proof.
  intros H1 H2 H3. unfold FirecrawlWorker.process_job, getitem.
  rewrite H1, H2, H3.
  rewrite bind_run. simpl. rewrite bind_run. simpl. rewrite bind_run. simpl.
  rewrite bind_run. simpl. unfold try_except. rewrite bind_run. simpl.
  rewrite bind_run. unfold FirecrawlScraper.call_process_website. rewrite bind_run.
  match goal with
  | |- context [FirecrawlScraper.process_website ?a ?b ?c ?d ?e ?f ?g ?h ?env1] =>
      destruct (scraper_process_website_run a b c d e f g h env1)
        as (r & env2 & E & N & Q & S & Hr)
  end.
  rewrite E. destruct r as [results|e|]; [| |done]; simpl.
  - destruct (bool_decide _); simpl; eexists _, _; (split; [reflexivity|]);
      simpl; rewrite Q, S; (split_and!; try done);
      intros e He; by specialize (Hr e He).
  - eexists _, _. split; [reflexivity|]. simpl. rewrite Q, S. split_and!; try done.
    intros e' He. specialize (Hr e' He). by injection Hr as ->.
Qed.

End Handoff.

(** C10. In the tier-1 worker the first-tier message of a failed job is
    deleted whether or not the job was handed over: when the fallback
    queue refuses the send, send_to_custom_crawler_queue logs and returns
    [False], the worker goes on to delete the first-tier message, and no
    message is added to the fallback queue. *)
Theorem C10_deleted_without_handoff
    (w : World) (cfg : Config) (env : Env)
    (receipt reason : string) (job : gmap string string) :
  (∀ body, sqs_fault w (SendMessage (custom_crawler_queue_url cfg) body) ≠ None) →
  sqs_fault w (DeleteMessage (firecrawl_queue_url cfg) receipt) = None →
  let run := FirecrawlWorker.handle_future w cfg (Ok (ScrapeFailed reason), receipt, job) env in
  fst (QueueService.send_to_custom_crawler_queue w cfg job (Some reason) env) = Ok false
  ∧ fst run = Ok ()
  ∧ (∀ m, m ∈ Sqs.queue (firecrawl_queue_url cfg) (snd run) → ReceiptHandle m ≠ receipt)
  ∧ (∀ m, m ∈ Sqs.queue (custom_crawler_queue_url cfg) (snd run) →
          m ∈ Sqs.queue (custom_crawler_queue_url cfg) env)
  ∧ sent (snd run) = sent env.
Proof.
  intros Hsend Hdel run.
  destruct (send_to_custom_crawler_queue_refused w cfg job (Some reason) env Hsend)
    as [msg Es].
  assert (Hrun : run = (Ok (), Sqs.set_queue (firecrawl_queue_url cfg)
             (List.filter (λ m, negb (String.eqb (ReceiptHandle m) receipt))
                (Sqs.queue (firecrawl_queue_url cfg) env)) (sent env)
             (snd (log ERROR msg env)))).
  { subst run. unfold FirecrawlWorker.handle_future, try_except, future_result.
    rewrite !bind_run, Es. simpl.
    by rewrite (delete_message_accepted w _ _ _ Hdel). }
  rewrite Hrun, Es. simpl. split_and!; try done.
  - intros m. rewrite queue_set_queue_eq. apply deleted_gone.
  - intros m. destruct (decide (firecrawl_queue_url cfg = custom_crawler_queue_url cfg)) as [<-|Hne].
    + rewrite queue_set_queue_eq. apply deleted_sub.
    + by rewrite queue_set_queue_ne.
Qed.

(** A failed job whose hand-off is refused: after the worker's turn both
    queues are empty. *)
Lemma C10_witness :
  let message := {| ReceiptHandle := "rh-1";
                    Body := Toy.job "j1" "https://down.example/" |} in
  let env := Toy.env_with "https://sqs.example/firecrawl" message in
  let run := FirecrawlWorker.handle_future Toy.world_send_fails Toy.config
               (Ok (ScrapeFailed "Payment Required"), "rh-1", Body message) env in
  fst run = Ok ()
  ∧ (∀ m, m ∈ Sqs.queue "https://sqs.example/firecrawl" (snd run) →
          ReceiptHandle m ≠ "rh-1")
  ∧ (∀ m, m ∈ Sqs.queue "https://sqs.example/custom" (snd run) →
          m ∈ Sqs.queue "https://sqs.example/custom" env).
Proof.
  intros message env run.
  destruct (C10_deleted_without_handoff Toy.world_send_fails Toy.config env "rh-1"
              "Payment Required" (Body message)) as (_ & H1 & H2 & H3 & _).
  - intros body. simpl. discriminate.
  - reflexivity.
  - split; [exact H1|]. split; [exact H2|exact H3].
Defined.

(** A failed job whose hand-off the transport accepts, and a job that
    succeeded. For a failed job with a non-empty reason and an accepted
    send, the message appended to the fallback queue is the job with
    [firecrawl_failure_reason] set to the reason and [status] set to
    [firecrawl_failed], its other fields unchanged; for a successful job
    nothing is sent. In both cases the first-tier message is then deleted
    (the transport accepting the delete). *)
Lemma accepted_handoff_forwards_annotated_job
    (w : World) (cfg : Config) (env : Env)
    (receipt job_id : string) (job : gmap string string) :
  firecrawl_queue_url cfg ≠ custom_crawler_queue_url cfg →
  job !! "job_id" = Some job_id →
  sqs_fault w (DeleteMessage (firecrawl_queue_url cfg) receipt) = None →
  (∀ reason,
     Py.truthy reason = true →
     sqs_fault w (SendMessage (custom_crawler_queue_url cfg)
                    (QueueService.annotate job reason)) = None →
     let run := FirecrawlWorker.handle_future w cfg
                  (Ok (ScrapeFailed reason), receipt, job) env in
     let forwarded := QueueService.annotate job reason in
     fst run = Ok ()
     ∧ Sqs.queue (custom_crawler_queue_url cfg) (snd run)
       = (Sqs.queue (custom_crawler_queue_url cfg) env
          ++ [{| ReceiptHandle := pretty (sent env); Body := forwarded |}])%list
     ∧ forwarded !! "job_id" = Some job_id
     ∧ forwarded !! "firecrawl_failure_reason" = Some reason
     ∧ forwarded !! "status" = Some "firecrawl_failed"
     ∧ (∀ key, key ≠ "status" → key ≠ "firecrawl_failure_reason" →
               forwarded !! key = job !! key)
     ∧ ∀ m, m ∈ Sqs.queue (firecrawl_queue_url cfg) (snd run) →
            ReceiptHandle m ≠ receipt)
  ∧ (∀ results,
       let run := FirecrawlWorker.handle_future w cfg
                    (Ok (Scraped results), receipt, job) env in
       fst run = Ok ()
       ∧ Sqs.queue (custom_crawler_queue_url cfg) (snd run)
         = Sqs.queue (custom_crawler_queue_url cfg) env
       ∧ sent (snd run) = sent env
       ∧ ∀ m, m ∈ Sqs.queue (firecrawl_queue_url cfg) (snd run) →
              ReceiptHandle m ≠ receipt).
Proof.
  intros Hne Hid Hdel. split_and!.
  - intros reason Hr Hsend run forwarded.
    destruct (send_to_custom_crawler_queue_accepted w cfg job reason env) as (b & msg & Es).
    { by rewrite Hr. }
    rewrite Hr in Es. fold forwarded in Es.
    assert (Hrun : ∃ env1, run = (Ok (), Sqs.set_queue (firecrawl_queue_url cfg)
               (List.filter (λ m, negb (String.eqb (ReceiptHandle m) receipt))
                  (Sqs.queue (firecrawl_queue_url cfg) env1)) (sent env1) env1)
             ∧ Sqs.queue (custom_crawler_queue_url cfg) env1
               = (Sqs.queue (custom_crawler_queue_url cfg) env
                  ++ [{| ReceiptHandle := pretty (sent env); Body := forwarded |}])%list).
    { eexists. split.
      - subst run. unfold FirecrawlWorker.handle_future, try_except, future_result.
        rewrite !bind_run, Es. simpl.
        by rewrite (delete_message_accepted w _ _ _ Hdel).
      - unfold Sqs.queue. simpl. by rewrite lookup_insert_eq. }
    destruct Hrun as (env1 & -> & Hq). simpl. split_and!; try done.
    + by rewrite queue_set_queue_ne.
    + unfold forwarded, QueueService.annotate.
      by rewrite !lookup_insert_ne.
    + unfold forwarded, QueueService.annotate.
      rewrite lookup_insert_ne by done. apply lookup_insert_eq.
    + apply lookup_insert_eq.
    + intros key H1 H2. unfold forwarded, QueueService.annotate.
      by rewrite !lookup_insert_ne.
    + intros m. rewrite queue_set_queue_eq. apply deleted_gone.
  - intros results run.
    assert (Hrun : run = (Ok (), Sqs.set_queue (firecrawl_queue_url cfg)
               (List.filter (λ m, negb (String.eqb (ReceiptHandle m) receipt))
                  (Sqs.queue (firecrawl_queue_url cfg) env)) (sent env) env)).
    { subst run. unfold FirecrawlWorker.handle_future, try_except, future_result.
      rewrite !bind_run. simpl. by rewrite (delete_message_accepted w _ _ _ Hdel). }
    rewrite Hrun. simpl. split_and!; try done.
    + by rewrite queue_set_queue_ne.
    + intros m. rewrite queue_set_queue_eq. apply deleted_gone.
Qed.

(** C3. The claim does not hold of the code: a failed job can be lost.
    The job is [j1] for [https://down.example/], whose scrape raises, on
    a transport whose fallback queue refuses the send. process_job
    reports the failure with its reason; send_to_custom_crawler_queue
    catches the exception of the transport and returns [False]; the loop
    of the worker does not look at the flag and deletes the first-tier
    message. After the turn the job is on neither queue and nothing was
    ever sent, where the claim has its message, with the failure reason,
    on the fallback queue. *)
Theorem C3_failed_job_lost :
  let job := Toy.job "j1" "https://down.example/" in
  let env := Toy.env_with "https://sqs.example/firecrawl"
               {| ReceiptHandle := "rh-1"; Body := job |} in
  let run := FirecrawlWorker.run_once Toy.world_send_fails Toy.config Toy.scraper env in
  fst (FirecrawlWorker.process_job Toy.world_send_fails Toy.scraper job env)
  = Ok (ScrapeFailed "Payment Required")
  ∧ fst (QueueService.send_to_custom_crawler_queue Toy.world_send_fails Toy.config job
           (Some "Payment Required") env) = Ok false
  ∧ fst run = Ok ()
  ∧ Sqs.queue "https://sqs.example/custom" (snd run) = []
  ∧ Sqs.queue "https://sqs.example/firecrawl" (snd run) = []
  ∧ sent (snd run) = 0%nat.
Proof. vm_compute. done. Qed.

(** ** The tier-2 worker and the browser backend *)

Section Backend.

Variable w : World.
Variable cfg : Config.

Lemma setup_browser_unavailable env :
  String.eqb (browser_type cfg) "playwright" && PLAYWRIGHT_AVAILABLE w = false →
  String.eqb (browser_type cfg) "selenium" && SELENIUM_AVAILABLE w = false →
  CustomCrawler.setup_browser w cfg env
  = (Raised ("Browser type " ++ browser_type cfg ++ " not available or not supported"),
     env).
Proof. intros H1 H2. unfold CustomCrawler.setup_browser. by rewrite H1, H2. Qed.

(** Without a backend crawl_website raises at set-up, before its [try]. *)
Lemma crawl_website_unavailable fuel website company_name job_id env :
  String.eqb (browser_type cfg) "playwright" && PLAYWRIGHT_AVAILABLE w = false →
  String.eqb (browser_type cfg) "selenium" && SELENIUM_AVAILABLE w = false →
  ∃ env1 evs,
    CustomCrawler.crawl_website w cfg fuel website company_name job_id env
    = (Raised ("Browser type " ++ browser_type cfg ++ " not available or not supported"),
       env1)
    ∧ trace env1 = (trace env ++ evs)%list ∧ queues env1 = queues env
    ∧ sent env1 = sent env
    ∧ forallb (λ ev, negb (browser_event ev)) evs = true.
Proof.
  intros H1 H2. unfold CustomCrawler.crawl_website. rewrite bind_run. simpl.
  rewrite bind_run.
  set (enva := {| files := files env; queues := _; sent := _; trace := _ |}).
  assert (∃ rules evs envb,
    (if respect_robots_txt cfg then CustomCrawler.get_robots_txt_rules w website
     else mret []) enva = (Ok rules, envb)
    ∧ trace envb = (trace enva ++ evs)%list ∧ queues envb = queues enva
    ∧ sent envb = sent enva
    ∧ forallb (λ ev, negb (browser_event ev)) evs = true)
    as (rules & evs & envb & E & T & Q & S & F).
  { destruct (respect_robots_txt cfg).
    - unfold CustomCrawler.get_robots_txt_rules, try_except.
      rewrite bind_run. simpl. rewrite bind_run. unfold call.
      destruct (requests_get w _) as [resp|e]; simpl.
      + destruct (status_code resp =? 200); eexists _, [_], _; done.
      + eexists _, [_; _], _. split; [reflexivity|]. simpl. by rewrite <- app_assoc.
    - exists [], [], enva. by rewrite app_nil_r. }
  rewrite E, bind_run, (setup_browser_unavailable envb H1 H2).
  eexists envb, (_ :: evs). split; [done|]. split.
  { rewrite T. subst enva. simpl. by rewrite <- app_assoc. }
  by rewrite Q, S.
Qed.

(** A turn of the tier-2 worker loop never ends with an exception. *)
Lemma run_once_never_raises fuel env e :
  fst (CustomCrawlerWorker.run_once w cfg fuel env) ≠ Raised e.
Proof.
  unfold CustomCrawlerWorker.run_once, try_except.
  match goal with |- context [match ?m env with _ => _ end] =>
    destruct (m env) as [[[]|e'|] env1] end; done.
Qed.

End Backend.

(** C2, in the form the code satisfies.
    When the configured backend is not installed, or the
    configured browser type is not one of the two, nothing fails at
    start-up: the worker takes the job, set-up raises inside
    crawl_website, process_job catches the exception and reports that job
    as failed with the reason; the message is then deleted and the turn
    of the worker loop ends normally. No turn of the worker loop ends
    with an exception. *)
Theorem C2_unavailable_backend_fails_each_job
    (w : World) (cfg : Config) (fuel : nat) (env : Env)
    (receipt job_id company_name website : string) (job : gmap string string) :
  String.eqb (browser_type cfg) "playwright" && PLAYWRIGHT_AVAILABLE w = false →
  String.eqb (browser_type cfg) "selenium" && SELENIUM_AVAILABLE w = false →
  job !! "job_id" = Some job_id →
  job !! "company_name" = Some company_name →
  job !! "website" = Some website →
  sqs_fault w (DeleteMessage (custom_crawler_queue_url cfg) receipt) = None →
  let message := {| ReceiptHandle := receipt; Body := job |} in
  fst (CustomCrawlerWorker.process_job w cfg fuel job env)
  = Ok (CrawlFailed ("Browser type " ++ browser_type cfg
                     ++ " not available or not supported"))
  ∧ fst (CustomCrawlerWorker.handle_message w cfg fuel message env) = Ok ()
  ∧ (∀ m, m ∈ Sqs.queue (custom_crawler_queue_url cfg)
                 (snd (CustomCrawlerWorker.handle_message w cfg fuel message env)) →
          ReceiptHandle m ≠ receipt)
  ∧ (∀ fuel' env' e, fst (CustomCrawlerWorker.run_once w cfg fuel' env') ≠ Raised e).
Proof.
  intros H1 H2 Hid Hcn Hws Hdel message.
  assert (process_job_unavailable : ∀ env, ∃ env1,
    CustomCrawlerWorker.process_job w cfg fuel job env
    = (Ok (CrawlFailed ("Browser type " ++ browser_type cfg
                        ++ " not available or not supported")), env1)
    ∧ queues env1 = queues env ∧ sent env1 = sent env).
  { clear env. intros env. unfold CustomCrawlerWorker.process_job, getitem. rewrite Hid, Hcn, Hws.
    unfold try_except, mbind, M_bind, mret, M_ret, log, emit. simpl.
    match goal with
    | |- context [CustomCrawler.crawl_website w cfg fuel website company_name job_id ?enva] =>
        destruct (crawl_website_unavailable w cfg fuel website company_name job_id
                    enva H1 H2) as (env1 & evs & E & T & Q & S & _)
    end.
    rewrite E. simpl. eexists. split; [reflexivity|]. simpl. by rewrite Q, S. }
  destruct (process_job_unavailable env) as (env1 & Ep & Q & S).
  assert (Hh : ∃ env2,
    CustomCrawlerWorker.handle_message w cfg fuel message env
    = (Ok (), snd (log INFO "Processed and deleted message from custom crawler queue"
                     (Sqs.set_queue (custom_crawler_queue_url cfg)
                        (List.filter (λ m, negb (String.eqb (ReceiptHandle m) receipt))
                           (Sqs.queue (custom_crawler_queue_url cfg) env2))
                        (sent env2) env2)))).
  { destruct (process_job_unavailable (snd (log INFO "Processing message" env)))
      as (env2 & Ep2 & _).
    exists env2. unfold CustomCrawlerWorker.handle_message.
    rewrite bind_run. simpl. rewrite bind_run. simpl in Ep2. rewrite Ep2.
    rewrite bind_run, (delete_message_accepted w _ _ _ Hdel). done. }
  destruct Hh as (env2 & Eh).
  split_and!.
  - by rewrite Ep.
  - rewrite Eh. done.
  - rewrite Eh. simpl. intros m. unfold Sqs.queue at 1. simpl.
    rewrite lookup_insert_eq. simpl. apply deleted_gone.
  - intros. apply run_once_never_raises.
Qed.

(** A worker whose configured backend is not installed takes a job. *)
Lemma C2_witness :
  let job := Toy.job "j1" Toy.root in
  let env := Toy.env_with "https://sqs.example/custom"
               {| ReceiptHandle := "rh-1"; Body := job |} in
  fst (CustomCrawlerWorker.process_job Toy.world_no_browser Toy.config 20 job env)
  = Ok (CrawlFailed "Browser type playwright not available or not supported")
  ∧ fst (CustomCrawlerWorker.handle_message Toy.world_no_browser Toy.config 20
           {| ReceiptHandle := "rh-1"; Body := job |} env) = Ok ().
Proof.
  intros job env.
  destruct (C2_unavailable_backend_fails_each_job Toy.world_no_browser Toy.config 20
              env "rh-1" "j1" "acme" Toy.root job) as (H1 & H2 & _);
    [reflexivity..|].
  split; [exact H1|exact H2].
Defined.

(** C2 as stated fails: the configured backend is not installed, and yet
    the worker's turn takes the job from the queue, marks it failed for
    that reason, deletes its message and ends normally. *)
Lemma C2_counterexample :
  let job := Toy.job "j1" Toy.root in
  let env := Toy.env_with "https://sqs.example/custom"
               {| ReceiptHandle := "rh-1"; Body := job |} in
  let run := CustomCrawlerWorker.run_once Toy.world_no_browser Toy.config 20 env in
  browser_type Toy.config = "playwright"
  ∧ PLAYWRIGHT_AVAILABLE Toy.world_no_browser = false
  ∧ fst (CustomCrawlerWorker.process_job Toy.world_no_browser Toy.config 20 job env)
    = Ok (CrawlFailed "Browser type playwright not available or not supported")
  ∧ fst run = Ok ()
  ∧ Sqs.queue "https://sqs.example/custom" (snd run) = []
  ∧ EvLog ERROR ("Error processing job j1 with custom crawler: "
                 ++ "Browser type playwright not available or not supported")
    ∈ trace (snd run).
Proof.
  vm_compute. split_and!; try done. repeat constructor.
Qed.

(** ** The text extraction *)




(** ** The example site, run *)

(** get_robots_txt_rules reads the one rule of the site's robots file. *)
Example robots_rules_of_site :
  fst (CustomCrawler.get_robots_txt_rules Toy.world Toy.root Toy.env0)
  = Ok Toy.rules.
Proof. vm_compute. reflexivity. Qed.

(** The link extractor lists the document links of the root page twice. *)
Example extract_links_lists_documents_twice :
  Spec.links_found Toy.world Toy.page_root Toy.root
  = Ok ["https://a.example/x"; "https://a.example/y"; "https://other.example/z";
        "https://other.example/z.pdf"; "https://a.example/spec.pdf";
        "https://a.example/bad.pdf"; "https://a.example/private/report";
        "https://a.example/x";
        "https://other.example/z.pdf"; "https://a.example/spec.pdf";
        "https://a.example/bad.pdf"].
Proof. vm_compute. reflexivity. Qed.

(** Scenario A: with a budget of three pages the fetches are the root,
    [/x] and [/y], in that order. *)
Example scenario_A_traversal_order :
  fetched (trace (snd (CustomCrawler.crawl_website Toy.world Toy.config3 20 Toy.root
                         "acme" "j1" Toy.env0)))
  = ["https://a.example/"; "https://a.example/x"; "https://a.example/y"].
Proof. vm_compute. reflexivity. Qed.

(** Scenario D, second half: [bad.pdf] is answered with an HTML page;
    nothing is stored for it, a warning is logged, and the turn ends
    normally with an empty frontier. *)
Example scenario_D_wrong_content_type :
  let run := Spec.loop_body Toy.world Toy.config Toy.root "acme" "j1" Toy.rules
               Toy.browser
               (CustomCrawler.set_to_visit ["https://a.example/bad.pdf"] Toy.at_documents)
               Toy.env0 in
  (∃ c', fst run = Ok c' ∧ pdf_files c' = [] ∧ to_visit c' = [])
  ∧ files (snd run) = ∅
  ∧ last (trace (snd run))
    = Some (EvLog WARNING
              "Failed to download PDF from https://a.example/bad.pdf: Status code 200").
Proof.
  split_and!.
  - eexists. split; [vm_compute; reflexivity|]. split; reflexivity.
  - vm_compute. reflexivity.
  - vm_compute. reflexivity.
Qed.

(** A malformed link on the root page makes link extraction raise; the
    session is aborted and reported as a failure, and the browser is
    closed all the same. *)
Example aborted_session_closes_browser :
  let run := CustomCrawler.crawl_website Toy.world_bad_link Toy.config 20 Toy.root
               "acme" "j1" Toy.env0 in
  fst run = Ok (CrawlFailed "Invalid IPv6 URL")
  ∧ last (trace (snd run)) = Some (EvBrowserClose "playwright").
Proof. vm_compute. split; reflexivity. Qed.

(** * Further properties of the code *)

(** ** Robots rules *)

Lemma robots_line_truthy line P : P ∈ CustomCrawler.robots_line line → Py.truthy P = true.
Proof.
  unfold CustomCrawler.robots_line. destruct (Py.startswith _ _); [|by inversion 1].
  destruct (Py.after_first _ _) as [rest|]; [|by inversion 1].
  destruct (Py.truthy (Py.strip rest)) eqn:E; [|by inversion 1].
  intros H. apply list_elem_of_singleton in H as ->. done.
Qed.

Lemma prefix_of_empty P : Py.truthy P = true → String.prefix P "" = false.
Proof. by destruct P. Qed.

(** X1. get_robots_txt_rules never raises. When the request for the
    robots file raises, or is answered with a status other than 200, it
    returns the empty list and stores nothing; every URL is then allowed:
    a robots file that cannot be read restricts nothing. *)
Theorem robots_unreadable_allows_all (w : World) (cfg : Config) (website : string)
    (env : Env) :
  let robots_url := scheme (urlparse w website) ++ "://"
                    ++ netloc (urlparse w website) ++ "/robots.txt" in
  let run := CustomCrawler.get_robots_txt_rules w website env in
  (∃ rules, fst run = Ok rules)
  ∧ files (snd run) = files env
  ∧ (match requests_get w robots_url with
     | Raises _ => True
     | Returns response => status_code response ≠ 200
     end →
     fst run = Ok []
     ∧ ∀ url, CustomCrawler.is_allowed_url w cfg url [] = true).
Proof.
  intros robots_url run. subst run.
  unfold CustomCrawler.get_robots_txt_rules, try_except. fold robots_url.
  rewrite bind_run. simpl. rewrite bind_run. unfold call.
  destruct (requests_get w robots_url) as [resp|e]; simpl.
  - destruct (status_code resp =? 200) eqn:E; simpl.
    + split; [by eexists|]. split; [done|]. intros H. by apply Z.eqb_eq in E.
    + split; [by eexists|]. split; [done|]. intros _. split; [done|].
      intros url. unfold CustomCrawler.is_allowed_url.
      by rewrite bool_decide_eq_true_2, orb_true_r.
  - split; [by eexists|]. split; [done|]. intros _. split; [done|].
    intros url. unfold CustomCrawler.is_allowed_url.
    by rewrite bool_decide_eq_true_2, orb_true_r.
Qed.

(** The robots file of [other.example] is answered with 404. *)
Lemma robots_unreadable_allows_all_witness :
  fst (CustomCrawler.get_robots_txt_rules Toy.world "https://other.example/" Toy.env0)
  = Ok []
  ∧ ∀ url, CustomCrawler.is_allowed_url Toy.world Toy.config url [] = true.
Proof.
  apply (robots_unreadable_allows_all Toy.world Toy.config "https://other.example/"
           Toy.env0).
  vm_compute. discriminate.
Defined.

(** X2. Every rule that get_robots_txt_rules returns is a non-empty
    string; prefix matching against non-empty rules never matches an
    empty path, so a URL whose path is empty (a bare host) is allowed
    under every policy read from a robots file, [Disallow: /] included. *)
Theorem robots_rules_nonempty_and_bare_host_allowed
    (w : World) (cfg : Config) (website : string) (env : Env)
    (rules : list string) (env' : Env) :
  CustomCrawler.get_robots_txt_rules w website env = (Ok rules, env') →
  (∀ P, P ∈ rules → Py.truthy P = true)
  ∧ (∀ url, path (urlparse w url) = "" →
            CustomCrawler.is_allowed_url w cfg url rules = true).
Proof.
  intros Hrun.
  assert (Hne : ∀ P, P ∈ rules → Py.truthy P = true).
  { revert Hrun. unfold CustomCrawler.get_robots_txt_rules, try_except.
    rewrite bind_run. simpl. rewrite bind_run. unfold call.
    destruct (requests_get w _) as [resp|e]; simpl.
    - destruct (status_code resp =? 200); intros [= <- _] P HP; [|by inversion HP].
      apply list_elem_of_In, in_flat_map in HP as (line & _ & HP).
      apply list_elem_of_In in HP. by eapply robots_line_truthy.
    - intros [= <- _] P HP. inversion HP. }
  split; [done|]. intros url Hp. unfold CustomCrawler.is_allowed_url.
  destruct (negb _ || _); [done|]. rewrite Hp.
  apply negb_true_iff. apply not_true_is_false. intros H.
  apply existsb_exists in H as (P & HP & Hs). apply list_elem_of_In in HP.
  unfold Py.startswith in Hs. rewrite prefix_of_empty in Hs by auto. done.
Qed.

(** The site's policy and the bare host [https://a.example]. *)
Lemma robots_rules_nonempty_and_bare_host_allowed_witness :
  (∀ P, P ∈ Toy.rules → Py.truthy P = true)
  ∧ CustomCrawler.is_allowed_url Toy.world Toy.config "https://a.example" Toy.rules
    = true.
Proof.
  destruct (robots_rules_nonempty_and_bare_host_allowed Toy.world Toy.config Toy.root
              Toy.env0 Toy.rules
              (snd (CustomCrawler.get_robots_txt_rules Toy.world Toy.root Toy.env0)))
    as [H1 H2].
  - vm_compute. reflexivity.
  - split; [exact H1|]. apply H2. reflexivity.
Defined.

Lemma split_on_nonempty sep s : Py.split_on sep s ≠ [].
Proof.
  destruct s as [|c s]; simpl; [done|].
  destruct (Ascii.eqb c sep); [done|]. by destruct (Py.split_on sep s).
Qed.

Lemma split_on_app_sep sep a b :
  Py.split_on sep (a ++ String sep b) = (Py.split_on sep a ++ Py.split_on sep b)%list.
Proof.
  induction a as [|c a IH]; simpl.
  - by rewrite Ascii.eqb_refl.
  - destruct (Ascii.eqb c sep); [by rewrite IH|]. rewrite IH.
    pose proof (split_on_nonempty sep a). by destruct (Py.split_on sep a).
Qed.

(** X3. The rules read from a robots file are read line by line and put
    together: the rules of two texts joined by a newline are the rules of
    the first followed by the rules of the second. No line changes the
    reading of another, so the [Disallow] lines of every [User-agent]
    group apply. *)
Theorem robots_rules_line_by_line (w : World) (website : string) (env : Env)
    (response : Response) :
  requests_get w (scheme (urlparse w website) ++ "://"
                  ++ netloc (urlparse w website) ++ "/robots.txt")
  = Returns response →
  status_code response = 200 →
  fst (CustomCrawler.get_robots_txt_rules w website env)
  = Ok (flat_map CustomCrawler.robots_line (Py.split_on Re.LF (content response)))
  ∧ ∀ text1 text2,
      flat_map CustomCrawler.robots_line
        (Py.split_on Re.LF (text1 ++ String Re.LF text2))
      = (flat_map CustomCrawler.robots_line (Py.split_on Re.LF text1)
         ++ flat_map CustomCrawler.robots_line (Py.split_on Re.LF text2))%list.
Proof.
  intros Hget Hs. split.
  - unfold CustomCrawler.get_robots_txt_rules, try_except.
    rewrite bind_run. simpl. rewrite bind_run, Hget. simpl. by rewrite Hs.
  - intros text1 text2. by rewrite split_on_app_sep, flat_map_app.
Qed.

(** The robots file of the site: a [User-agent] line and one rule. *)
Lemma robots_rules_line_by_line_witness :
  fst (CustomCrawler.get_robots_txt_rules Toy.world Toy.root Toy.env0)
  = Ok (flat_map CustomCrawler.robots_line
          (Py.split_on Re.LF ("User-agent: *" ++ Toy.NL ++ "Disallow: /private/" ++ Toy.NL))).
Proof.
  apply (robots_rules_line_by_line Toy.world Toy.root Toy.env0
           {| status_code := 200; content_type := Some "text/plain";
              content := "User-agent: *" ++ Toy.NL ++ "Disallow: /private/" ++ Toy.NL |});
    reflexivity.
Defined.

(** ** Page and document fetches *)

(** X4. get_page_content never raises and never touches the store. It
    makes at most one navigation, to the URL it is given. The content it
    returns is the page the browser returned for that URL; when the
    browser raises, it returns [None]. *)
Theorem page_fetch_absorbs_errors (w : World) (url : string) (bc : BrowserContext)
    (env : Env) :
  let run := CustomCrawler.get_page_content w url bc env in
  (∃ content, fst run = Ok content
     ∧ (∀ page, content = Some page → browser_page w url = Returns page)
     ∧ (∀ e, browser_page w url = Raises e → content = None))
  ∧ files (snd run) = files env
  ∧ ∃ evs, trace (snd run) = (trace env ++ evs)%list
           ∧ (fetched evs = [] ∨ fetched evs = [url]).
Proof.
  intros run. subst run.
  destruct (get_page_content_run w url bc env) as (evs & env' & E & (T & _) & F & Hf).
  rewrite E. simpl. split; [|split; [done|by exists evs]].
  exists (Spec.page_of w bc url). split; [done|].
  unfold Spec.page_of, CustomCrawler.get_page_content, try_except.
  destruct (_ || _); [|by split].
  rewrite !bind_run. simpl. unfold call.
  destruct (browser_page w url) as [c|e]; simpl.
  - split; [by intros page [= <-]|done].
  - split; [done|done].
Qed.

(** A URL of the site that the browser cannot load. *)
Lemma page_fetch_absorbs_errors_witness :
  fst (CustomCrawler.get_page_content Toy.world "https://a.example/gone" Toy.browser
         Toy.env0) = Ok None.
Proof.
  destruct (page_fetch_absorbs_errors Toy.world "https://a.example/gone" Toy.browser
              Toy.env0) as ((content & E & _ & Hnone) & _).
  rewrite E. f_equal. apply (Hnone "net::ERR_NAME_NOT_RESOLVED"). reflexivity.
Defined.

(** X5. download_pdf never raises, and it touches no file but the one at
    the document path. A path it returns is the document path, which then
    holds the body of a response with status 200 and a PDF content type.
    When it returns [None] the store is as it was, unless the response
    was a PDF and the write broke off after the file had been opened: the
    file then holds what the broken write left. *)
Theorem download_returns_stored_file (w : World) (cfg : Config)
    (url company_name job_id : string) (env : Env) :
  let run := CustomCrawler.download_pdf w cfg url company_name job_id env in
  let filepath := CustomCrawler.pdf_filepath w cfg url company_name job_id in
  ∃ pdf_path, fst run = Ok pdf_path
    ∧ (∀ path, path ≠ filepath → files (snd run) !! path = files env !! path)
    ∧ match pdf_path with
      | Some returned =>
          returned = filepath
          ∧ ∃ response, requests_get w url = Returns response
              ∧ status_code response = 200
              ∧ Py.contains "application/pdf" (default "" (content_type response)) = true
              ∧ files (snd run) !! filepath = Some (content response)
      | None =>
          files (snd run) = files env
          ∨ ∃ response fault partial,
              requests_get w url = Returns response
              ∧ CustomCrawler.is_pdf_response response = true
              ∧ write_fault w filepath = Some fault
              ∧ wf_left fault = Some partial
              ∧ files (snd run) = <[filepath := partial]> (files env)
      end.
Proof.
  intros run filepath. subst run.
  destruct (requests_get w url) as [response|e] eqn:Hget.
  - rewrite (download_pdf_response w cfg company_name job_id url response env Hget).
    fold filepath.
    destruct (CustomCrawler.is_pdf_response response) eqn:Hp.
    + destruct (write_fault w filepath) as [fault|] eqn:Hw; simpl.
      * destruct (wf_left fault) as [partial|] eqn:Hl; simpl.
        -- eexists. split; [reflexivity|]. split.
           { intros path Hne. by rewrite lookup_insert_ne. }
           right. by exists response, fault, partial.
        -- eexists. split; [reflexivity|]. split; [done|]. by left.
      * eexists. split; [reflexivity|]. split.
        { intros path Hne. by rewrite lookup_insert_ne. }
        split; [done|]. exists response.
        unfold CustomCrawler.is_pdf_response in Hp. apply andb_prop in Hp as [H1 H2].
        apply Z.eqb_eq in H1. split_and!; try done. apply lookup_insert_eq.
    + eexists. split; [reflexivity|]. split; [done|]. by left.
  - unfold CustomCrawler.download_pdf, try_except. rewrite bind_run. simpl.
    rewrite bind_run, Hget. simpl. eexists. split; [reflexivity|]. split; [done|].
    by left.
Qed.

(** ** Stored pages *)

Lemma all_chars_app p a b :
  all_chars p (a ++ b) = all_chars p a && all_chars p b.
Proof. induction a as [|c a IH]; simpl; [done|]. by rewrite IH, andb_assoc. Qed.

Lemma sanitize_safe s : all_chars safe_char (Py.sanitize s) = true.
Proof.
  induction s as [|c s IH]; simpl; [done|]. rewrite IH, andb_true_r.
  unfold safe_char. destruct (Py.is_word c || Ascii.eqb c "-" || Ascii.eqb c ".") eqn:E; done.
Qed.

Lemma safe_not_rooted name :
  all_chars safe_char name = true → Py.startswith name "/" = false.
Proof.
  destruct name as [|c name]; [done|]. intros H. simpl in H.
  apply andb_prop in H as [H _].
  unfold Py.startswith.
  change (String.prefix "/" (String c name))
    with (if Ascii.ascii_dec "/" c then String.prefix "" name else false).
  destruct (Ascii.ascii_dec "/" c) as [<-|Hne]; [|done].
  vm_compute in H. discriminate.
Qed.

Lemma path_join_relative a b :
  Py.startswith b "/" = false →
  Py.path_join a b = a ++ b ∨ Py.path_join a b = a ++ "/" ++ b.
Proof.
  intros H. unfold Py.path_join. rewrite H. destruct (_ || _); auto.
Qed.

(** X6. save_html never raises, and it touches no file but the one it
    names, which lies directly in the company folder: the path is the
    folder, a separator if the folder lacks one, and a name made of
    letters, digits, [_], [-] and [.] only, so a name can neither leave
    the folder nor replace it. When the write succeeds it returns the
    path, with the page stored under it. When the write fails it returns
    [None]: the file is untouched if it was never opened, and holds what
    the broken write left if it was. *)
Theorem save_html_stores_under_safe_name (w : World) (cfg : Config)
    (content url company_name job_id : string) (env : Env) :
  let run := CustomCrawler.save_html w cfg content url company_name job_id env in
  let folder := Py.path_join (html_folder cfg) (company_name ++ "_" ++ job_id) in
  let filepath := CustomCrawler.html_filepath w cfg url company_name job_id in
  (∃ name, all_chars safe_char name = true
     ∧ (filepath = folder ++ name ∨ filepath = folder ++ "/" ++ name))
  ∧ (∀ path, path ≠ filepath → files (snd run) !! path = files env !! path)
  ∧ match write_fault w filepath with
    | None =>
        fst run = Ok (Some filepath)
        ∧ files (snd run) = <[filepath := content]> (files env)
    | Some fault =>
        fst run = Ok None
        ∧ files (snd run) = match wf_left fault with
                            | Some partial => <[filepath := partial]> (files env)
                            | None => files env
                            end
    end.
Proof.
  intros run folder filepath. split.
  - subst filepath folder. unfold CustomCrawler.html_filepath.
    set (p := if Py.truthy _ then _ else _).
    exists (Py.sanitize p ++ ".html").
    assert (S : all_chars safe_char (Py.sanitize p ++ ".html") = true).
    { by rewrite all_chars_app, sanitize_safe. }
    split; [done|]. by apply path_join_relative, safe_not_rooted.
  - subst run. unfold CustomCrawler.save_html, try_except.
    fold filepath. rewrite bind_run. unfold CustomCrawler.write_file.
    destruct (write_fault w filepath) as [fault|] eqn:Hw.
    + rewrite bind_run. destruct (wf_left fault) as [partial|]; simpl.
      * split; [|done]. intros path Hne. by rewrite lookup_insert_ne.
      * done.
    + simpl. split; [|done]. intros path Hne. by rewrite lookup_insert_ne.
Qed.

(** X7. convert_html_to_markdown on a path that is not in the store
    returns [None]: the read error is caught and logged, nothing is
    written and nothing is raised. *)
Theorem convert_missing_file_is_absorbed (w : World) (cfg : Config)
    (html_path : string) (env : Env) :
  files env !! html_path = None →
  let run := CustomCrawler.convert_html_to_markdown w cfg html_path env in
  fst run = Ok None ∧ files (snd run) = files env
  ∧ ∃ msg, trace (snd run) = (trace env ++ [EvLog ERROR msg])%list.
Proof.
  intros Hnone run. subst run.
  unfold CustomCrawler.convert_html_to_markdown, try_except.
  rewrite bind_run. unfold CustomCrawler.read_file. rewrite Hnone. simpl.
  split_and!; try done. by eexists.
Qed.

Lemma convert_missing_file_is_absorbed_witness :
  fst (CustomCrawler.convert_html_to_markdown Toy.world Toy.config
         "data/html/acme_j1/none.html" Toy.env0) = Ok None.
Proof.
  apply (convert_missing_file_is_absorbed Toy.world Toy.config
           "data/html/acme_j1/none.html" Toy.env0).
  reflexivity.
Defined.

(** X8. Saving a page and converting the saved file composes. When
    save_html returned a path, convert_html_to_markdown on that path
    never raises. When the Markdown file can be written it returns the
    Markdown path, which then holds the cleaned text of the page as it
    reads back from the saved file: the saved page, with [\r\n] and [\r]
    read as [\n], without its script, style, meta and link elements.
    When the write fails it returns [None], and the Markdown file is
    untouched if it was never opened and holds what the broken write left
    if it was. *)
Theorem saved_page_converts_to_its_text (w : World) (cfg : Config)
    (content url company_name job_id html_path : string) (env : Env) :
  let saved := CustomCrawler.save_html w cfg content url company_name job_id env in
  fst saved = Ok (Some html_path) →
  let conv := CustomCrawler.convert_html_to_markdown w cfg html_path (snd saved) in
  let md_path :=
    Py.path_join (Py.path_join (markdown_folder cfg) (Py.parent_name html_path))
                 (Py.stem html_path ++ ".md") in
  match write_fault w md_path with
  | None =>
      fst conv = Ok (Some md_path)
      ∧ files (snd conv) !! md_path
        = Some (CustomCrawler.html_to_markdown w
                  (soup_decompose w (Py.universal_newlines content)))
  | Some fault =>
      fst conv = Ok None
      ∧ files (snd conv) = match wf_left fault with
                           | Some partial => <[md_path := partial]> (files (snd saved))
                           | None => files (snd saved)
                           end
  end.
Proof.
  intros saved Hsaved conv md_path. subst saved conv.
  revert Hsaved. unfold CustomCrawler.save_html, try_except.
  rewrite bind_run. unfold CustomCrawler.write_file.
  destruct (write_fault w (CustomCrawler.html_filepath w cfg url company_name job_id))
    as [fault0|].
  { rewrite bind_run. by destruct (wf_left fault0). }
  simpl. intros [= <-].
  unfold CustomCrawler.convert_html_to_markdown, try_except.
  rewrite bind_run. unfold CustomCrawler.read_file. simpl.
  rewrite lookup_insert_eq. rewrite bind_run. fold md_path.
  unfold CustomCrawler.write_file.
  destruct (write_fault w md_path) as [fault|] eqn:Hw.
  - rewrite bind_run. by destruct (wf_left fault).
  - simpl. split; [done|]. apply lookup_insert_eq.
Qed.

(** A page with a Windows line end, saved and converted. *)
Lemma saved_page_converts_to_its_text_witness :
  let page := "<p>a" ++ String "013" Toy.NL ++ "b</p>" in
  let saved := CustomCrawler.save_html Toy.world Toy.config page
                 "https://a.example/y" "acme" "j1" Toy.env0 in
  let conv := CustomCrawler.convert_html_to_markdown Toy.world Toy.config
                "data/html/acme_j1/y.html" (snd saved) in
  fst conv = Ok (Some "data/markdown/acme_j1/y.md")
  ∧ files (snd conv) !! "data/markdown/acme_j1/y.md" = Some ("a" ++ Toy.NL ++ "b").
Proof.
  intros page saved conv.
  exact (saved_page_converts_to_its_text Toy.world Toy.config page
           "https://a.example/y" "acme" "j1" "data/html/acme_j1/y.html" Toy.env0
           eq_refl).
Defined.

Lemma split_on_no_sep sep s x :
  x ∈ Py.split_on sep s → all_chars (λ c, negb (Ascii.eqb c sep)) x = true.
Proof.
  revert x. induction s as [|c s IH]; simpl; intros x Hx.
  - apply list_elem_of_singleton in Hx as ->. done.
  - destruct (Ascii.eqb c sep) eqn:E.
    + apply elem_of_cons in Hx as [->|Hx]; [done|]. by apply IH.
    + destruct (Py.split_on sep s) as [|y ys].
      * apply list_elem_of_singleton in Hx as ->. simpl. by rewrite E.
      * apply elem_of_cons in Hx as [->|Hx].
        -- simpl. rewrite E. simpl. apply IH. left.
        -- apply IH. by right.
Qed.

Lemma last_elem_of {A : Type} (l : list A) (d : A) : l ≠ [] → List.last l d ∈ l.
Proof.
  induction l as [|a l IH]; [done|]. intros _. destruct l as [|b l]; [left|].
  right. by apply IH.
Qed.

Lemma pretty_N_go_chars (p : ascii → bool) :
  (∀ d, p (pretty_N_char d) = true) →
  ∀ x s, all_chars p s = true → all_chars p (pretty_N_go x s) = true.
Proof.
  intros Hp x. induction (N.lt_wf_0 x) as [x _ IH]. intros s Hs.
  assert (x = 0 ∨ 0 < x)%N as [->|Hx] by lia; [by rewrite pretty_N_go_0|].
  rewrite pretty_N_go_step by done. apply IH; [by apply N.div_lt|].
  simpl. by rewrite Hp, Hs.
Qed.

Lemma pretty_Z_no_slash (z : Z) :
  all_chars (λ c, negb (Ascii.eqb c "/")) (pretty z) = true.
Proof.
  assert (Hd : ∀ d, negb (Ascii.eqb (pretty_N_char d) "/") = true).
  { intros d. unfold pretty_N_char. by repeat case_match. }
  assert (Hn : ∀ n : N, all_chars (λ c, negb (Ascii.eqb c "/")) (pretty n) = true).
  { intros n. unfold pretty, pretty_N. case_decide; [done|].
    by apply pretty_N_go_chars. }
  destruct z as [|q|q]; [done|apply Hn|].
  change (pretty (Z.neg q)) with ("-" +:+ pretty (N.pos q)).
  simpl. apply Hn.
Qed.

Lemma no_slash_not_rooted name :
  all_chars (λ c, negb (Ascii.eqb c "/")) name = true → Py.startswith name "/" = false.
Proof.
  destruct name as [|c name]; [done|]. intros H. simpl in H.
  apply andb_prop in H as [H _]. unfold Py.startswith.
  change (String.prefix "/" (String c name))
    with (if Ascii.ascii_dec "/" c then String.prefix "" name else false).
  destruct (Ascii.ascii_dec "/" c) as [<-|Hne]; [|done].
  vm_compute in H. discriminate.
Qed.

(** X9. The file of a downloaded document lies directly in its company
    folder: the path is the folder, a separator if the folder lacks one,
    and a name without slash, which is the last segment of the URL's path
    or, when that segment is empty, [document_<time>.pdf]. *)
Theorem document_file_in_company_folder (w : World) (cfg : Config)
    (url company_name job_id : string) :
  let folder := Py.path_join (pdf_folder cfg) (company_name ++ "_" ++ job_id) in
  let filepath := CustomCrawler.pdf_filepath w cfg url company_name job_id in
  let name := CustomCrawler.pdf_filename w url in
  all_chars (λ c, negb (Ascii.eqb c "/")) name = true
  ∧ (filepath = folder ++ name ∨ filepath = folder ++ "/" ++ name)
  ∧ (name = List.last (Py.split_on "/" (path (urlparse w url))) ""
     ∨ List.last (Py.split_on "/" (path (urlparse w url))) "" = ""
       ∧ name = "document_" ++ pretty (time_now w) ++ ".pdf").
Proof.
  intros folder filepath name.
  assert (Hname : all_chars (λ c, negb (Ascii.eqb c "/")) name = true).
  { subst name. unfold CustomCrawler.pdf_filename.
    destruct (Py.truthy _).
    - unfold Py.basename. eapply split_on_no_sep, last_elem_of, split_on_nonempty.
    - change ("document_" ++ pretty (time_now w) ++ ".pdf")
        with ("document_" ++ (pretty (time_now w) ++ ".pdf")).
      by rewrite !all_chars_app, pretty_Z_no_slash. }
  split; [done|]. split.
  - by apply path_join_relative, no_slash_not_rooted.
  - subst name. unfold CustomCrawler.pdf_filename, Py.basename.
    destruct (Py.truthy _) eqn:E; [by left|right]. split; [|done].
    unfold Py.truthy in E. apply negb_false_iff in E. by apply String.eqb_eq in E.
Qed.

(** ** The text of a page *)

Lemma sub_spaces_head c s :
  Re.is_sp c = false →
  ∃ r, Re.sub_spaces (c :: s) = c :: r.
Proof. intros H. rewrite sub_spaces_cons, H. by eexists. Qed.

Lemma contains_cons sub c s :
  Py.contains sub (String c s) = String.prefix sub (String c s) || Py.contains sub s.
Proof. done. Qed.

Lemma no_double_space_sub_spaces (n : nat) : ∀ s, (List.length s ≤ n)%nat →
  Py.contains "  " (string_of_list_ascii (Re.sub_spaces s)) = false.
Proof.
  induction n as [|n IH]; intros s Hlen.
  - destruct s; [|simpl in Hlen; lia]. by simp sub_spaces.
  - destruct s as [|c s]; [by simp sub_spaces|]. simpl in Hlen.
    rewrite sub_spaces_cons. destruct (Re.is_sp c) eqn:Hc.
    + cbn [string_of_list_ascii]. rewrite contains_cons.
      rewrite IH. 2: { pose proof (drop_while_length s). lia. }
      rewrite orb_false_r.
      destruct (Re.drop_while Re.is_sp s) as [|d r] eqn:Hd.
      * by simp sub_spaces.
      * apply drop_while_head in Hd.
        destruct (sub_spaces_head d r Hd) as [r' ->].
        cbn [string_of_list_ascii].
        unfold Re.is_sp in Hd. apply Ascii.eqb_neq in Hd.
        change (String.prefix "  " (String Re.SP (String d (string_of_list_ascii r'))))
          with (if Ascii.ascii_dec " " Re.SP
                then (if Ascii.ascii_dec " " d
                      then String.prefix "" (string_of_list_ascii r') else false)
                else false).
        destruct (Ascii.ascii_dec " " Re.SP); [|done].
        destruct (Ascii.ascii_dec " " d) as [<-|]; [done|done].
    + cbn [string_of_list_ascii]. rewrite contains_cons.
      rewrite IH by lia. rewrite orb_false_r.
      unfold Re.is_sp in Hc. apply Ascii.eqb_neq in Hc.
      change (String.prefix "  " (String c (string_of_list_ascii (Re.sub_spaces s))))
        with (if Ascii.ascii_dec " " c
              then String.prefix " " (string_of_list_ascii (Re.sub_spaces s))
              else false).
      destruct (Ascii.ascii_dec " " c) as [<-|]; [done|done].
Qed.

Lemma prefix_app p : ∀ s, String.prefix p s = true → ∃ r, s = p ++ r.
Proof.
  induction p as [|a p IH]; intros s H; [by exists s|].
  destruct s as [|b s]; [done|]. simpl in H.
  destruct (Ascii.ascii_dec a b) as [->|]; [|done].
  destruct (IH s H) as [r ->]. by exists r.
Qed.

Lemma list_ascii_of_string_app a b :
  list_ascii_of_string (a ++ b)
  = (list_ascii_of_string a ++ list_ascii_of_string b)%list.
Proof. induction a as [|c a IH]; simpl; [done|]. by rewrite IH. Qed.

Lemma all_chars_forallb p s :
  all_chars p s = forallb p (list_ascii_of_string s).
Proof. induction s as [|c s IH]; simpl; [done|]. by rewrite IH. Qed.

Lemma run_has_nl_ws ws r :
  forallb Py.is_space ws = true → Re.run_has_nl (ws ++ Re.LF :: r) = true.
Proof.
  induction ws as [|c ws IH]; simpl; [done|].
  intros [Hc Hws]%andb_prop. rewrite Hc, IH by done. by rewrite orb_true_r.
Qed.

Lemma stable_no_blank_run t ws :
  Re.stable t = true → ws ≠ "" → all_chars Py.is_space ws = true →
  Py.contains (String Re.LF (ws ++ String Re.LF "")) (string_of_list_ascii t) = false.
Proof.
  intros Hst Hne Hws. induction t as [|c t IH]; [done|].
  simpl in Hst. apply andb_prop in Hst as [Hc Ht].
  cbn [string_of_list_ascii]. rewrite contains_cons, (IH Ht), orb_false_r.
  destruct (String.prefix _ _) eqn:Hp; [|done]. exfalso.
  apply prefix_app in Hp as [r Hr]. simpl in Hr. injection Hr as -> Hr.
  apply (f_equal list_ascii_of_string) in Hr.
  rewrite list_ascii_of_string_of_list_ascii in Hr.
  rewrite !list_ascii_of_string_app, <- app_assoc in Hr. simpl in Hr.
  rewrite all_chars_forallb in Hws.
  destruct (list_ascii_of_string ws) as [|d ws'] eqn:Hl.
  { destruct ws; [done|discriminate]. }
  unfold Re.nl_ok in Hc. simpl in Hc. subst t.
  rewrite (run_has_nl_ws (d :: ws') _ Hws) in Hc. simpl in Hc.
  simpl in Hws. apply andb_prop in Hws as [Hd Hws'].
  rewrite (run_has_nl_ws ws' _ Hws'), andb_false_r in Hc. done.
Qed.

(** X10. The text html_to_markdown returns holds no run of two spaces,
    and no newline followed by whitespace and another newline other than
    the pair of newlines that separates paragraphs: no blank line holds
    whitespace, and no three newlines follow each other. *)
Theorem markdown_whitespace_is_collapsed (w : World) (html_content : string) :
  let text := CustomCrawler.html_to_markdown w html_content in
  Py.contains "  " text = false
  ∧ ∀ ws, ws ≠ "" → all_chars Py.is_space ws = true →
      Py.contains (String Re.LF (ws ++ String Re.LF "")) text = false.
Proof.
  intros text. subst text. unfold CustomCrawler.html_to_markdown, Re.clean_whitespace.
  split.
  - by eapply no_double_space_sub_spaces.
  - intros ws Hne Hws. apply stable_no_blank_run; [|done|done].
    apply spaces_stable, blank_stable.
Qed.

(** Two line breaks with a space between them. *)
Lemma markdown_whitespace_is_collapsed_witness :
  Py.contains (String Re.LF (" " ++ String Re.LF ""))
    (CustomCrawler.html_to_markdown Toy.world "a<br> <br>b") = false.
Proof.
  apply (markdown_whitespace_is_collapsed Toy.world "a<br> <br>b").
  - discriminate.
  - reflexivity.
Defined.

(** ** Link extraction *)

Lemma join_all_ok (w : World) base hrefs env :
  (∀ href, href ∈ hrefs → ∃ u, urljoin w base href = Returns u) →
  ∃ urls, CustomCrawler.join_all w base hrefs env = (Ok urls, env)
    ∧ Forall2 (λ href u, urljoin w base href = Returns u) hrefs urls.
Proof.
  induction hrefs as [|h hrefs IH]; intros H; simpl.
  - exists []. split; [done|constructor].
  - destruct (H h) as [u Hu]; [left|].
    destruct IH as (urls & E & F). { intros href Hh. apply H. by right. }
    exists (u :: urls). rewrite bind_run, Hu. simpl. rewrite bind_run, E. simpl.
    split; [done|by constructor].
Qed.

Lemma join_all_raises (w : World) base hrefs env href e :
  href ∈ hrefs → urljoin w base href = Raises e →
  ∃ e', CustomCrawler.join_all w base hrefs env = (Raised e', env).
Proof.
  induction hrefs as [|h hrefs IH]; intros Hin Hr; [inversion Hin|]. simpl.
  rewrite bind_run. destruct (urljoin w base h) as [u|e0] eqn:Hu; simpl; [|by eexists].
  apply elem_of_cons in Hin as [->|Hin]; [congruence|].
  destruct (IH Hin Hr) as [e' E]. rewrite bind_run, E. by eexists.
Qed.

(** X11. extract_links is all or nothing. When every href of the page
    joins with the base URL, it returns the joined URL of every href in
    page order, followed by the joined URLs of the hrefs that end in
    [.pdf] once more. When one href makes [urljoin] raise, the call
    raises and no link of the page is returned. It leaves the store and
    the log alone. *)
Theorem extract_links_all_or_nothing (w : World) (content base_url : string)
    (env : Env) :
  let hrefs := soup_hrefs w content in
  let pdf_hrefs :=
    List.filter (λ href, Py.truthy href && Py.endswith (Py.lower href) ".pdf") hrefs in
  let run := CustomCrawler.extract_links w content base_url env in
  snd run = env
  ∧ ((∀ href, href ∈ hrefs → ∃ u, urljoin w base_url href = Returns u) →
     ∃ regular pdfs,
       fst run = Ok (regular ++ pdfs)%list
       ∧ Forall2 (λ href u, urljoin w base_url href = Returns u) hrefs regular
       ∧ Forall2 (λ href u, urljoin w base_url href = Returns u) pdf_hrefs pdfs)
  ∧ (∀ href e, href ∈ hrefs → urljoin w base_url href = Raises e →
     ∃ e', fst run = Raised e').
Proof.
  intros hrefs pdf_hrefs run. split_and!.
  - subst run. by rewrite (pure_extract_links w content base_url env).
  - intros Hall. subst run. unfold CustomCrawler.extract_links. fold hrefs. fold pdf_hrefs.
    destruct (join_all_ok w base_url hrefs env Hall) as (regular & E1 & F1).
    destruct (join_all_ok w base_url pdf_hrefs env) as (pdfs & E2 & F2).
    { intros href Hh. apply Hall. subst pdf_hrefs.
      apply list_elem_of_In, filter_In in Hh as [Hh _]. by apply list_elem_of_In. }
    exists regular, pdfs. rewrite bind_run, E1. simpl. rewrite bind_run, E2. done.
  - intros href e Hin Hr. subst run. unfold CustomCrawler.extract_links. fold hrefs.
    destruct (join_all_raises w base_url hrefs env href e Hin Hr) as [e' E].
    rewrite bind_run, E. by eexists.
Qed.

(** The root page with the malformed link. *)
Lemma extract_links_all_or_nothing_witness :
  ∃ e, fst (CustomCrawler.extract_links Toy.world
              "<a href='/x'>x</a> <a href='http://[bad'>broken</a>" Toy.root Toy.env0)
       = Raised e.
Proof.
  destruct (extract_links_all_or_nothing Toy.world
              "<a href='/x'>x</a> <a href='http://[bad'>broken</a>" Toy.root Toy.env0)
    as (_ & _ & H).
  apply (H "http://[bad" "Invalid IPv6 URL").
  - vm_compute. right. left.
  - reflexivity.
Defined.

(** ** The traversal, further *)

Section Traversal.

Variable w : World.
Variable cfg : Config.
Variables website company_name job_id : string.
Variable disallowed_paths : list string.
Variable bc : BrowserContext.

Local Abbreviation loop_body :=
  (Spec.loop_body w cfg website company_name job_id disallowed_paths bc).
Local Abbreviation consider_link := (Spec.consider_link w cfg website disallowed_paths).
Local Abbreviation allowed := (Spec.allowed w cfg disallowed_paths).
Local Abbreviation skipped := (Spec.skipped w cfg disallowed_paths).
Local Abbreviation reaches :=
  (Spec.reaches w cfg website company_name job_id disallowed_paths bc).
Local Abbreviation reachable := (Spec.reachable w cfg website disallowed_paths bc).

(** One turn keeps the frontier at the end of the insertion history. *)
Lemma fifo_step env0 c env c1 env1 :
  loop_body c env = (Ok c1, env1) →
  (∃ popped evs, enqueued c = (popped ++ to_visit c)%list
     ∧ trace env = (trace env0 ++ evs)%list ∧ fetched evs `sublist_of` popped) →
  ∃ popped evs, enqueued c1 = (popped ++ to_visit c1)%list
     ∧ trace env1 = (trace env0 ++ evs)%list ∧ fetched evs `sublist_of` popped.
Proof.
  intros Hb (popped & evs & He & Ht & Hs). apply loop_body_summary in Hb.
  destruct (to_visit c) as [|u rest] eqn:Htv; [by destruct Hb|].
  destruct (Spec.skipped w cfg disallowed_paths c u).
  - destruct Hb as [[= ->] ->]. exists (popped ++ [u])%list, evs. simpl.
    rewrite He, <- app_assoc. split_and!; try done. by apply sublist_inserts_r.
  - destruct Hb as (evs' & (T & _) & Hf & Hx).
    destruct (Spec.expansion w bc u) as [links|e|]; [|done|done].
    destruct Hx as (c' & [= ->] & (_ & Htv' & _ & Henq) & _).
    destruct (fold_consider_spec w cfg website disallowed_paths links
                (CustomCrawler.mark_visited u rest c)) as (new & _ & _ & Ht2 & He2 & _).
    simpl in Ht2, He2.
    exists (popped ++ [u])%list, (evs ++ evs')%list.
    rewrite Henq, He2, Htv', Ht2, He, T, Ht, <- !app_assoc. split_and!; try done.
    rewrite fetched_app. destruct Hf as [-> | ->].
    + rewrite app_nil_r. by apply sublist_inserts_r.
    + by apply sublist_app.
Qed.

Lemma fifo_reaches env0 c env c' env' :
  reaches c env c' env' →
  (∃ popped evs, enqueued c = (popped ++ to_visit c)%list
     ∧ trace env = (trace env0 ++ evs)%list ∧ fetched evs `sublist_of` popped) →
  ∃ popped evs, enqueued c' = (popped ++ to_visit c')%list
     ∧ trace env' = (trace env0 ++ evs)%list ∧ fetched evs `sublist_of` popped.
Proof.
  induction 1 as [|c env c1 env1 c2 env2 Hc Hb _ IH]; [done|].
  intros H. apply IH. by eapply fifo_step.
Qed.

(** One turn keeps the visited URLs, and the queued ones apart from the
    root, inside the link graph. *)
Lemma graph_step c env c1 env1 :
  loop_body c env = (Ok c1, env1) →
  (∀ u, u ∈ visited_urls c → reachable u)
  ∧ (∀ u, u ∈ to_visit c → u = website ∨ reachable u) →
  (∀ u, u ∈ visited_urls c1 → reachable u)
  ∧ (∀ u, u ∈ to_visit c1 → u = website ∨ reachable u).
Proof.
  intros Hb [Hv Ht]. apply loop_body_summary in Hb.
  destruct (to_visit c) as [|u rest] eqn:Htv; [by destruct Hb|].
  destruct (Spec.skipped w cfg disallowed_paths c u) eqn:Hskip.
  - destruct Hb as [[= ->] ->]. simpl. split; [done|].
    intros v Hin. apply Ht. by right.
  - destruct Hb as (evs' & _ & _ & Hx).
    destruct (Spec.expansion w bc u) as [links|e|] eqn:Hexp; [|done|done].
    destruct Hx as (c' & [= ->] & (Hvis & Htv' & _ & _) & _).
    destruct (fold_consider_spec w cfg website disallowed_paths links
                (CustomCrawler.mark_visited u rest c))
      as (new & Hv2 & _ & Ht2 & _ & _ & Hnew & _).
    simpl in Hv2, Ht2, Hnew.
    unfold Spec.skipped in Hskip. apply orb_false_elim in Hskip as [_ Ha].
    apply negb_false_iff in Ha.
    assert (Hu : reachable u).
    { destruct (Ht u) as [->|H]; [left| |done]. by constructor. }
    rewrite Hvis, Hv2, Htv', Ht2. split.
    + intros v [->%elem_of_singleton|Hin]%elem_of_union; [done|by apply Hv].
    + intros v [Hin|Hin]%elem_of_app.
      * apply Ht. by right.
      * right. destruct (Hnew v Hin) as (Hl & _ & _ & Hd & Hal).
        by eapply Spec.reachable_link.
Qed.

Lemma graph_reaches c env c' env' :
  reaches c env c' env' →
  (∀ u, u ∈ visited_urls c → reachable u)
  ∧ (∀ u, u ∈ to_visit c → u = website ∨ reachable u) →
  (∀ u, u ∈ visited_urls c' → reachable u)
  ∧ (∀ u, u ∈ to_visit c' → u = website ∨ reachable u).
Proof.
  induction 1 as [|c env c1 env1 c2 env2 Hc Hb _ IH]; [done|].
  intros H. apply IH. by eapply graph_step.
Qed.

Lemma fold_consider_files links : ∀ c,
  html_files (fold_left consider_link links c) = html_files c
  ∧ markdown_files (fold_left consider_link links c) = markdown_files c.
Proof.
  induction links as [|l links IH]; intros c; simpl; [done|].
  destruct (IH (consider_link c l)) as [-> ->].
  unfold Spec.consider_link, CustomCrawler.consider_link.
  by destruct (CustomCrawler.wanted _ _ _ _ _ _).
Qed.

(** What the page branch of a turn adds to the result lists. *)
Lemma crawl_page_files u c env c1 env1 :
  CustomCrawler.crawl_page w cfg website company_name job_id disallowed_paths bc u c env
  = (Ok c1, env1) →
  pdf_files c1 = pdf_files c ∧ page_count c1 = page_count c
  ∧ ((html_files c1 = html_files c ∧ markdown_files c1 = markdown_files c)
     ∨ ∃ h, html_files c1 = (html_files c ++ [h])%list
            ∧ (markdown_files c1 = markdown_files c
               ∨ ∃ m, markdown_files c1 = (markdown_files c ++ [m])%list)).
Proof.
  unfold CustomCrawler.crawl_page. rewrite bind_run.
  destruct (get_page_content_run w u bc env) as (evs & env2 & E & _). rewrite E.
  destruct (negb _); [intros [= <- <-]; auto|].
  rewrite bind_run.
  destruct (benign_save_html w cfg (default "" (Spec.page_of w bc u)) u company_name
              job_id env2) as (hp & evs3 & env3 & E3 & _). rewrite E3.
  rewrite bind_run.
  assert (Hfold : ∀ c0 env0,
    (links ← CustomCrawler.extract_links w (default "" (Spec.page_of w bc u)) u;
     mret (fold_left (CustomCrawler.consider_link w cfg website disallowed_paths) links c0))
      env0 = (Ok c1, env1) →
    pdf_files c1 = pdf_files c0 ∧ page_count c1 = page_count c0
    ∧ html_files c1 = html_files c0 ∧ markdown_files c1 = markdown_files c0).
  { intros c0 env0. rewrite bind_run.
    destruct (CustomCrawler.extract_links _ _ _ _) as [[links|e|] env4]; [|done|done].
    intros [= <- <-].
    destruct (fold_consider_spec w cfg website disallowed_paths links c0)
      as (new & _ & Hp & _).
    destruct (fold_consider_files links c0) as [Hh Hm].
    pose proof (fold_consider_pdf_files w cfg website disallowed_paths links c0) as Hpdf.
    done. }
  destruct (Py.truthy_opt hp).
  - rewrite bind_run.
    destruct (benign_convert_html_to_markdown w cfg (default "" hp) env3)
      as (mp & evs4 & env4 & E4 & _). rewrite E4.
    destruct (Py.truthy_opt mp); simpl; intros H; apply Hfold in H as (-> & -> & -> & ->);
      simpl; split_and!; try done; right; eexists; split; try done.
    + right. by eexists.
    + by left.
  - simpl. intros H. apply Hfold in H as (-> & -> & -> & ->). auto.
Qed.

(** One turn adds at most one document or page file, and then counts one
    page; a Markdown file only together with a page file. *)
Lemma files_step c env c1 env1 :
  loop_body c env = (Ok c1, env1) →
  Z.of_nat (List.length (pdf_files c) + List.length (html_files c)) ≤ page_count c
  ∧ (List.length (markdown_files c) ≤ List.length (html_files c))%nat →
  Z.of_nat (List.length (pdf_files c1) + List.length (html_files c1)) ≤ page_count c1
  ∧ (List.length (markdown_files c1) ≤ List.length (html_files c1))%nat.
Proof.
  unfold Spec.loop_body, CustomCrawler.loop_body.
  destruct (to_visit c) as [|u rest]; [done|].
  destruct (_ || _); [by intros [= <- <-]|].
  rewrite bind_run. simpl.
  destruct (Py.endswith (Py.lower u) ".pdf").
  - rewrite bind_run.
    destruct (download_pdf_run w cfg u company_name job_id
                {| files := files env; queues := queues env; sent := sent env;
                   trace := (trace env ++
                     [EvLog INFO ("Crawling page " ++ pretty (page_count c + 1) ++ "/"
                                  ++ pretty (max_pages cfg) ++ ": " ++ u)])%list |})
      as (p & evs & env2 & E & _).
    rewrite E. destruct (Py.truthy_opt p); intros [= <- <-]; simpl;
      rewrite ?length_app; simpl; lia.
  - intros H. apply crawl_page_files in H as (Hp & Hc & H). simpl in Hp, Hc.
    rewrite Hp, Hc.
    destruct H as [[-> ->]|(h & -> & [->|(m & ->)])]; simpl;
      rewrite ?length_app; simpl; lia.
Qed.

Lemma files_reaches c env c' env' :
  reaches c env c' env' →
  Z.of_nat (List.length (pdf_files c) + List.length (html_files c)) ≤ page_count c
  ∧ (List.length (markdown_files c) ≤ List.length (html_files c))%nat →
  Z.of_nat (List.length (pdf_files c') + List.length (html_files c')) ≤ page_count c'
  ∧ (List.length (markdown_files c') ≤ List.length (html_files c'))%nat.
Proof.
  induction 1 as [|c env c1 env1 c2 env2 Hc Hb _ IH]; [done|].
  intros H. apply IH. by eapply files_step.
Qed.

End Traversal.

Lemma init_on_frontier (website : string) (env0 : Env) :
  ∃ popped evs,
    enqueued (CustomCrawler.init_crawl website)
    = (popped ++ to_visit (CustomCrawler.init_crawl website))%list
    ∧ trace env0 = (trace env0 ++ evs)%list ∧ fetched evs `sublist_of` popped.
Proof. exists [], []. by rewrite app_nil_r. Qed.

(** X12. The frontier is a first-in, first-out queue. At every point of
    the loop the URLs ever put on the frontier are, in insertion order,
    those already popped followed by the frontier as it stands; and the
    URLs fetched so far are, in fetch order, popped URLs in the order of
    their insertion: pages and documents are fetched in the order in
    which they were first discovered. *)
Theorem frontier_first_in_first_out
    (w : World) (cfg : Config) (website company_name job_id : string)
    (disallowed_paths : list string) (bc : BrowserContext) (env0 : Env)
    (c : Crawl) (env : Env) :
  Spec.reaches w cfg website company_name job_id disallowed_paths bc
    (CustomCrawler.init_crawl website) env0 c env →
  ∃ popped evs,
    enqueued c = (popped ++ to_visit c)%list
    ∧ trace env = (trace env0 ++ evs)%list
    ∧ fetched evs `sublist_of` popped.
Proof.
  intros R. eapply fifo_reaches; [exact R|]. apply init_on_frontier.
Qed.

(** The example crawl at its end. *)
Lemma frontier_first_in_first_out_witness :
  ∃ popped evs,
    enqueued Toy.end_crawl = (popped ++ to_visit Toy.end_crawl)%list
    ∧ trace Toy.end_env = (trace Toy.env0 ++ evs)%list
    ∧ fetched evs `sublist_of` popped.
Proof.
  apply (frontier_first_in_first_out Toy.world Toy.config Toy.root "acme" "j1"
           Toy.rules Toy.browser Toy.env0).
  apply (crawl_loop_reaches Toy.world Toy.config Toy.root "acme" "j1" Toy.rules
           Toy.browser 20).
  vm_compute. reflexivity.
Defined.

(** X13. Every visited URL yields at most one stored file. At every
    point of the loop the documents and pages stored so far are together
    at most [page_count], and the Markdown files are at most the pages;
    so in the result of a session [pdf_files] and [html_files] together
    are no longer than [pages_crawled], and [markdown_files] is no longer
    than [html_files]. *)
Theorem at_most_one_file_per_page
    (w : World) (cfg : Config) (website company_name job_id : string)
    (disallowed_paths : list string) (bc : BrowserContext) (env0 : Env) :
  (∀ c env,
     Spec.reaches w cfg website company_name job_id disallowed_paths bc
       (CustomCrawler.init_crawl website) env0 c env →
     Z.of_nat (List.length (pdf_files c) + List.length (html_files c)) ≤ page_count c
     ∧ (List.length (markdown_files c) ≤ List.length (html_files c))%nat)
  ∧ (∀ fuel r env',
       Spec.crawl_session w cfg website company_name job_id disallowed_paths bc
         fuel env0 = (Ok (Crawled r), env') →
       Z.of_nat (List.length (r_pdf_files r) + List.length (r_html_files r))
       ≤ r_pages_crawled r
       ∧ (List.length (r_markdown_files r) ≤ List.length (r_html_files r))%nat).
Proof.
  assert (H : ∀ c env,
     Spec.reaches w cfg website company_name job_id disallowed_paths bc
       (CustomCrawler.init_crawl website) env0 c env →
     Z.of_nat (List.length (pdf_files c) + List.length (html_files c)) ≤ page_count c
     ∧ (List.length (markdown_files c) ≤ List.length (html_files c))%nat).
  { intros c env R. eapply files_reaches; [exact R|]. simpl. lia. }
  split; [exact H|]. intros fuel r env' E.
  apply crawl_session_crawled in E as (c & env1 & R & _ & ->). simpl.
  pose proof (Inv_reaches w cfg website company_name job_id disallowed_paths bc env0
                _ _ _ _ R (Inv_init _ _ _ _ _ _)) as I.
  rewrite <- (Spec.inv_count _ _ _ _ _ _ _ _ I). by apply (H c env1).
Qed.

(** The example crawl: three pages and one document for five URLs. *)
Lemma at_most_one_file_per_page_witness :
  match Spec.crawl_session Toy.world Toy.config Toy.root "acme" "j1" Toy.rules
          Toy.browser 20 Toy.env0 with
  | (Ok (Crawled r), _) =>
      Z.of_nat (List.length (r_pdf_files r) + List.length (r_html_files r))
      ≤ r_pages_crawled r
      ∧ (List.length (r_markdown_files r) ≤ List.length (r_html_files r))%nat
  | _ => False
  end.
Proof.
  destruct (Spec.crawl_session Toy.world Toy.config Toy.root "acme" "j1" Toy.rules
              Toy.browser 20 Toy.env0) as [[[r|e]|e|] env'] eqn:E;
    [|vm_compute in E; discriminate..].
  exact (proj2 (at_most_one_file_per_page Toy.world Toy.config Toy.root "acme" "j1"
                  Toy.rules Toy.browser Toy.env0) 20%nat r env' E).
Defined.

(** X14. The traversal visits nothing but the link graph of the site:
    every visited URL is the allowed root or is reached from it through
    links, on the root's host and allowed, of pages that loaded. When the
    frontier has run empty the visited set is exactly that graph. *)
Theorem visited_is_the_link_graph
    (w : World) (cfg : Config) (website company_name job_id : string)
    (disallowed_paths : list string) (bc : BrowserContext) (env0 : Env)
    (c : Crawl) (env : Env) :
  Spec.reaches w cfg website company_name job_id disallowed_paths bc
    (CustomCrawler.init_crawl website) env0 c env →
  (∀ u, u ∈ visited_urls c → Spec.reachable w cfg website disallowed_paths bc u)
  ∧ (to_visit c = [] →
     ∀ u, u ∈ visited_urls c ↔ Spec.reachable w cfg website disallowed_paths bc u).
Proof.
  intros R.
  assert (H : ∀ u, u ∈ visited_urls c →
                   Spec.reachable w cfg website disallowed_paths bc u).
  { eapply (graph_reaches w cfg website company_name job_id disallowed_paths bc
              _ _ _ _ R). simpl. split.
    - intros u Hu. by apply elem_of_empty in Hu.
    - intros u ->%list_elem_of_singleton. by left. }
  split; [exact H|]. intros Hempty u. split; [apply H|].
  eapply reachable_visited; [|exact Hempty].
  eapply Inv_reaches; [exact R|apply Inv_init].
Qed.

Lemma visited_is_the_link_graph_witness :
  (∀ u, u ∈ visited_urls Toy.end_crawl →
        Spec.reachable Toy.world Toy.config Toy.root Toy.rules Toy.browser u)
  ∧ (to_visit Toy.end_crawl = [] →
     ∀ u, u ∈ visited_urls Toy.end_crawl
          ↔ Spec.reachable Toy.world Toy.config Toy.root Toy.rules Toy.browser u).
Proof.
  apply (visited_is_the_link_graph Toy.world Toy.config Toy.root "acme" "j1"
           Toy.rules Toy.browser Toy.env0 Toy.end_crawl Toy.end_env).
  apply (crawl_loop_reaches Toy.world Toy.config Toy.root "acme" "j1" Toy.rules
           Toy.browser 20).
  vm_compute. reflexivity.
Defined.

Lemma loop_events_no_robots evs url :
  forallb loop_event evs = true → EvRobots url ∉ evs.
Proof.
  intros H Hin. rewrite forallb_forall in H. apply list_elem_of_In, H in Hin. done.
Qed.

(** X15. With [respect_robots_txt] off, every URL passes the robots test
    whatever the rules, and crawl_website never requests a robots file:
    no robots request is made before, during or after the session. *)
Theorem robots_switched_off (w : World) (cfg : Config) :
  respect_robots_txt cfg = false →
  (∀ url disallowed_paths,
     CustomCrawler.is_allowed_url w cfg url disallowed_paths = true)
  ∧ ∀ fuel website company_name job_id env,
      ∃ evs,
        trace (snd (CustomCrawler.crawl_website w cfg fuel website company_name
                      job_id env)) = (trace env ++ evs)%list
        ∧ ∀ url, EvRobots url ∉ evs.
Proof.
  intros Hoff. split.
  { intros url rules. unfold CustomCrawler.is_allowed_url. by rewrite Hoff. }
  intros fuel website company_name job_id env.
  unfold CustomCrawler.crawl_website. rewrite Hoff.
  rewrite bind_run. simpl. rewrite bind_run. simpl. rewrite bind_run.
  set (enva := {| files := files env; queues := queues env; sent := sent env;
                  trace := (trace env ++ [EvLog INFO ("Starting crawl for " ++ website)])%list |}).
  destruct (setup_browser_run w cfg enva) as [(ty & Hty & S)|[e S]]; rewrite S.
  2: { exists [EvLog INFO ("Starting crawl for " ++ website)]. split; [done|].
       intros url Hin. apply list_elem_of_singleton in Hin. done. }
  unfold try_finally.
  fold (Spec.crawl_session w cfg website company_name job_id [] {| bc_type := ty |} fuel).
  destruct (Spec.crawl_session _ _ _ _ _ _ _ _ _) as [r env3] eqn:Es.
  apply crawl_session_trace in Es as (evs & (T & _ & _ & L) & _).
  simpl in T.
  assert (Hpre : ∀ url,
    EvRobots url ∉ (EvLog INFO ("Starting crawl for " ++ website)
                    :: EvBrowserStart ty :: evs)).
  { intros url Hin. apply elem_of_cons in Hin as [?|Hin]; [done|].
    apply elem_of_cons in Hin as [?|Hin]; [done|]. by eapply loop_events_no_robots. }
  destruct r as [ret|e|].
  - rewrite (close_browser_run ty env3 Hty). simpl.
    exists (EvLog INFO ("Starting crawl for " ++ website)
            :: EvBrowserStart ty :: evs ++ [EvBrowserClose ty])%list. split.
    + rewrite T. by rewrite <- !app_assoc.
    + intros url Hin. apply (Hpre url).
      repeat (apply elem_of_cons in Hin as [?|Hin]; [done|]).
      apply elem_of_app in Hin as [Hin|Hin]; [by do 2 right|].
      apply list_elem_of_singleton in Hin. done.
  - rewrite (close_browser_run ty env3 Hty). simpl.
    exists (EvLog INFO ("Starting crawl for " ++ website)
            :: EvBrowserStart ty :: evs ++ [EvBrowserClose ty])%list. split.
    + rewrite T. by rewrite <- !app_assoc.
    + intros url Hin. apply (Hpre url).
      repeat (apply elem_of_cons in Hin as [?|Hin]; [done|]).
      apply elem_of_app in Hin as [Hin|Hin]; [by do 2 right|].
      apply list_elem_of_singleton in Hin. done.
  - simpl. exists (EvLog INFO ("Starting crawl for " ++ website)
                   :: EvBrowserStart ty :: evs). split; [|done].
    rewrite T. by rewrite <- !app_assoc.
Qed.

(** The private page of the site passes once the switch is off. *)
Lemma robots_switched_off_witness :
  CustomCrawler.is_allowed_url Toy.world Cases.config_no_robots
    "https://a.example/private/report" Toy.rules = true.
Proof.
  apply (robots_switched_off Toy.world Cases.config_no_robots).
  reflexivity.
Defined.

(** X16. A session with nothing to crawl succeeds empty. When the page
    budget is zero or negative, or the root URL itself is disallowed, the
    session fetches nothing, writes nothing, and returns a successful
    result with zero pages and no files. *)
Theorem nothing_to_crawl_succeeds_empty
    (w : World) (cfg : Config) (website company_name job_id : string)
    (disallowed_paths : list string) (bc : BrowserContext) (fuel : nat) (env : Env) :
  max_pages cfg ≤ 0
  ∨ CustomCrawler.is_allowed_url w cfg website disallowed_paths = false →
  (0 < fuel)%nat →
  ∃ msg,
    Spec.crawl_session w cfg website company_name job_id disallowed_paths bc fuel env
    = (Ok (Crawled {| r_company_name := company_name; r_job_id := job_id;
                      r_website := website; r_pages_crawled := 0;
                      r_pdf_files := []; r_html_files := [];
                      r_markdown_files := [] |}),
       snd (log INFO msg env)).
Proof.
  intros H Hfuel. destruct fuel as [|fuel]; [lia|].
  pose proof (crawl_session_run w cfg website company_name job_id disallowed_paths bc
                (S fuel) env) as Hrun.
  assert (E : ∃ c, Spec.crawl_loop w cfg website company_name job_id disallowed_paths bc
                     (S fuel) (CustomCrawler.init_crawl website) env = (Ok c, env)
                   ∧ visited_urls c = ∅ ∧ pdf_files c = [] ∧ html_files c = []
                   ∧ markdown_files c = []).
  { unfold Spec.crawl_loop. cbn [CustomCrawler.crawl_loop].
    unfold CustomCrawler.loop_cond at 1. simpl.
    destruct (0 <? max_pages cfg) eqn:Hk.
    - destruct H as [H|H]; [apply Z.ltb_lt in Hk; lia|].
      rewrite bind_run. unfold CustomCrawler.loop_body. simpl.
      rewrite H. simpl.
      exists (CustomCrawler.set_to_visit [] (CustomCrawler.init_crawl website)).
      split; [|done]. by destruct fuel.
    - by eexists. }
  destruct E as (c & E & Hv & Hp & Hh & Hm). rewrite E in Hrun.
  destruct Hrun as [msg ->]. exists msg. unfold CustomCrawler.results_of.
  by rewrite Hv, Hp, Hh, Hm.
Qed.

(** The example site with a rule that shuts the whole site. *)
Lemma nothing_to_crawl_succeeds_empty_witness :
  ∃ msg,
    Spec.crawl_session Toy.world Toy.config Toy.root "acme" "j1" ["/"] Toy.browser
      20 Toy.env0
    = (Ok (Crawled {| r_company_name := "acme"; r_job_id := "j1";
                      r_website := Toy.root; r_pages_crawled := 0;
                      r_pdf_files := []; r_html_files := [];
                      r_markdown_files := [] |}),
       snd (log INFO msg Toy.env0)).
Proof.
  apply (nothing_to_crawl_succeeds_empty Toy.world Toy.config Toy.root "acme" "j1"
           ["/"] Toy.browser 20 Toy.env0).
  - right. reflexivity.
  - lia.
Defined.

(** X17. A page that does not load still uses up the budget. When the
    browser raises on the URL at the head of the frontier, or returns an
    empty page, the turn ends normally with the URL marked visited and
    [page_count] one higher; no file is stored, no link is followed, and
    the URL, being visited, is skipped from then on. *)
Theorem failed_page_uses_budget
    (w : World) (cfg : Config) (website company_name job_id : string)
    (disallowed_paths : list string) (bc : BrowserContext)
    (c : Crawl) (env : Env) (u : string) (rest : list string) :
  to_visit c = u :: rest →
  Spec.skipped w cfg disallowed_paths c u = false →
  Spec.is_document u = false →
  (∃ e, browser_page w u = Raises e) ∨ browser_page w u = Returns "" →
  let run := Spec.loop_body w cfg website company_name job_id disallowed_paths bc c env in
  fst run = Ok (CustomCrawler.mark_visited u rest c)
  ∧ files (snd run) = files env
  ∧ Spec.skipped w cfg disallowed_paths (CustomCrawler.mark_visited u rest c) u = true.
Proof.
  intros Htv Hskip Hdoc Hpage run. subst run.
  unfold Spec.loop_body, CustomCrawler.loop_body. rewrite Htv.
  unfold Spec.skipped, Spec.allowed in Hskip. rewrite Hskip.
  rewrite bind_run. simpl. unfold Spec.is_document in Hdoc. rewrite Hdoc.
  unfold CustomCrawler.crawl_page. rewrite bind_run.
  unfold CustomCrawler.get_page_content, try_except.
  split_and!.
  - destruct (String.eqb (bc_type bc) "playwright" || String.eqb (bc_type bc) "selenium");
      [|reflexivity].
    rewrite !bind_run. simpl. unfold call.
    destruct Hpage as [[e ->]| ->]; reflexivity.
  - destruct (String.eqb (bc_type bc) "playwright" || String.eqb (bc_type bc) "selenium");
      [|reflexivity].
    rewrite !bind_run. simpl. unfold call.
    destruct Hpage as [[e ->]| ->]; reflexivity.
  - unfold Spec.skipped. simpl. rewrite bool_decide_eq_true_2; [done|].
    apply elem_of_union. left. by apply elem_of_singleton.
Qed.

(** A URL of the site that the browser cannot load. *)
Lemma failed_page_uses_budget_witness :
  fst (Spec.loop_body Toy.world Toy.config Toy.root "acme" "j1" Toy.rules Toy.browser
         Cases.at_gone Toy.env0)
  = Ok (CustomCrawler.mark_visited "https://a.example/gone" [] Cases.at_gone).
Proof.
  apply (failed_page_uses_budget Toy.world Toy.config Toy.root "acme" "j1" Toy.rules
           Toy.browser Cases.at_gone Toy.env0 "https://a.example/gone" []).
  - reflexivity.
  - vm_compute. reflexivity.
  - reflexivity.
  - left. eexists. reflexivity.
Defined.

(** ** The queue service and the endpoint *)

(** X18. send_to_firecrawl_queue never raises. When the transport refuses
    the send it returns [False] and no queue changes. When the transport
    accepts, the job is the last message of the first-tier queue and no
    other queue changes; the call returns [True] when the job has a
    [job_id], and [False], with the message queued all the same, when it
    has none. *)
Theorem send_to_firecrawl_queue_outcome (w : World) (cfg : Config)
    (job : gmap string string) (env : Env) :
  let url := firecrawl_queue_url cfg in
  let run := QueueService.send_to_firecrawl_queue w cfg job env in
  match sqs_fault w (SendMessage url job) with
  | Some e =>
      fst run = Ok false ∧ queues (snd run) = queues env ∧ sent (snd run) = sent env
  | None =>
      fst run = Ok (bool_decide (is_Some (job !! "job_id")))
      ∧ Sqs.queue url (snd run)
        = (Sqs.queue url env ++ [{| ReceiptHandle := pretty (sent env); Body := job |}])%list
      ∧ ∀ url', url ≠ url' → Sqs.queue url' (snd run) = Sqs.queue url' env
  end.
Proof.
  intros url run. subst run.
  unfold QueueService.send_to_firecrawl_queue, try_except.
  rewrite bind_run. unfold Sqs.send_message. fold url.
  destruct (sqs_fault w (SendMessage url job)) as [e|]; [done|].
  rewrite bind_run. unfold getitem.
  destruct (job !! "job_id") as [job_id|] eqn:Hid.
  - rewrite bool_decide_eq_true_2 by done. simpl. split; [done|].
    unfold Sqs.queue. simpl. split; [by rewrite lookup_insert_eq|].
    intros url' Hne. by rewrite lookup_insert_ne.
  - rewrite bool_decide_eq_false_2 by (by intros [? ?]). simpl. split; [done|].
    unfold Sqs.queue. simpl. split; [by rewrite lookup_insert_eq|].
    intros url' Hne. by rewrite lookup_insert_ne.
Qed.

(** A job sent on the example transport. *)
Lemma send_to_firecrawl_queue_outcome_witness :
  Sqs.queue "https://sqs.example/custom"
    (snd (QueueService.send_to_firecrawl_queue Toy.world Toy.config
            (Toy.job "j1" Toy.root) Toy.env0))
  = Sqs.queue "https://sqs.example/custom" Toy.env0.
Proof.
  pose proof (send_to_firecrawl_queue_outcome Toy.world Toy.config
                (Toy.job "j1" Toy.root) Toy.env0) as H.
  hnf in H. destruct H as (_ & _ & H). apply H. discriminate.
Defined.

Lemma new_job_keys uuid4 utcnow request :
  Api.new_job uuid4 utcnow request !! "job_id" = Some uuid4
  ∧ Api.new_job uuid4 utcnow request !! "company_name" = Some (Api.company_name request)
  ∧ Api.new_job uuid4 utcnow request !! "website" = Some (Api.website request).
Proof. unfold Api.new_job. split_and!; by simplify_map_eq. Qed.

(** What the endpoint does once the request has passed validation. *)
Lemma scrape_company_valid (w : World) (cfg : Config) (uuid4 utcnow : string)
    (str_HTTPException : Z → string → string) (request : Api.CompanyRequest) (env : Env) :
  Api.company_name request ≠ "" → Api.website request ≠ "" →
  let job := Api.new_job uuid4 utcnow request in
  let run := Api.scrape_company w cfg uuid4 utcnow str_HTTPException request env in
  match sqs_fault w (SendMessage (firecrawl_queue_url cfg) job) with
  | Some e =>
      fst run = Ok (Api.HTTPException 500
                      (str_HTTPException 500 "Failed to submit job to queue"))
      ∧ queues (snd run) = queues env
  | None =>
      fst run = Ok (Api.Returned {| Api.job_id := uuid4; Api.status := "pending";
                                    Api.message := Some "Job submitted for processing" |})
      ∧ Sqs.queue (firecrawl_queue_url cfg) (snd run)
        = (Sqs.queue (firecrawl_queue_url cfg) env
           ++ [{| ReceiptHandle := pretty (sent env); Body := job |}])%list
  end.
Proof.
  intros Hc Hw job run. subst run. unfold Api.scrape_company, try_except.
  assert (Py.truthy (Api.company_name request) = true) as ->.
  { unfold Py.truthy. apply negb_true_iff. by apply String.eqb_neq. }
  assert (Py.truthy (Api.website request) = true) as ->.
  { unfold Py.truthy. apply negb_true_iff. by apply String.eqb_neq. }
  simpl. rewrite bind_run. simpl. rewrite bind_run. fold job.
  unfold QueueService.send_to_firecrawl_queue, try_except.
  rewrite bind_run. unfold Sqs.send_message.
  destruct (sqs_fault w (SendMessage (firecrawl_queue_url cfg) job)) as [e|]; [done|].
  rewrite bind_run. unfold getitem.
  destruct (new_job_keys uuid4 utcnow request) as (Hid & _). fold job in Hid.
  rewrite Hid. simpl. split; [done|]. unfold Sqs.queue. simpl. by rewrite lookup_insert_eq.
Qed.

(** X19. The endpoint reports every failure with status 500, and then
    nothing has been queued. A request with an empty company name or an
    empty website raises the status-400 exception inside the [try], where
    the [except Exception] clause catches it: the reply is a status-500
    exception whose detail is the text of the 400 one. A send that the
    transport refuses gives status 500 as well. In no case does the
    endpoint raise anything else. *)
Theorem scrape_company_failures_are_500 (w : World) (cfg : Config)
    (uuid4 utcnow : string) (str_HTTPException : Z → string → string)
    (request : Api.CompanyRequest) (env : Env) :
  let run := Api.scrape_company w cfg uuid4 utcnow str_HTTPException request env in
  (Api.company_name request = "" ∨ Api.website request = "" →
   fst run = Ok (Api.HTTPException 500
                   (str_HTTPException 400 "Company name and website are required"))
   ∧ queues (snd run) = queues env)
  ∧ (∀ e, Api.company_name request ≠ "" → Api.website request ≠ "" →
       sqs_fault w (SendMessage (firecrawl_queue_url cfg)
                      (Api.new_job uuid4 utcnow request)) = Some e →
       fst run = Ok (Api.HTTPException 500
                       (str_HTTPException 500 "Failed to submit job to queue"))
       ∧ queues (snd run) = queues env)
  ∧ ∃ reply, fst run = Ok reply
      ∧ match reply with
        | Api.HTTPException status_code _ => status_code = 500
        | Api.Returned response =>
            Api.job_id response = uuid4 ∧ Api.status response = "pending"
        end.
Proof.
  intros run.
  assert (Hempty : Api.company_name request = "" ∨ Api.website request = "" →
    fst run = Ok (Api.HTTPException 500
                    (str_HTTPException 400 "Company name and website are required"))
    ∧ queues (snd run) = queues env).
  { intros H. subst run. unfold Api.scrape_company, try_except.
    assert (negb (Py.truthy (Api.company_name request))
            || negb (Py.truthy (Api.website request)) = true) as ->; [|done].
    destruct H as [-> | ->]; [done|]. apply orb_true_r. }
  split; [exact Hempty|]. split.
  - intros e Hc Hw He.
    pose proof (scrape_company_valid w cfg uuid4 utcnow str_HTTPException request env
                  Hc Hw) as H. simpl in H. rewrite He in H. exact H.
  - destruct (decide (Api.company_name request = "")) as [Hc|Hc].
    { destruct Hempty as [-> _]; [by left|]. by eexists. }
    destruct (decide (Api.website request = "")) as [Hw|Hw].
    { destruct Hempty as [-> _]; [by right|]. by eexists. }
    pose proof (scrape_company_valid w cfg uuid4 utcnow str_HTTPException request env
                  Hc Hw) as H. simpl in H.
    destruct (sqs_fault w _); destruct H as [H _]; fold run in H; rewrite H;
      by eexists.
Qed.

(** A request without a website, on the example transport. *)
Lemma scrape_company_failures_are_500_witness :
  fst (Api.scrape_company Toy.world Toy.config "j1" "2025-01-01 00:00:00"
         (λ status_code detail, pretty status_code ++ ": " ++ detail)
         {| Api.company_name := "acme"; Api.website := "" |} Toy.env0)
  = Ok (Api.HTTPException 500 "400: Company name and website are required").
Proof.
  destruct (scrape_company_failures_are_500 Toy.world Toy.config "j1"
              "2025-01-01 00:00:00"
              (λ status_code detail, pretty status_code ++ ": " ++ detail)
              {| Api.company_name := "acme"; Api.website := "" |} Toy.env0) as [H _].
  destruct H as [H _]; [right; reflexivity|]. exact H.
Defined.

(** X20. A job that the endpoint accepts is fit for the first-tier
    worker. For a request with both fields and a send that the transport
    accepts, the reply carries the new job id with status [pending], the
    job is the last message of the first-tier queue, and process_job of
    the worker finds every key it reads in it: it returns a result and
    raises no [KeyError], whatever the scraper does. *)
Theorem accepted_job_fits_the_worker (w : World) (cfg : Config)
    (uuid4 utcnow : string) (str_HTTPException : Z → string → string)
    (request : Api.CompanyRequest) (env : Env) :
  Api.company_name request ≠ "" → Api.website request ≠ "" →
  sqs_fault w (SendMessage (firecrawl_queue_url cfg)
                 (Api.new_job uuid4 utcnow request)) = None →
  let run := Api.scrape_company w cfg uuid4 utcnow str_HTTPException request env in
  fst run = Ok (Api.Returned {| Api.job_id := uuid4; Api.status := "pending";
                                Api.message := Some "Job submitted for processing" |})
  ∧ last (Sqs.queue (firecrawl_queue_url cfg) (snd run))
    = Some {| ReceiptHandle := pretty (sent env);
              Body := Api.new_job uuid4 utcnow request |}
  ∧ ∀ scraper env', ∃ ret,
      fst (FirecrawlWorker.process_job w scraper (Api.new_job uuid4 utcnow request) env')
      = Ok ret.
Proof.
  intros Hc Hw Hf run.
  pose proof (scrape_company_valid w cfg uuid4 utcnow str_HTTPException request env
                Hc Hw) as H. simpl in H. rewrite Hf in H. destruct H as [H1 H2].
  fold run in H1, H2. split; [exact H1|]. split.
  - rewrite H2. apply last_snoc.
  - intros scraper env'. destruct (new_job_keys uuid4 utcnow request) as (K1 & K2 & K3).
    destruct (process_job_outcome w scraper _ _ _ _ env' K1 K2 K3) as (ret & env2 & E & _).
    rewrite E. by exists ret.
Qed.

Lemma accepted_job_fits_the_worker_witness :
  fst (Api.scrape_company Toy.world Toy.config "j1" "2025-01-01 00:00:00"
         (λ status_code detail, pretty status_code ++ ": " ++ detail)
         {| Api.company_name := "acme"; Api.website := Toy.root |} Toy.env0)
  = Ok (Api.Returned {| Api.job_id := "j1"; Api.status := "pending";
                        Api.message := Some "Job submitted for processing" |}).
Proof.
  apply (accepted_job_fits_the_worker Toy.world Toy.config "j1" "2025-01-01 00:00:00"
           (λ status_code detail, pretty status_code ++ ": " ++ detail)
           {| Api.company_name := "acme"; Api.website := Toy.root |} Toy.env0).
  - discriminate.
  - discriminate.
  - reflexivity.
Defined.

(** ** The first-tier worker, further *)

(** X21. A message whose job lacks a key the worker reads is neither
    handed over nor deleted. process_job raises the [KeyError] before it
    scrapes anything; the exception is kept in the future, raised again by
    [future.result()] and caught by the [except] clause around the
    hand-off and the delete: the worker logs one error line and leaves
    both queues as they were, so the message is received again on a later
    turn. *)
Theorem malformed_job_is_kept (w : World) (cfg : Config)
    (scraper : FirecrawlScraper.Scraper) (message : Message) (env : Env) :
  Body message !! "job_id" = None ∨ Body message !! "company_name" = None
  ∨ Body message !! "website" = None →
  let run := (item ← FirecrawlWorker.submit_message w scraper message;
              FirecrawlWorker.handle_future w cfg item) env in
  fst run = Ok ()
  ∧ queues (snd run) = queues env ∧ sent (snd run) = sent env
  ∧ ∃ key, trace (snd run)
           = (trace env ++ [EvLog ERROR ("Error processing job: '" ++ key ++ "'")])%list.
Proof.
  intros H run. subst run. rewrite bind_run.
  unfold FirecrawlWorker.submit_message. rewrite bind_run.
  unfold submit, FirecrawlWorker.process_job. rewrite bind_run. unfold getitem.
  destruct (Body message !! "job_id") as [job_id|] eqn:H1.
  2: { simpl. split_and!; try done. by exists "job_id". }
  simpl. rewrite bind_run.
  destruct (Body message !! "company_name") as [company_name|] eqn:H2.
  2: { simpl. split_and!; try done. by exists "company_name". }
  simpl. rewrite bind_run.
  destruct (Body message !! "website") as [website|] eqn:H3.
  2: { simpl. split_and!; try done. by exists "website". }
  by destruct H as [H|[H|H]].
Qed.

(** A message without a website. *)
Lemma malformed_job_is_kept_witness :
  let message := {| ReceiptHandle := "rh-1";
                    Body := {[ "job_id" := "j1"; "company_name" := "acme" ]} |} in
  let env := Toy.env_with "https://sqs.example/firecrawl" message in
  queues (snd ((item ← FirecrawlWorker.submit_message Toy.world Toy.scraper message;
                FirecrawlWorker.handle_future Toy.world Toy.config item) env))
  = queues env.
Proof.
  intros message env.
  apply (malformed_job_is_kept Toy.world Toy.config Toy.scraper message env).
  right. right. reflexivity.
Defined.

(** X22. A delete that the transport refuses after an accepted hand-off
    leaves the job on both queues. For a failed job whose send to the
    fallback queue is accepted, when [delete_message] raises, the
    exception is caught and logged: the turn goes on, the first-tier queue
    is as it was, with the message still on it, and the fallback queue
    holds the forwarded job. *)
Theorem refused_delete_leaves_job_on_both_queues (w : World) (cfg : Config)
    (env : Env) (receipt reason e : string) (job : gmap string string) :
  firecrawl_queue_url cfg ≠ custom_crawler_queue_url cfg →
  let body := if Py.truthy reason then QueueService.annotate job reason else job in
  sqs_fault w (SendMessage (custom_crawler_queue_url cfg) body) = None →
  sqs_fault w (DeleteMessage (firecrawl_queue_url cfg) receipt) = Some e →
  let run := FirecrawlWorker.handle_future w cfg (Ok (ScrapeFailed reason), receipt, job)
               env in
  fst run = Ok ()
  ∧ Sqs.queue (firecrawl_queue_url cfg) (snd run) = Sqs.queue (firecrawl_queue_url cfg) env
  ∧ Sqs.queue (custom_crawler_queue_url cfg) (snd run)
    = (Sqs.queue (custom_crawler_queue_url cfg) env
       ++ [{| ReceiptHandle := pretty (sent env); Body := body |}])%list
  ∧ last (trace (snd run)) = Some (EvLog ERROR ("Error processing job: " ++ e)).
Proof.
  intros Hne body Hsend Hdel run. subst run.
  destruct (send_to_custom_crawler_queue_accepted w cfg job reason env Hsend)
    as (b & msg & Es).
  unfold FirecrawlWorker.handle_future, try_except, future_result.
  rewrite !bind_run, Es. simpl. unfold Sqs.delete_message. rewrite Hdel. simpl.
  split; [done|]. unfold Sqs.queue. simpl.
  rewrite lookup_insert_eq, lookup_insert_ne by done.
  split_and!; try done. apply last_snoc.
Qed.

(** The scrape of [https://down.example/] fails; the transport takes the
    hand-off and refuses every delete. *)
Lemma refused_delete_leaves_job_on_both_queues_witness :
  let w := Build_World Toy.urlparse Toy.urljoin Toy.requests_get true false
             (λ _, Returns ()) Toy.browser_page Toy.soup_hrefs (λ html, html)
             Toy.soup_get_text (λ _, None) 1700000000
             (λ call, match call with
                      | DeleteMessage _ _ => Some "AccessDenied"
                      | _ => None
                      end) in
  let job := Toy.job "j1" "https://down.example/" in
  let message := {| ReceiptHandle := "rh-1"; Body := job |} in
  let env := Toy.env_with "https://sqs.example/firecrawl" message in
  let run := FirecrawlWorker.handle_future w Toy.config
               (Ok (ScrapeFailed "Payment Required"), "rh-1", job) env in
  Sqs.queue "https://sqs.example/firecrawl" (snd run) = [message]
  ∧ Sqs.queue "https://sqs.example/custom" (snd run)
    = [{| ReceiptHandle := "0";
          Body := QueueService.annotate job "Payment Required" |}].
Proof.
  intros w job message env run.
  destruct (refused_delete_leaves_job_on_both_queues w Toy.config env "rh-1"
              "Payment Required" "AccessDenied" job) as (_ & H1 & H2 & _).
  - discriminate.
  - reflexivity.
  - reflexivity.
  - split; [exact H1|exact H2].
Defined.

Section Drain.

Variable w : World.
Variable cfg : Config.
Variable scraper : FirecrawlScraper.Scraper.
Hypothesis Hqueues : firecrawl_queue_url cfg ≠ custom_crawler_queue_url cfg.

Local Abbreviation src := (firecrawl_queue_url cfg).
Local Abbreviation dst := (custom_crawler_queue_url cfg).

Lemma handed_on_refl env : handed_on src dst env env.
Proof. by split. Qed.

Lemma handed_on_trans env1 env2 env3 :
  handed_on src dst env1 env2 → handed_on src dst env2 env3 → handed_on src dst env1 env3.
Proof.
  intros (A1 & B1) (A2 & B2). split.
  - intros m Hm. by apply A1, A2.
  - intros m Hm. by apply B2, B1.
Qed.

Lemma handed_on_same env env' :
  queues env' = queues env → handed_on src dst env env'.
Proof. intros Q. unfold handed_on, Sqs.queue. rewrite Q. by split. Qed.

(** process_job of the first tier runs to its end and touches no queue. *)
Lemma tier1_process_job_run job env :
  ∃ r env', FirecrawlWorker.process_job w scraper job env = (r, env') ∧ r ≠ OutOfFuel
    ∧ queues env' = queues env.
Proof.
  destruct (job !! "job_id") as [job_id|] eqn:H1.
  2: { unfold FirecrawlWorker.process_job, getitem. rewrite H1. by eexists _, _. }
  destruct (job !! "company_name") as [company_name|] eqn:H2.
  2: { unfold FirecrawlWorker.process_job, getitem. rewrite H1, H2. by eexists _, _. }
  destruct (job !! "website") as [website|] eqn:H3.
  2: { unfold FirecrawlWorker.process_job, getitem. rewrite H1, H2, H3. by eexists _, _. }
  destruct (process_job_outcome w scraper job job_id company_name website env H1 H2 H3)
    as (ret & env' & E & Q & _).
  by exists (Ok ret), env'.
Qed.

Lemma submit_all_run messages : ∀ env,
  ∃ items env', FirecrawlWorker.submit_all w scraper messages env = (Ok items, env')
    ∧ queues env' = queues env
    ∧ Forall (λ item : outcome ScrapeReturn * string * gmap string string,
                item.1.1 ≠ OutOfFuel) items.
Proof.
  induction messages as [|message messages IH]; intros env; simpl.
  - exists [], env. by split_and!.
  - rewrite bind_run. unfold FirecrawlWorker.submit_message. rewrite bind_run.
    unfold submit.
    destruct (tier1_process_job_run (Body message) env) as (r & env1 & E & N & Q).
    rewrite E. simpl. rewrite bind_run.
    destruct (IH env1) as (items & env2 & E2 & Q2 & A). rewrite E2. simpl.
    eexists _, _. split; [done|]. rewrite Q2. split; [done|]. by constructor.
Qed.

(** The hand-off: it never raises, and adds to the fallback queue only. *)
Lemma send_to_custom_crawler_queue_run job failure_reason env :
  ∃ b env', QueueService.send_to_custom_crawler_queue w cfg job failure_reason env
            = (Ok b, env')
    ∧ handed_on src dst env env'.
Proof.
  unfold QueueService.send_to_custom_crawler_queue, try_except.
  rewrite bind_run. unfold Sqs.send_message.
  destruct (sqs_fault w _).
  - eexists _, _. split; [done|]. by apply handed_on_same.
  - rewrite bind_run.
    assert (H : ∀ n, handed_on src dst env
              (Sqs.set_queue dst
                 (Sqs.queue dst env
                  ++ [{| ReceiptHandle := pretty (sent env);
                         Body := if Py.truthy_opt failure_reason
                                 then QueueService.annotate job (default "" failure_reason)
                                 else job |}]) n env)).
    { intros n. split.
      - intros m. by rewrite queue_set_queue_ne.
      - intros m Hm. rewrite queue_set_queue_eq. apply elem_of_app. by left. }
    unfold getitem. destruct (_ !! "job_id"); simpl; eexists _, _; (split; [reflexivity|]).
    + eapply handed_on_trans; [apply (H (S (sent env)))|]. by apply handed_on_same.
    + eapply handed_on_trans; [apply (H (S (sent env)))|]. by apply handed_on_same.
Qed.

Lemma delete_message_run receipt env :
  ∃ r env', Sqs.delete_message w src receipt env = (r, env') ∧ r ≠ OutOfFuel
    ∧ handed_on src dst env env'.
Proof.
  unfold Sqs.delete_message. destruct (sqs_fault w _).
  - eexists _, _. split; [reflexivity|]. split; [done|]. apply handed_on_refl.
  - eexists _, _. split; [reflexivity|]. split; [done|]. split.
    + intros m. rewrite queue_set_queue_eq. apply deleted_sub.
    + intros m. by rewrite queue_set_queue_ne.
Qed.

Lemma handle_future_run item env :
  item.1.1 ≠ OutOfFuel →
  ∃ env', FirecrawlWorker.handle_future w cfg item env = (Ok (), env')
    ∧ handed_on src dst env env'.
Proof.
  destruct item as [[future receipt] job]. simpl. intros Hf.
  unfold FirecrawlWorker.handle_future, try_except, future_result.
  rewrite bind_run.
  destruct future as [[results|reason]|e|]; [| | |done].
  - rewrite bind_run. simpl.
    destruct (delete_message_run receipt env) as (r & env1 & E & N & H). rewrite E.
    destruct r as [[]|e|]; [by eexists|eexists; split; [done|]|done].
    eapply handed_on_trans; [exact H|]. by apply handed_on_same.
  - rewrite bind_run.
    destruct (send_to_custom_crawler_queue_run job (Some reason) env)
      as (b & env1 & E & H1).
    rewrite bind_run, E. simpl.
    destruct (delete_message_run receipt env1) as (r & env2 & E2 & N & H2). rewrite E2.
    destruct r as [[]|e|]; [| |done].
    + eexists. split; [done|]. by eapply handed_on_trans.
    + eexists. split; [done|].
      eapply handed_on_trans; [exact H1|]. eapply handed_on_trans; [exact H2|].
      by apply handed_on_same.
  - eexists. split; [done|]. by apply handed_on_same.
Qed.

Lemma for_each_handle_future items : ∀ env,
  Forall (λ item : outcome ScrapeReturn * string * gmap string string,
            item.1.1 ≠ OutOfFuel) items →
  ∃ env', for_each items (FirecrawlWorker.handle_future w cfg) env = (Ok (), env')
    ∧ handed_on src dst env env'.
Proof.
  induction items as [|item items IH]; intros env Hall; simpl.
  - exists env. split; [done|apply handed_on_refl].
  - inversion Hall as [|? ? Hitem Hrest]; subst. rewrite bind_run.
    destruct (handle_future_run item env Hitem) as (env1 & E & H1). rewrite E.
    destruct (IH env1 Hrest) as (env2 & E2 & H2). rewrite E2.
    eexists. split; [done|]. by eapply handed_on_trans.
Qed.

Lemma tier1_run_once_run env :
  ∃ env', FirecrawlWorker.run_once w cfg scraper env = (Ok (), env')
    ∧ handed_on src dst env env'.
Proof.
  unfold FirecrawlWorker.run_once, try_except. rewrite bind_run.
  unfold Sqs.receive_message. destruct (sqs_fault w _).
  { eexists. split; [done|]. by apply handed_on_same. }
  destruct (bool_decide _).
  { eexists. split; [done|]. by apply handed_on_same. }
  rewrite bind_run. simpl. rewrite bind_run.
  set (env1 := {| files := files env; queues := queues env; sent := sent env;
                  trace := _ |}).
  destruct (submit_all_run (take (Z.to_nat (threadpool_size cfg)) (Sqs.queue src env)) env1)
    as (items & env2 & E & Q & A).
  rewrite E.
  destruct (for_each_handle_future items env2 A) as (env3 & E3 & H3). rewrite E3.
  eexists. split; [done|]. eapply handed_on_trans; [|exact H3].
  by apply handed_on_same.
Qed.

End Drain.

(** X23. A turn of the first-tier worker loop always ends normally,
    whatever the scraper and the transport do. The two queues being
    distinct, the turn adds no message to the first-tier queue and
    removes none from the fallback queue. *)
Theorem tier1_turn_only_hands_on (w : World) (cfg : Config)
    (scraper : FirecrawlScraper.Scraper) (env : Env) :
  firecrawl_queue_url cfg ≠ custom_crawler_queue_url cfg →
  let run := FirecrawlWorker.run_once w cfg scraper env in
  fst run = Ok ()
  ∧ (∀ m, m ∈ Sqs.queue (firecrawl_queue_url cfg) (snd run) →
          m ∈ Sqs.queue (firecrawl_queue_url cfg) env)
  ∧ (∀ m, m ∈ Sqs.queue (custom_crawler_queue_url cfg) env →
          m ∈ Sqs.queue (custom_crawler_queue_url cfg) (snd run)).
Proof.
  intros Hne run. subst run.
  destruct (tier1_run_once_run w cfg scraper Hne env) as (env' & E & H). rewrite E.
  by split.
Qed.

(** One turn on a queue that holds the job for [https://down.example/]. *)
Lemma tier1_turn_only_hands_on_witness :
  let message := {| ReceiptHandle := "rh-1";
                    Body := Toy.job "j1" "https://down.example/" |} in
  let env := Toy.env_with "https://sqs.example/firecrawl" message in
  fst (FirecrawlWorker.run_once Toy.world Toy.config Toy.scraper env) = Ok ().
Proof.
  intros message env.
  apply (tier1_turn_only_hands_on Toy.world Toy.config Toy.scraper env).
  discriminate.
Defined.

(** ** The second-tier workers, further *)

Section Settles.

Variable w : World.
Variable cfg : Config.

(** With enough fuel crawl_website returns or raises, and it leaves the
    queues alone. *)
Lemma crawl_website_settles website company_name job_id env :
  ∃ fuel0, ∀ fuel, (fuel0 ≤ fuel)%nat →
    ∃ r env',
      CustomCrawler.crawl_website w cfg fuel website company_name job_id env = (r, env')
      ∧ r ≠ OutOfFuel ∧ queues env' = queues env ∧ sent env' = sent env.
Proof.
  unfold CustomCrawler.crawl_website.
  set (enva := {| files := files env; queues := queues env; sent := sent env;
                  trace := (trace env ++ [EvLog INFO ("Starting crawl for " ++ website)])%list |}).
  assert (∃ rules envb,
    (if respect_robots_txt cfg then CustomCrawler.get_robots_txt_rules w website
     else mret []) enva = (Ok rules, envb)
    ∧ queues envb = queues enva ∧ sent envb = sent enva)
    as (rules & envb & E & Q & S).
  { destruct (respect_robots_txt cfg).
    - unfold CustomCrawler.get_robots_txt_rules, try_except.
      rewrite bind_run. simpl. rewrite bind_run. unfold call.
      destruct (requests_get w _) as [resp|e]; simpl.
      + destruct (status_code resp =? 200); by eexists _, _.
      + by eexists _, _.
    - by exists [], enva. }
  destruct (setup_browser_run w cfg envb) as [(ty & Hty & Sb)|[e Sb]].
  2: { exists 0%nat. intros fuel _. rewrite bind_run. simpl. fold enva.
       rewrite bind_run, E, bind_run, Sb. eexists _, _. split; [reflexivity|].
       split; [done|]. by rewrite Q, S. }
  set (envc := {| files := files envb; queues := _; sent := _; trace := _ |}) in Sb.
  destruct (crawl_session_terminates w cfg website company_name job_id rules
              {| bc_type := ty |} envc) as [fuel0 Hf].
  exists fuel0. intros fuel Hle. destruct (Hf fuel Hle) as (ret & envd & Es).
  pose proof (crawl_session_trace w cfg website company_name job_id rules
                {| bc_type := ty |} fuel envc _ _ Es) as (evs & (_ & Qd & Sd & _) & _).
  rewrite bind_run. simpl. fold enva. rewrite bind_run, E, bind_run, Sb.
  unfold try_finally.
  fold (Spec.crawl_session w cfg website company_name job_id rules {| bc_type := ty |} fuel).
  rewrite Es, (close_browser_run ty envd Hty). eexists _, _. split; [reflexivity|].
  split; [done|]. simpl. rewrite Qd, Sd. subst envc. simpl. by rewrite Q, S.
Qed.

(** With enough fuel process_job of the second-tier worker returns, for
    a job that has the keys it reads. *)
Lemma tier2_process_job_settles job job_id company_name website env :
  job !! "job_id" = Some job_id →
  job !! "company_name" = Some company_name →
  job !! "website" = Some website →
  ∃ fuel0, ∀ fuel, (fuel0 ≤ fuel)%nat →
    ∃ ret env',
      CustomCrawlerWorker.process_job w cfg fuel job env = (Ok ret, env')
      ∧ queues env' = queues env ∧ sent env' = sent env.
Proof.
  intros H1 H2 H3. unfold CustomCrawlerWorker.process_job, getitem.
  rewrite H1, H2, H3.
  set (enva := snd (log INFO ("Processing job " ++ job_id ++ " for company "
                              ++ company_name ++ " with custom crawler") env)).
  destruct (crawl_website_settles website company_name job_id enva) as [fuel0 Hf].
  exists fuel0. intros fuel Hle. destruct (Hf fuel Hle) as (r & envb & E & N & Q & S).
  rewrite bind_run. simpl. rewrite bind_run. simpl. rewrite bind_run. simpl.
  rewrite bind_run. simpl. unfold try_except. rewrite bind_run.
  match goal with
  | |- context [CustomCrawler.crawl_website w cfg fuel website company_name job_id ?e] =>
      change e with enva
  end.
  rewrite E.
  destruct r as [[result|reason]|e|]; [| | |done]; simpl;
    eexists _, _; (split; [reflexivity|]); simpl; by rewrite Q, S.
Qed.

End Settles.

(** X24. The second-tier worker gives every job one attempt. For a
    message whose job has the keys the worker reads, and a transport that
    accepts the delete: with enough fuel for the crawl to end, the turn
    for the message ends normally whether the crawl succeeds, fails or
    raises, the message is removed from the fallback queue, and no other
    queue changes: a job whose crawl failed is queued nowhere again. *)
Theorem tier2_job_gets_one_attempt (w : World) (cfg : Config) (message : Message)
    (env : Env) (job_id company_name website : string) :
  Body message !! "job_id" = Some job_id →
  Body message !! "company_name" = Some company_name →
  Body message !! "website" = Some website →
  sqs_fault w (DeleteMessage (custom_crawler_queue_url cfg) (ReceiptHandle message))
  = None →
  ∃ fuel0, ∀ fuel, (fuel0 ≤ fuel)%nat →
    let run := CustomCrawlerWorker.handle_message w cfg fuel message env in
    fst run = Ok ()
    ∧ Sqs.queue (custom_crawler_queue_url cfg) (snd run)
      = List.filter (λ m, negb (String.eqb (ReceiptHandle m) (ReceiptHandle message)))
          (Sqs.queue (custom_crawler_queue_url cfg) env)
    ∧ ∀ url, custom_crawler_queue_url cfg ≠ url →
             Sqs.queue url (snd run) = Sqs.queue url env.
Proof.
  intros H1 H2 H3 Hdel.
  destruct (tier2_process_job_settles w cfg (Body message) job_id company_name website
              (snd (log INFO "Processing message" env)) H1 H2 H3) as [fuel0 Hf].
  exists fuel0. intros fuel Hle run. subst run.
  destruct (Hf fuel Hle) as (ret & env1 & E & Q & S).
  unfold CustomCrawlerWorker.handle_message.
  rewrite bind_run. simpl in *. rewrite bind_run, E, bind_run.
  rewrite (delete_message_accepted w _ _ _ Hdel). simpl.
  unfold Sqs.queue. simpl. rewrite Q. split; [done|].
  split; [by rewrite lookup_insert_eq|]. intros url Hne. by rewrite lookup_insert_ne.
Qed.

(** The job for the example site on the fallback queue. *)
Lemma tier2_job_gets_one_attempt_witness :
  let message := {| ReceiptHandle := "rh-1"; Body := Toy.job "j1" Toy.root |} in
  let env := Toy.env_with "https://sqs.example/custom" message in
  ∃ fuel0, ∀ fuel, (fuel0 ≤ fuel)%nat →
    fst (CustomCrawlerWorker.handle_message Toy.world Toy.config fuel message env) = Ok ().
Proof.
  intros message env.
  destruct (tier2_job_gets_one_attempt Toy.world Toy.config message env "j1" "acme"
              Toy.root) as [fuel0 H]; try reflexivity.
  exists fuel0. intros fuel Hle. exact (proj1 (H fuel Hle)).
Defined.

(** X25. In the second-tier worker a message whose job lacks a key is
    never deleted. process_job reads the keys before its [try], so the
    [KeyError] leaves it, skips the delete and is caught by the [except]
    clause of the loop: the turn ends normally with one error line and
    with the queues as they were, the message still first in the queue. *)
Theorem tier2_malformed_job_is_kept (w : World) (cfg : Config) (fuel : nat)
    (message : Message) (rest : list Message) (env : Env) :
  Sqs.queue (custom_crawler_queue_url cfg) env = message :: rest →
  sqs_fault w (ReceiveMessage (custom_crawler_queue_url cfg)) = None →
  Body message !! "job_id" = None ∨ Body message !! "company_name" = None
  ∨ Body message !! "website" = None →
  let run := CustomCrawlerWorker.run_once w cfg fuel env in
  fst run = Ok ()
  ∧ queues (snd run) = queues env ∧ sent (snd run) = sent env
  ∧ ∃ key, last (trace (snd run))
           = Some (EvLog ERROR ("Error in message processing loop: '" ++ key ++ "'")).
Proof.
  intros Hq Hrecv H run. subst run.
  unfold CustomCrawlerWorker.run_once, try_except. rewrite bind_run.
  unfold Sqs.receive_message. rewrite Hrecv, Hq. simpl.
  rewrite bind_run. simpl. rewrite bind_run.
  unfold CustomCrawlerWorker.handle_message. rewrite bind_run. simpl.
  rewrite bind_run. unfold CustomCrawlerWorker.process_job. rewrite bind_run.
  unfold getitem.
  destruct (Body message !! "job_id") as [job_id|] eqn:H1.
  2: { simpl. split_and!; try done. exists "job_id". apply last_snoc. }
  simpl. rewrite bind_run.
  destruct (Body message !! "company_name") as [company_name|] eqn:H2.
  2: { simpl. split_and!; try done. exists "company_name". apply last_snoc. }
  simpl. rewrite bind_run.
  destruct (Body message !! "website") as [website|] eqn:H3.
  2: { simpl. split_and!; try done. exists "website". apply last_snoc. }
  by destruct H as [H|[H|H]].
Qed.

Lemma tier2_malformed_job_is_kept_witness :
  let message := {| ReceiptHandle := "rh-1";
                    Body := {[ "job_id" := "j1"; "company_name" := "acme" ]} |} in
  let env := Toy.env_with "https://sqs.example/custom" message in
  queues (snd (CustomCrawlerWorker.run_once Toy.world Toy.config 20 env)) = queues env.
Proof.
  intros message env.
  apply (tier2_malformed_job_is_kept Toy.world Toy.config 20 message [] env).
  - reflexivity.
  - reflexivity.
  - right. right. reflexivity.
Defined.

(** X26. The worker loop of the crawler class keeps a job whose browser
    cannot be set up. In start_worker the crawl is not inside a [try] of
    process_job: when the configured backend is not available the
    exception of setup_browser leaves process_job, skips the delete and
    is caught by the [except] clause of the loop, so the turn ends
    normally with the queues as they were and the same message is
    received again on the next turn. *)
Theorem start_worker_keeps_job_when_setup_fails (w : World) (cfg : Config)
    (fuel : nat) (message : Message) (rest : list Message) (env : Env)
    (job_id company_name website : string) :
  String.eqb (browser_type cfg) "playwright" && PLAYWRIGHT_AVAILABLE w = false →
  String.eqb (browser_type cfg) "selenium" && SELENIUM_AVAILABLE w = false →
  Sqs.queue (custom_crawler_queue_url cfg) env = message :: rest →
  sqs_fault w (ReceiveMessage (custom_crawler_queue_url cfg)) = None →
  Body message !! "job_id" = Some job_id →
  Body message !! "company_name" = Some company_name →
  Body message !! "website" = Some website →
  let run := CustomCrawlerJobs.start_worker_once w cfg fuel env in
  fst run = Ok ()
  ∧ queues (snd run) = queues env ∧ sent (snd run) = sent env
  ∧ last (trace (snd run))
    = Some (EvLog ERROR ("Error in custom crawler worker loop: Browser type "
                         ++ browser_type cfg ++ " not available or not supported")).
Proof.
  intros Hp Hs Hq Hrecv H1 H2 H3 run. subst run.
  unfold CustomCrawlerJobs.start_worker_once, try_except. rewrite bind_run.
  unfold Sqs.receive_message. rewrite Hrecv, Hq. simpl.
  rewrite bind_run. unfold CustomCrawlerJobs.handle_message. rewrite bind_run.
  unfold CustomCrawlerJobs.process_job, getitem. rewrite H1, H2, H3.
  rewrite bind_run. simpl. rewrite bind_run. simpl. rewrite bind_run. simpl.
  rewrite bind_run. simpl. rewrite bind_run.
  set (enva := {| files := files env; queues := queues env; sent := sent env;
                  trace := _ |}).
  destruct (crawl_website_unavailable w cfg fuel website company_name job_id enva Hp Hs)
    as (env1 & evs & E & T & Q & S & _).
  rewrite E. simpl. split_and!; try done. apply last_snoc.
Qed.

(** The example job, with no browser backend installed. *)
Lemma start_worker_keeps_job_when_setup_fails_witness :
  let message := {| ReceiptHandle := "rh-1"; Body := Toy.job "j1" Toy.root |} in
  let env := Toy.env_with "https://sqs.example/custom" message in
  queues (snd (CustomCrawlerJobs.start_worker_once Toy.world_no_browser Toy.config 20 env))
  = queues env.
Proof.
  intros message env.
  apply (start_worker_keeps_job_when_setup_fails Toy.world_no_browser Toy.config 20
           message [] env "j1" "acme" Toy.root); reflexivity.
Defined.

(** ** The first-tier scraper *)

Lemma prefix_cons a p c s :
  String.prefix (String a p) (String c s)
  = if Ascii.ascii_dec a c then String.prefix p s else false.
Proof. reflexivity. Qed.

Lemma substring_0_all s : ∀ n, (String.length s ≤ n)%nat → substring 0 n s = s.
Proof.
  induction s as [|c s IH]; intros [|n] H; simpl in *; try done; try lia.
  rewrite IH by lia. done.
Qed.

Lemma all_chars_substring p s : ∀ n,
  all_chars p s = true → all_chars p (substring 0 n s) = true.
Proof.
  induction s as [|c s IH]; intros [|n] H; simpl in *; try done.
  apply andb_prop in H as [Hc Hs]. by rewrite Hc, IH.
Qed.

Lemma length_substring_le s : ∀ n, (String.length (substring 0 n s) ≤ n)%nat.
Proof.
  induction s as [|c s IH]; intros [|n]; simpl; try lia. specialize (IH n). lia.
Qed.

Lemma replace_slash_no_slash fuel : ∀ s, (String.length s < fuel)%nat →
  all_chars (λ c, negb (Ascii.eqb c "/")) (PyStr.replace_from fuel "/" "_" s) = true.
Proof.
  induction fuel as [|fuel IH]; intros s Hlen; [lia|].
  destruct s as [|c s]; [done|]. simpl in Hlen.
  cbn [PyStr.replace_from]. rewrite prefix_cons.
  destruct (Ascii.ascii_dec "/" c) as [<-|Hne].
  - replace (String.prefix "" s) with true by (by destruct s).
    replace (substring (String.length "/") (String.length (String "/" s)) (String "/" s))
      with s.
    + change ("_" ++ PyStr.replace_from fuel "/" "_" s)
        with (String "_" (PyStr.replace_from fuel "/" "_" s)).
      cbn [all_chars]. rewrite IH by lia. done.
    + change (substring (String.length "/") (String.length (String "/" s)) (String "/" s))
        with (substring 0 (S (String.length s)) s).
      symmetry. apply substring_0_all. lia.
  - cbn [all_chars]. rewrite IH by lia. rewrite andb_true_r.
    apply negb_true_iff, Ascii.eqb_neq. congruence.
Qed.

(** X27. The file name the scraper derives from a URL is flat and short:
    it is a stem of at most 30 characters without any slash, followed by
    [_] and the suffix; for the suffix [.csv] the whole name holds no
    slash, so the CSV file lies directly in the output directory. *)
Theorem generated_filename_is_flat_and_short (url suffix : string) :
  (∃ safe_url,
     FirecrawlScraper._generate_filename url suffix = safe_url ++ "_" ++ suffix
     ∧ all_chars (λ c, negb (Ascii.eqb c "/")) safe_url = true
     ∧ (String.length safe_url ≤ 30)%nat)
  ∧ all_chars (λ c, negb (Ascii.eqb c "/"))
      (FirecrawlScraper._generate_filename url ".csv") = true.
Proof.
  assert (H : ∀ s, all_chars (λ c, negb (Ascii.eqb c "/"))
                     (PyStr.take 30 (PyStr.replace "/" "_" s)) = true).
  { intros s. unfold PyStr.take, PyStr.replace.
    apply all_chars_substring, replace_slash_no_slash. lia. }
  split.
  - eexists. split; [reflexivity|]. split; [apply H|]. apply length_substring_le.
  - unfold FirecrawlScraper._generate_filename. by rewrite all_chars_app, H.
Qed.

Lemma length_omap_le {A B : Type} (f : A → option B) (l : list A) :
  (List.length (omap f l) ≤ List.length l)%nat.
Proof.
  induction l as [|a l IH]; [done|]. cbn [omap list_omap]. 
  destruct (f a); simpl in *; lia.
Qed.

(** X28. process_website counts every entry and writes the complete
    ones. When the crawl returns a status with a [data] list and the
    store takes the file, the result names the CSV file, which holds the
    rows of the entries that have [metadata], [sourceURL] and
    [markdown], in order, while [pages_crawled] is the length of the
    whole list: entries skipped for a missing key are counted as pages
    but are not in the file. *)
Theorem process_website_counts_every_entry
    (w : World) (output_dir : string) (limit : Z)
    (crawl_url : string → result FirecrawlScraper.CrawlStatus)
    (path_div : string → string → string)
    (csv_text : list FirecrawlScraper.Row → string) (now_isoformat : string)
    (url : string) (status : FirecrawlScraper.CrawlStatus)
    (entries : list FirecrawlScraper.Entry) (env : Env) :
  crawl_url url = Returns status →
  FirecrawlScraper.data status = Some entries →
  let output_file := path_div output_dir (FirecrawlScraper._generate_filename url ".csv") in
  write_fault w output_file = None →
  let run := FirecrawlScraper.process_website w output_dir limit crawl_url path_div
               csv_text now_isoformat url env in
  let rows := omap complete_row entries in
  fst run = Ok {| FirecrawlScraper.url := url;
                  FirecrawlScraper.pages_crawled := Z.of_nat (List.length entries);
                  FirecrawlScraper.csv_path := output_file;
                  FirecrawlScraper.timestamp := now_isoformat |}
  ∧ files (snd run) = <[output_file := csv_text rows]> (files env)
  ∧ (List.length rows ≤ List.length entries)%nat.
Proof.
  intros Hcrawl Hdata output_file Hw run rows. subst run.
  split; [|split; [|apply length_omap_le]].
  - unfold FirecrawlScraper.process_website, try_except. rewrite bind_run. simpl.
    rewrite bind_run. unfold FirecrawlScraper.crawl_website, try_except.
    rewrite bind_run. simpl. rewrite bind_run, Hcrawl. simpl.
    rewrite bind_run. unfold FirecrawlScraper.save_to_csv, try_except.
    rewrite bind_run, Hdata. simpl. rewrite bind_run.
    match goal with |- context [FirecrawlScraper.collect entries [] ?e] =>
      destruct (collect_run entries [] e) as (env' & E & F & Q & S) end.
    rewrite E. simpl. rewrite bind_run. unfold CustomCrawler.write_file.
    fold output_file. rewrite Hw. simpl. done.
  - unfold FirecrawlScraper.process_website, try_except. rewrite bind_run. simpl.
    rewrite bind_run. unfold FirecrawlScraper.crawl_website, try_except.
    rewrite bind_run. simpl. rewrite bind_run, Hcrawl. simpl.
    rewrite bind_run. unfold FirecrawlScraper.save_to_csv, try_except.
    rewrite bind_run, Hdata. simpl. rewrite bind_run.
    match goal with |- context [FirecrawlScraper.collect entries [] ?e] =>
      destruct (collect_run entries [] e) as (env' & E & F & Q & S) end.
    rewrite E. simpl. rewrite bind_run. unfold CustomCrawler.write_file.
    fold output_file. rewrite Hw. simpl. by rewrite F.
Qed.

(** A crawl with two entries, the second without its text. *)
Lemma process_website_counts_every_entry_witness :
  let first := {| FirecrawlScraper.metadata := Some {[ "sourceURL" := "https://a.example/" ]};
                  FirecrawlScraper.markdown := Some "# Home" |} in
  let second := {| FirecrawlScraper.metadata := Some {[ "sourceURL" := "https://a.example/x" ]};
                   FirecrawlScraper.markdown := None |} in
  let run := FirecrawlScraper.process_website Toy.world "scraped_data" 2
               (λ _, Returns {| FirecrawlScraper.data := Some [first; second] |})
               (λ dir filename, dir ++ "/" ++ filename)
               (λ rows, String.concat Toy.NL (map (λ row : FirecrawlScraper.Row, row.1.1) rows))
               "2025-01-01T00:00:00" "https://a.example/" Toy.env0 in
  fst run = Ok {| FirecrawlScraper.url := "https://a.example/";
                  FirecrawlScraper.pages_crawled := 2;
                  FirecrawlScraper.csv_path := "scraped_data/a.example__.csv";
                  FirecrawlScraper.timestamp := "2025-01-01T00:00:00" |}
  ∧ files (snd run) !! "scraped_data/a.example__.csv" = Some "https://a.example/".
Proof.
  intros first second run.
  destruct (process_website_counts_every_entry Toy.world "scraped_data" 2
              (λ _, Returns {| FirecrawlScraper.data := Some [first; second] |})
              (λ dir filename, dir ++ "/" ++ filename)
              (λ rows, String.concat Toy.NL (map (λ row : FirecrawlScraper.Row, row.1.1) rows))
              "2025-01-01T00:00:00" "https://a.example/"
              {| FirecrawlScraper.data := Some [first; second] |} [first; second]
              Toy.env0) as (H1 & H2 & _); try reflexivity.
  split; [exact H1|]. fold run in H2. rewrite H2. reflexivity.
Defined.

(** X29. When process_website fails it raises the cause. An exception
    of the crawl is raised again as it is, and a crawl status without
    [data] gives the [KeyError] of ['data']; in both cases the store is
    as it was. A CSV file that cannot be written gives the error of the
    write: the file is untouched if it was never opened, and holds what
    the broken write left if it was. *)
Theorem process_website_failure_raises_cause
    (w : World) (output_dir : string) (limit : Z)
    (crawl_url : string → result FirecrawlScraper.CrawlStatus)
    (path_div : string → string → string)
    (csv_text : list FirecrawlScraper.Row → string) (now_isoformat : string)
    (url : string) (env : Env) :
  let output_file := path_div output_dir (FirecrawlScraper._generate_filename url ".csv") in
  let run := FirecrawlScraper.process_website w output_dir limit crawl_url path_div
               csv_text now_isoformat url env in
  (∀ e, crawl_url url = Raises e → fst run = Raised e ∧ files (snd run) = files env)
  ∧ (∀ status, crawl_url url = Returns status → FirecrawlScraper.data status = None →
       fst run = Raised "'data'" ∧ files (snd run) = files env)
  ∧ (∀ status entries fault,
       crawl_url url = Returns status → FirecrawlScraper.data status = Some entries →
       write_fault w output_file = Some fault →
       fst run = Raised (wf_error fault)
       ∧ files (snd run) = match wf_left fault with
                           | Some partial => <[output_file := partial]> (files env)
                           | None => files env
                           end).
Proof.
  intros output_file run. subst run. split_and!.
  - intros e Hcrawl.
    unfold FirecrawlScraper.process_website, try_except. rewrite bind_run. simpl.
    rewrite bind_run. unfold FirecrawlScraper.crawl_website, try_except.
    rewrite bind_run. simpl. rewrite bind_run, Hcrawl. simpl. done.
  - intros status Hcrawl Hdata.
    unfold FirecrawlScraper.process_website, try_except. rewrite bind_run. simpl.
    rewrite bind_run. unfold FirecrawlScraper.crawl_website, try_except.
    rewrite bind_run. simpl. rewrite bind_run, Hcrawl. simpl.
    rewrite bind_run. unfold FirecrawlScraper.save_to_csv, try_except.
    rewrite bind_run, Hdata. simpl. done.
  - intros status entries fault Hcrawl Hdata Hw.
    unfold FirecrawlScraper.process_website, try_except. rewrite bind_run. simpl.
    rewrite bind_run. unfold FirecrawlScraper.crawl_website, try_except.
    rewrite bind_run. simpl. rewrite bind_run, Hcrawl. simpl.
    rewrite bind_run. unfold FirecrawlScraper.save_to_csv, try_except.
    rewrite bind_run, Hdata. simpl. rewrite bind_run.
    match goal with |- context [FirecrawlScraper.collect entries [] ?e] =>
      destruct (collect_run entries [] e) as (env' & E & F & Q & S) end.
    rewrite E. simpl. rewrite bind_run. unfold CustomCrawler.write_file.
    fold output_file. rewrite Hw. rewrite bind_run.
    destruct (wf_left fault); simpl; by rewrite F.
Qed.

(** A crawl that the service refuses. *)
Lemma process_website_failure_raises_cause_witness :
  fst (FirecrawlScraper.process_website Toy.world "scraped_data" 2
         (λ _, Raises "Payment Required") (λ dir filename, dir ++ "/" ++ filename)
         (λ _, "") "2025-01-01T00:00:00" "https://down.example/" Toy.env0)
  = Raised "Payment Required".
Proof.
  destruct (process_website_failure_raises_cause Toy.world "scraped_data" 2
              (λ _, Raises "Payment Required") (λ dir filename, dir ++ "/" ++ filename)
              (λ _, "") "2025-01-01T00:00:00" "https://down.example/" Toy.env0)
    as (H & _).
  exact (proj1 (H "Payment Required" eq_refl)).
Defined.
